(** * Analytics recomputation engine of the trading dashboard

    A shallow embedding of [archive/python/tasks.py] (the Celery tasks
    and the recomputation pass), of the [AnalyticsDaily] model of
    [archive/python/analytics.py], and of the beat schedule of
    [archive/python/celery_app.py].

    Numbers are exact rationals with the IEEE special values added where
    the Python code can produce them (the rounding of floats and of the
    [Numeric] columns is left out); dates are day numbers, timestamps
    are seconds since the epoch, all in UTC. *)

From Stdlib Require Import ZArith QArith Qround List Sorted String Bool Arith Lia.
Import ListNotations.

Open Scope string_scope.
Open Scope list_scope.
Open Scope nat_scope.

(** ** Numeric values *)

Module Numeric.

(** A Python float: a finite value, an infinity or not-a-number. *)
Inductive num : Type :=
| Fin (q : Q)
| PosInf
| NegInf
| NaN.

(** What the elements of the equity series are.  The [equity] column
    is [Numeric(12, 2)], which the ORM returns as [decimal.Decimal];
    a driver configured otherwise returns floats.  The two differ on a
    zero divisor only. *)
Inductive arith : Type := Decimal | Float64.

(** A cell of a pandas Series or an attribute value: [None] is
    Python's [None], [Some NaN] a float not-a-number. *)
Definition cell : Type := option num.

Definition isna_num (x : num) : bool :=
  match x with NaN => true | _ => false end.

(** [float(v) if v is not None and not pd.isna(v) else None] *)
Definition float_or_none (v : cell) : cell :=
  match v with
  | Some x => if isna_num x then None else Some x
  | None => None
  end.

Definition is_zero (q : Q) : bool := Qeq_bool q 0.

Definition is_neg (q : Q) : bool :=
  match Qcompare q 0 with Lt => true | _ => false end.

End Numeric.
Export Numeric.

(** ** Exceptions, log records and store operations *)

Inductive exn : Type :=
| TypeError (keyword : string)      (* invalid keyword argument *)
| MultipleResultsFound              (* scalar_one_or_none on several rows *)
| OperationalError                  (* the store could not be reached *)
| IntegrityError                    (* a unique constraint was violated *)
| DivisionByZero                    (* decimal: x / 0 *)
| InvalidOperation                  (* decimal: 0 / 0 *)
| FetchError.                       (* the market-data fetch failed *)

Inductive level : Type := INFO | WARNING | ERROR.

Definition log_record : Type := (level * string)%type.

(** One round trip to the data store. *)
Inductive db_op : Type :=
| SelectEquity
| SelectEarliestEquity
| SelectInstrument
| SelectOHLC
| SelectAnalytics (d : Z)
| Commit
| Rollback.

(** ** ORM models *)

Module EquityCurve.
Record t : Type := { time : Z; equity : Q }.
End EquityCurve.

Module Instrument.
Record t : Type := { id : Z; symbol : string }.
End Instrument.

Module OHLCDaily.
Record t : Type := { instrument_id : Z; date : Z; close : Q }.
End OHLCDaily.

Module AnalyticsDaily.

(** A row of [analytics_daily]: the mapped columns of the model. *)
Record t : Type := {
  id : option Z;
  date : Z;
  return_pct : cell;
  cum_return : cell;
  drawdown : cell;
  volatility_20d : cell;
  sharpe_60d : cell;
  beta_spy_60d : cell;
  alpha_spy_60d : cell
}.

(** The nullable numeric columns, as declared. *)
Definition numeric_columns : list string :=
  ["return_pct"; "cum_return"; "drawdown"; "volatility_20d";
   "sharpe_60d"; "beta_spy_60d"; "alpha_spy_60d"].

Definition columns : list string := "id" :: "date" :: numeric_columns.

(** Every name for which [hasattr(AnalyticsDaily, name)] holds that a
    keyword argument could plausibly hit: the columns and the other
    attributes the class body and the declarative base define. *)
Definition class_attributes : list string :=
  columns ++ ["__tablename__"; "__table_args__"; "__repr__";
              "metadata"; "registry"].

Definition mem (k : string) (l : list string) : bool :=
  existsb (String.eqb k) l.

Definition hasattr (k : string) : bool := mem k class_attributes.

(** Assignment to a mapped numeric column; [None] when [k] is not one. *)
Definition set_column (k : string) (v : cell) (r : t) : option t :=
  if String.eqb k "return_pct" then
    Some {| id := id r; date := date r; return_pct := v; cum_return := cum_return r;
            drawdown := drawdown r; volatility_20d := volatility_20d r;
            sharpe_60d := sharpe_60d r; beta_spy_60d := beta_spy_60d r;
            alpha_spy_60d := alpha_spy_60d r |}
  else if String.eqb k "cum_return" then
    Some {| id := id r; date := date r; return_pct := return_pct r; cum_return := v;
            drawdown := drawdown r; volatility_20d := volatility_20d r;
            sharpe_60d := sharpe_60d r; beta_spy_60d := beta_spy_60d r;
            alpha_spy_60d := alpha_spy_60d r |}
  else if String.eqb k "drawdown" then
    Some {| id := id r; date := date r; return_pct := return_pct r;
            cum_return := cum_return r; drawdown := v;
            volatility_20d := volatility_20d r; sharpe_60d := sharpe_60d r;
            beta_spy_60d := beta_spy_60d r; alpha_spy_60d := alpha_spy_60d r |}
  else if String.eqb k "volatility_20d" then
    Some {| id := id r; date := date r; return_pct := return_pct r;
            cum_return := cum_return r; drawdown := drawdown r;
            volatility_20d := v; sharpe_60d := sharpe_60d r;
            beta_spy_60d := beta_spy_60d r; alpha_spy_60d := alpha_spy_60d r |}
  else if String.eqb k "sharpe_60d" then
    Some {| id := id r; date := date r; return_pct := return_pct r;
            cum_return := cum_return r; drawdown := drawdown r;
            volatility_20d := volatility_20d r; sharpe_60d := v;
            beta_spy_60d := beta_spy_60d r; alpha_spy_60d := alpha_spy_60d r |}
  else if String.eqb k "beta_spy_60d" then
    Some {| id := id r; date := date r; return_pct := return_pct r;
            cum_return := cum_return r; drawdown := drawdown r;
            volatility_20d := volatility_20d r; sharpe_60d := sharpe_60d r;
            beta_spy_60d := v; alpha_spy_60d := alpha_spy_60d r |}
  else if String.eqb k "alpha_spy_60d" then
    Some {| id := id r; date := date r; return_pct := return_pct r;
            cum_return := cum_return r; drawdown := drawdown r;
            volatility_20d := volatility_20d r; sharpe_60d := sharpe_60d r;
            beta_spy_60d := beta_spy_60d r; alpha_spy_60d := v |}
  else None.

(** A Python instance of the model held by a session: the mapped row,
    the plain attributes of its [__dict__] that are no columns, and
    whether the row is in the table already or waits for the flush. *)
Record instance : Type := {
  row : t;
  dict : list (string * cell);
  persistent : bool
}.

Definition loaded (r : t) : instance :=
  {| row := r; dict := []; persistent := true |}.

(** [setattr(obj, k, v)]: a mapped column changes the row, any other
    name becomes a plain attribute of the object, which no flush
    writes. *)
Definition setattr (k : string) (v : cell) (o : instance) : instance :=
  match set_column k v (row o) with
  | Some r => {| row := r; dict := dict o; persistent := persistent o |}
  | None =>
      {| row := row o;
         dict := (k, v) :: filter (fun kv => negb (String.eqb (fst kv) k)) (dict o);
         persistent := persistent o |}
  end.

Definition getattr (k : string) (o : instance) : option cell :=
  match find (fun kv => String.eqb (fst kv) k) (dict o) with
  | Some kv => Some (snd kv)
  | None => None
  end.

(** The constructor of the declarative base: every keyword must name
    an attribute of the class, else it raises [TypeError]; the
    accepted ones are assigned in order. *)
Fixpoint init_kwargs (kwargs : list (string * cell)) (o : instance) : exn + instance :=
  match kwargs with
  | [] => inr o
  | (k, v) :: rest =>
      if hasattr k then init_kwargs rest (setattr k v o) else inl (TypeError k)
  end.

Definition blank (d : Z) : instance :=
  {| row := {| id := None; date := d; return_pct := None; cum_return := None;
               drawdown := None; volatility_20d := None; sharpe_60d := None;
               beta_spy_60d := None; alpha_spy_60d := None |};
     dict := []; persistent := false |}.

(** [AnalyticsDaily(date=d, **kwargs)] *)
Definition new (d : Z) (kwargs : list (string * cell)) : exn + instance :=
  if hasattr "date" then init_kwargs kwargs (blank d) else inl (TypeError "date").

End AnalyticsDaily.

(** ** The store and the session *)

(** The committed tables, the session's view of [analytics_daily] inside
    its open transaction, the log, the store round trips made so far and
    the environment's fault plan: [Some n] lets [n] more round trips
    through and fails the next one. *)
Record State : Type := {
  equity_curve : list EquityCurve.t;
  instruments : list Instrument.t;
  ohlc_daily : list OHLCDaily.t;
  analytics_daily : list AnalyticsDaily.t;
  session : list AnalyticsDaily.instance;
  log : list log_record;
  trace : list db_op;
  faults : option nat
}.

Definition with_analytics (rows : list AnalyticsDaily.t) (s : State) : State :=
  {| equity_curve := equity_curve s; instruments := instruments s;
     ohlc_daily := ohlc_daily s; analytics_daily := rows; session := session s;
     log := log s; trace := trace s; faults := faults s |}.

Definition with_session (os : list AnalyticsDaily.instance) (s : State) : State :=
  {| equity_curve := equity_curve s; instruments := instruments s;
     ohlc_daily := ohlc_daily s; analytics_daily := analytics_daily s; session := os;
     log := log s; trace := trace s; faults := faults s |}.

Definition with_log (l : list log_record) (s : State) : State :=
  {| equity_curve := equity_curve s; instruments := instruments s;
     ohlc_daily := ohlc_daily s; analytics_daily := analytics_daily s;
     session := session s; log := l; trace := trace s; faults := faults s |}.

Definition with_trace (t : list db_op) (s : State) : State :=
  {| equity_curve := equity_curve s; instruments := instruments s;
     ohlc_daily := ohlc_daily s; analytics_daily := analytics_daily s;
     session := session s; log := log s; trace := t; faults := faults s |}.

Definition with_faults (f : option nat) (s : State) : State :=
  {| equity_curve := equity_curve s; instruments := instruments s;
     ohlc_daily := ohlc_daily s; analytics_daily := analytics_daily s;
     session := session s; log := log s; trace := trace s; faults := f |}.

(** Computations that read and change the state and may raise. *)
Definition M (A : Type) : Type := State -> (exn + A) * State.

Definition ret {A : Type} (a : A) : M A := fun s => (inr a, s).

Definition raise {A : Type} (e : exn) : M A := fun s => (inl e, s).

Definition bind {A B : Type} (m : M A) (k : A -> M B) : M B :=
  fun s =>
    match m s with
    | (inr a, s') => k a s'
    | (inl e, s') => (inl e, s')
    end.

Notation "x <- m ;; k" := (bind m (fun x => k))
  (at level 61, m at next level, right associativity).
Notation "m ;;; k" := (bind m (fun _ => k))
  (at level 61, right associativity).

Definition lift {A : Type} (r : exn + A) : M A :=
  match r with inl e => raise e | inr a => ret a end.

Definition gets {A : Type} (f : State -> A) : M A := fun s => (inr (f s), s).

Definition modify (f : State -> State) : M unit := fun s => (inr tt, f s).

Definition logger (lv : level) (msg : string) : M unit :=
  modify (fun s => with_log (log s ++ [(lv, msg)]) s).

(** A round trip to the store: recorded, and failed when the fault plan
    says so. *)
Definition round_trip (op : db_op) : M unit :=
  fun s =>
    let s1 := with_trace (trace s ++ [op]) s in
    match faults s with
    | Some O => (inl OperationalError, with_faults None s1)
    | Some (S n) => (inr tt, with_faults (Some n) s1)
    | None => (inr tt, s1)
    end.

(** [scalar_one_or_none()] *)
Definition scalar_one_or_none {A : Type} (rows : list A) : exn + option A :=
  match rows with
  | [] => inr None
  | [r] => inr (Some r)
  | _ => inl MultipleResultsFound
  end.

(** Stable insertion sort on an integer key ([ORDER BY key ASC]). *)
Fixpoint insert_by {A : Type} (key : A -> Z) (x : A) (l : list A) : list A :=
  match l with
  | [] => [x]
  | y :: rest => if (key y <=? key x)%Z then y :: insert_by key x rest else x :: l
  end.

Definition order_by {A : Type} (key : A -> Z) (l : list A) : list A :=
  fold_left (fun acc x => insert_by key x acc) l [].

(** [SessionLocal()]: a new session; nothing is pending in it. *)
Definition SessionLocal (fault : option nat) (s : State) : State :=
  with_faults fault (with_session (map AnalyticsDaily.loaded (analytics_daily s)) s).

(** [db.close()] *)
Definition db_close (s : State) : State := with_faults None (with_session [] s).

(** [db.rollback()]: the pending changes are dropped.  Every caller
    closes the session right after, so the objects are not used
    again. *)
Definition db_rollback (s : State) : State :=
  with_session (map AnalyticsDaily.loaded (analytics_daily s))
    (with_trace (trace s ++ [Rollback]) s).

(** [db.add(obj)] *)
Definition db_add (o : AnalyticsDaily.instance) : M unit :=
  modify (fun s => with_session (session s ++ [o]) s).

Definition dates_of (os : list AnalyticsDaily.instance) : list Z :=
  map (fun o => AnalyticsDaily.date (AnalyticsDaily.row o)) os.

Fixpoint distinct (l : list Z) : bool :=
  match l with
  | [] => true
  | x :: rest => negb (existsb (Z.eqb x) rest) && distinct rest
  end.

Definition next_id (rows : list AnalyticsDaily.t) : Z :=
  fold_left (fun m r => match AnalyticsDaily.id r with
                        | Some i => Z.max m (i + 1)
                        | None => m
                        end) rows 1%Z.

(** The flush inserts the rows that were added, each with the next value
    of the id sequence; rows already in the table keep their id. *)
Fixpoint assign_ids (next : Z) (os : list AnalyticsDaily.instance)
  : list AnalyticsDaily.instance :=
  match os with
  | [] => []
  | o :: rest =>
      if AnalyticsDaily.persistent o then o :: assign_ids next rest
      else
        let r := AnalyticsDaily.row o in
        {| AnalyticsDaily.row :=
             {| AnalyticsDaily.id := Some next;
                AnalyticsDaily.date := AnalyticsDaily.date r;
                AnalyticsDaily.return_pct := AnalyticsDaily.return_pct r;
                AnalyticsDaily.cum_return := AnalyticsDaily.cum_return r;
                AnalyticsDaily.drawdown := AnalyticsDaily.drawdown r;
                AnalyticsDaily.volatility_20d := AnalyticsDaily.volatility_20d r;
                AnalyticsDaily.sharpe_60d := AnalyticsDaily.sharpe_60d r;
                AnalyticsDaily.beta_spy_60d := AnalyticsDaily.beta_spy_60d r;
                AnalyticsDaily.alpha_spy_60d := AnalyticsDaily.alpha_spy_60d r |};
           AnalyticsDaily.dict := AnalyticsDaily.dict o;
           AnalyticsDaily.persistent := true |} :: assign_ids (next + 1) rest
  end.

(** [db.commit()]: one round trip that writes every pending row change
    or, when the unique constraint on [date] rejects the flush, none. *)
Definition db_commit : M unit :=
  round_trip Commit ;;;
  os <- gets session ;;
  if distinct (dates_of os) then
    rows <- gets analytics_daily ;;
    let os' := assign_ids (next_id rows) os in
    modify (fun s => with_session os' (with_analytics (map AnalyticsDaily.row os') s))
  else raise IntegrityError.

(** ** pandas *)

Definition Series : Type := list (Z * cell).

Definition date_of (t : Z) : Z := (t / 86400)%Z.

(** [datetime.combine(d, datetime.min.time())] *)
Definition midnight (d : Z) : Z := (d * 86400)%Z.

(** Float division: a zero divisor gives an infinity or not-a-number. *)
Definition float_div (x y : Q) : num :=
  if is_zero y then
    if is_zero x then NaN else if is_neg x then NegInf else PosInf
  else Fin (x / y).

(** [x / y] on the elements of the equity series. *)
Definition truediv (a : arith) (x y : Q) : exn + num :=
  match a with
  | Float64 => inr (float_div x y)
  | Decimal =>
      if is_zero y then inl (if is_zero x then InvalidOperation else DivisionByZero)
      else inr (Fin (x / y))
  end.

Definition minus_one (x : num) : num :=
  match x with Fin q => Fin (q - 1) | other => other end.

Definition last_on (d : Z) (l : list (Z * Q)) : option Q :=
  fold_left (fun acc p => if (date_of (fst p) =? d)%Z then Some (snd p) else acc) l None.

(** [.resample('D').last()]: one bin per calendar day from the first to
    the last timestamp, holding the last value of the day, if any. *)
Definition resample_D_last (l : list (Z * Q)) : list (Z * option Q) :=
  match l with
  | [] => []
  | (t0, v0) :: _ =>
      let d0 := date_of t0 in
      let d1 := date_of (fst (last l (t0, v0))) in
      map (fun k => let d := (d0 + Z.of_nat k)%Z in (d, last_on d l))
          (seq 0 (Z.to_nat (d1 - d0 + 1)))
  end.

(** [.dropna()] *)
Definition dropna (l : list (Z * option Q)) : list (Z * Q) :=
  flat_map (fun p => match snd p with Some v => [(fst p, v)] | None => [] end) l.

(** [s.iloc[idx] if idx < len(s) else None] *)
Definition iloc_or_none (s : Series) (idx : nat) : cell :=
  match nth_error s idx with
  | Some p => snd p
  | None => None
  end.

Fixpoint pct_change_from (prev : Q) (l : list (Z * Q)) : Series :=
  match l with
  | [] => []
  | (d, c) :: rest => (d, Some (minus_one (float_div c prev))) :: pct_change_from c rest
  end.

(** [.pct_change()]: the first element has no predecessor. *)
Definition pct_change (l : list (Z * Q)) : Series :=
  match l with
  | [] => []
  | (d, c) :: rest => (d, Some NaN) :: pct_change_from c rest
  end.

(** [.fillna(0)] *)
Definition fillna_0 (s : Series) : Series :=
  map (fun p => (fst p, match float_or_none (snd p) with
                        | Some x => Some x
                        | None => Some (Fin 0)
                        end)) s.

Definition at_index (d : Z) (s : Series) : cell :=
  match find (fun p => (fst p =? d)%Z) s with
  | Some p => float_or_none (snd p)
  | None => None
  end.

(** [pd.DataFrame({'portfolio': p, 'benchmark': b}).dropna()]: the rows
    of the index on which both columns hold a value, in index order. *)
Definition aligned_frame (p b : Series) : list (Z * (num * num)) :=
  order_by fst
    (flat_map (fun r => match float_or_none (snd r), at_index (fst r) b with
                        | Some x, Some y => [(fst r, (x, y))]
                        | _, _ => []
                        end) p).

Definition column_portfolio (f : list (Z * (num * num))) : Series :=
  map (fun r => (fst r, Some (fst (snd r)))) f.

Definition column_benchmark (f : list (Z * (num * num))) : Series :=
  map (fun r => (fst r, Some (snd (snd r)))) f.

(** [pd.Series([None] * len(s), index=s.index)] *)
Definition none_series (s : Series) : Series := map (fun p => (fst p, None)) s.

(** ** Celery *)

(** How one execution of a task body ends. *)
Inductive outcome : Type :=
| Returned
| RetryRequested (countdown : nat)
| Raised (e : exn).

(** [@celery_app.task(bind=True, max_retries=3)] *)
Definition max_retries : nat := 3.

(** [self.retry(exc=e, countdown=c)] of Celery: while the number of
    retries made stays within [max_retries] the task is sent again after
    [c] seconds, else the original exception is raised. *)
Definition self_retry (retries : nat) (exc : exn) (countdown : nat) : outcome :=
  if max_retries <? retries + 1 then Raised exc else RetryRequested countdown.

(** The beat schedule of [celery_app.py]: task name, hour, minute. *)
Definition beat_schedule : list (string * (string * (nat * nat))) :=
  [("update-benchmarks-daily", ("workers.tasks.update_benchmarks_daily", (18, 0)));
   ("recompute-all-analytics", ("workers.tasks.recompute_all_analytics", (18, 30)))].

(** ** The tasks of [tasks.py] *)

(** The functions imported from [core.analytics], whose module is not
    part of the sources at hand: the pass is modelled over any
    implementation of them. *)
Record core_analytics : Type := {
  compute_daily_returns : list (Z * Q) -> Series;
  compute_max_drawdown : list (Z * Q) -> cell;
  compute_rolling_volatility : Series -> nat -> Series;
  compute_rolling_sharpe : Series -> nat -> Series;
  compute_beta_alpha : Series -> Series -> nat -> Series * Series
}.

Fixpoint for_each {A : Type} (body : A -> M unit) (l : list A) : M unit :=
  match l with
  | [] => ret tt
  | x :: rest => body x ;;; for_each body rest
  end.

Fixpoint replace_nth {A : Type} (i : nat) (x : A) (l : list A) : list A :=
  match l, i with
  | [], _ => []
  | _ :: rest, O => x :: rest
  | y :: rest, S j => y :: replace_nth j x rest
  end.

(** The object at position [i] of the session takes the state [o]. *)
Definition put_instance (i : nat) (o : AnalyticsDaily.instance) : M unit :=
  modify (fun s => with_session (replace_nth i o (session s)) s).

Definition on_date (d : Z) (io : nat * AnalyticsDaily.instance) : bool :=
  AnalyticsDaily.persistent (snd io)
  && (AnalyticsDaily.date (AnalyticsDaily.row (snd io)) =? d)%Z.

(** [db.execute(select(AnalyticsDaily).where(AnalyticsDaily.date == d))
    .scalar_one_or_none()]; the session does not autoflush, so rows
    added and not yet flushed are not seen. *)
Definition select_analytics (d : Z) : M (option (nat * AnalyticsDaily.instance)) :=
  round_trip (SelectAnalytics d) ;;;
  os <- gets session ;;
  lift (scalar_one_or_none (filter (on_date d) (combine (seq 0 (List.length os)) os))).

(** The rows of [equity_curve] at or after midnight of [start_date],
    oldest first. *)
Definition equity_data_of (start_date : Z) (s : State) : list EquityCurve.t :=
  order_by EquityCurve.time
    (filter (fun e => (midnight start_date <=? EquityCurve.time e)%Z) (equity_curve s)).

(** [pd.Series(...).resample('D').last().dropna()] on the loaded rows. *)
Definition daily_equity_of (equity_data : list EquityCurve.t) : list (Z * Q) :=
  dropna (resample_D_last
            (map (fun e => (EquityCurve.time e, EquityCurve.equity e)) equity_data)).

Section Tasks.

Variable a : arith.
Variable lib : core_analytics.

(** The names and values the pass writes for one day, in the order of
    the source: the keyword arguments of the insert branch, and the
    attributes the update branch assigns.  [cr] is the quotient
    [daily_equity.iloc[idx] / daily_equity.iloc[0]]. *)
Definition head_values (v : Q) (return_val : cell) : list (string * cell) :=
  [("total_equity", Some (Fin v)); ("daily_return", float_or_none return_val)].

Definition rest_values (cr : num) (max_dd vol_val sharpe_val beta_val alpha_val : cell)
  : list (string * cell) :=
  [("cumulative_return", Some (minus_one cr));
   ("max_drawdown", max_dd);
   ("volatility_20d", float_or_none vol_val);
   ("sharpe_60d", float_or_none sharpe_val);
   ("beta_spy_60d", float_or_none beta_val);
   ("alpha_spy_60d", float_or_none alpha_val)].

Definition assign (kvs : list (string * cell)) (o : AnalyticsDaily.instance)
  : AnalyticsDaily.instance :=
  fold_left (fun acc kv => AnalyticsDaily.setattr (fst kv) (snd kv) acc) kvs o.

Definition _get_benchmark_returns (symbol : string) (start_date : Z)
  : M (option Series) :=
  round_trip SelectInstrument ;;;
  found <- gets (fun s => filter (fun i => String.eqb (Instrument.symbol i) symbol)
                                 (instruments s)) ;;
  instrument <- lift (scalar_one_or_none found) ;;
  match instrument with
  | None => ret None
  | Some i =>
      round_trip SelectOHLC ;;;
      ohlc_data <- gets (fun s =>
        order_by OHLCDaily.date
          (filter (fun o => (OHLCDaily.instrument_id o =? Instrument.id i)%Z
                            && (start_date <=? OHLCDaily.date o)%Z)
                  (ohlc_daily s))) ;;
      match ohlc_data with
      | [] => ret None
      | _ :: _ =>
          ret (Some (fillna_0 (pct_change
                 (map (fun o => (OHLCDaily.date o, OHLCDaily.close o)) ohlc_data))))
      end
  end.

(** The body of the loop over [daily_equity.index], for the row at
    position [idx]. *)
Definition store_day (start_date : Z)
    (daily_returns rolling_vol rolling_sharpe beta alpha : Series)
    (max_dd : cell) (v0 : Q) (entry : nat * (Z * Q)) : M unit :=
  let idx := fst entry in
  let date_only := fst (snd entry) in
  let v := snd (snd entry) in
  if (date_only <? start_date)%Z then ret tt
  else
    let return_val := iloc_or_none daily_returns idx in
    let vol_val := iloc_or_none rolling_vol idx in
    let sharpe_val := iloc_or_none rolling_sharpe idx in
    let beta_val := iloc_or_none beta idx in
    let alpha_val := iloc_or_none alpha idx in
    existing <- select_analytics date_only ;;
    match existing with
    | Some (i, o) =>
        let o2 := assign (head_values v return_val) o in
        put_instance i o2 ;;;
        cr <- lift (truediv a v v0) ;;
        put_instance i
          (assign (rest_values cr max_dd vol_val sharpe_val beta_val alpha_val) o2)
    | None =>
        cr <- lift (truediv a v v0) ;;
        analytics <- lift (AnalyticsDaily.new date_only
          (head_values v return_val
           ++ rest_values cr max_dd vol_val sharpe_val beta_val alpha_val)) ;;
        db_add analytics
    end.

Definition _recompute_analytics_from_date (start_date : Z) : M unit :=
  round_trip SelectEquity ;;;
  equity_data <- gets (equity_data_of start_date) ;;
  match equity_data with
  | [] => logger WARNING "No equity data found for analytics computation"
  | _ :: _ =>
      let daily_equity := daily_equity_of equity_data in
      if List.length daily_equity <? 2 then
        logger WARNING "Insufficient data for analytics computation"
      else
        let daily_returns := compute_daily_returns lib daily_equity in
        let max_dd := compute_max_drawdown lib daily_equity in
        let rolling_vol := compute_rolling_volatility lib daily_returns 20 in
        let rolling_sharpe := compute_rolling_sharpe lib daily_returns 60 in
        spy_data <- _get_benchmark_returns "SPY" start_date ;;
        let nulls := (none_series daily_returns, none_series daily_returns) in
        let beta_alpha :=
          match spy_data with
          | Some spy =>
              if 60 <=? List.length spy then
                let aligned := aligned_frame daily_returns spy in
                if 60 <=? List.length aligned then
                  compute_beta_alpha lib (column_portfolio aligned)
                                     (column_benchmark aligned) 60
                else nulls
              else nulls
          | None => nulls
          end in
        let v0 := match daily_equity with p :: _ => snd p | [] => 0%Q end in
        for_each (store_day start_date daily_returns rolling_vol rolling_sharpe
                            (fst beta_alpha) (snd beta_alpha) max_dd v0)
                 (combine (seq 0 (List.length daily_equity)) daily_equity) ;;;
        db_commit ;;;
        logger INFO "Analytics updated"
  end.

(** The [try] block of [recompute_from_event]. *)
Definition recompute_from_event_try (event_time : Z) : M unit :=
  logger INFO "Processing event" ;;;
  let event_date := date_of event_time in
  _recompute_analytics_from_date event_date ;;;
  logger INFO "Successfully processed event".

(** One execution of the task, [retries] being [self.request.retries]
    and [fault] the fault plan of the session it opens. *)
Definition recompute_from_event (retries : nat) (fault : option nat)
    (event_type : string) (instrument_id : option string) (event_time : Z)
    (s : State) : outcome * State :=
  let db := SessionLocal fault s in
  match recompute_from_event_try event_time db with
  | (inr _, db') => (Returned, db_close db')
  | (inl e, db') =>
      match logger ERROR "Error processing event" db' with
      | (_, db'') =>
          (self_retry retries e (2 ^ retries), db_close (db_rollback db''))
      end
  end.

Definition earliest_time (l : list EquityCurve.t) : option Z :=
  match order_by EquityCurve.time l with
  | [] => None
  | e :: _ => Some (EquityCurve.time e)
  end.

(** The [try] block of [recompute_all_analytics]. *)
Definition recompute_all_analytics_try : M unit :=
  logger INFO "Starting full analytics recomputation" ;;;
  round_trip SelectEarliestEquity ;;;
  earliest <- gets (fun s => earliest_time (equity_curve s)) ;;
  match earliest with
  | None => logger INFO "No equity data found, nothing to compute"
  | Some t =>
      _recompute_analytics_from_date (date_of t) ;;;
      logger INFO "Full analytics recomputation complete"
  end.

Definition recompute_all_analytics (fault : option nat) (s : State)
  : outcome * State :=
  let db := SessionLocal fault s in
  match recompute_all_analytics_try db with
  | (inr _, db') => (Returned, db_close db')
  | (inl e, db') =>
      match logger ERROR "Error in full recomputation" db' with
      | (_, db'') => (Returned, db_close (db_rollback db''))
      end
  end.

(** [fetch_multiple_symbols] of [data_fetcher.py] reaches the market
    data service; the task is modelled over any behaviour of it. *)
Variable fetch_multiple_symbols : M unit.

(** The [try] block of [update_benchmarks_daily]. *)
Definition update_benchmarks_daily_try : M unit :=
  logger INFO "Updating benchmarks" ;;;
  fetch_multiple_symbols ;;;
  logger INFO "Benchmark update results".

Definition update_benchmarks_daily (fault : option nat) (s : State)
  : outcome * State :=
  let db := SessionLocal fault s in
  match update_benchmarks_daily_try db with
  | (inr _, db') => (Returned, db_close db')
  | (inl e, db') =>
      match logger ERROR "Error updating benchmarks" db' with
      | (_, db'') => (Returned, db_close (db_rollback db''))
      end
  end.

End Tasks.

(** ** The worker and the webhook route *)

(** What became of one task message: how often the body ran, the
    countdowns of the retries that were scheduled, and how the last
    execution ended. *)
Record delivery : Type := {
  attempts : nat;
  countdowns : list nat;
  final : outcome
}.

(** A task body as the worker sees it: the retry count of the request
    and the fault plan of the execution are given to it. *)
Definition task_body : Type := nat -> option nat -> State -> outcome * State.

(** The worker executes the body; a requested retry sends the message
    again with the retry count raised by one, any other end settles it.
    [plan k] is the fault plan of the execution with retry count [k]. *)
Fixpoint deliver (fuel : nat) (body : task_body) (plan : nat -> option nat)
    (retries : nat) (s : State) : option (delivery * State) :=
  match fuel with
  | O => None
  | S fuel' =>
      match body retries (plan retries) s with
      | (RetryRequested c, s') =>
          match deliver fuel' body plan (S retries) s' with
          | Some (d, s'') =>
              Some ({| attempts := S (attempts d);
                       countdowns := c :: countdowns d;
                       final := final d |}, s'')
          | None => None
          end
      | (o, s') => Some ({| attempts := 1; countdowns := []; final := o |}, s')
      end
  end.

(** The webhook payloads that [ingest_webhook] accepts. *)
Inductive event : Type :=
| TradeEvent (symbol : string) (time : Z)
| PositionEvent (symbol : string) (time : Z)
| EquityEvent (time : Z) (equity : Q).

Definition event_type (ev : event) : string :=
  match ev with
  | TradeEvent _ _ => "trade"
  | PositionEvent _ _ => "position"
  | EquityEvent _ _ => "equity"
  end.

Definition event_time (ev : event) : Z :=
  match ev with
  | TradeEvent _ t => t
  | PositionEvent _ t => t
  | EquityEvent t _ => t
  end.

(** The arguments of a queued [recompute_from_event] message. *)
Definition message : Type := (string * Z)%type.

Record System : Type := {
  store : State;
  queue : list message
}.

(** The handlers of trade and position events create the instrument
    of an unknown symbol; their other writes go to tables the engine
    does not read. *)
Definition upsert_instrument (sym : string) (s : State) : State :=
  if existsb (fun i => String.eqb (Instrument.symbol i) sym) (instruments s) then s
  else
    {| equity_curve := equity_curve s;
       instruments := instruments s
                      ++ [{| Instrument.id :=
                               fold_left (fun m i => Z.max m (Instrument.id i + 1))
                                         (instruments s) 1%Z;
                             Instrument.symbol := sym |}];
       ohlc_daily := ohlc_daily s; analytics_daily := analytics_daily s;
       session := session s; log := log s; trace := trace s; faults := faults s |}.

(** [ingest_webhook], as far as the engine is concerned and with store
    and broker reachable: an equity event adds its snapshot to
    [equity_curve], the transaction is committed and the recomputation
    is sent to the queue; the route answers without waiting for any
    task. *)
Definition ingest_webhook (ev : event) (sys : System) : string * System :=
  let s := store sys in
  let s' :=
    match ev with
    | EquityEvent t v =>
        {| equity_curve := equity_curve s
                           ++ [{| EquityCurve.time := t; EquityCurve.equity := v |}];
           instruments := instruments s; ohlc_daily := ohlc_daily s;
           analytics_daily := analytics_daily s; session := session s;
           log := log s; trace := trace s; faults := faults s |}
    | TradeEvent sym _ | PositionEvent sym _ => upsert_instrument sym s
    end in
  ("queued",
   {| store := with_log (log s' ++ [(INFO, "Webhook ingested")]) s';
      queue := queue sys ++ [(event_type ev, event_time ev)] |}).

(** The worker takes the oldest message off the queue and delivers it;
    however the delivery ends, the message is gone from the queue. *)
Definition work (a : arith) (lib : core_analytics) (plan : nat -> option nat)
    (sys : System) : option (delivery * System) :=
  match queue sys with
  | [] => None
  | (ty, t) :: rest =>
      match deliver (S (S max_retries))
                    (fun retries fault => recompute_from_event a lib retries fault ty None t)
                    plan 0 (store sys) with
      | Some (d, s') => Some (d, {| store := s'; queue := rest |})
      | None => None
      end
  end.

(** ** The return and risk functions, from the specification *)

Module Spec.

Local Open Scope Q_scope.

Definition sum (xs : list Q) : Q := fold_right Qplus 0 xs.

Definition count (xs : list Q) : Q := inject_Z (Z.of_nat (List.length xs)).

Definition mean (xs : list Q) : Q := sum xs / count xs.

Definition Qmax (x y : Q) : Q := if Qle_bool x y then y else x.

Definition Qmin (x y : Q) : Q := if Qle_bool x y then x else y.

(** Modelled from the spec: [dailyReturns] of the missing
    [core/analytics.py] (section 4.1): 0 at index 0, then
    [(v[i] - v[i-1]) / v[i-1]], null where [v[i-1]] is 0. *)
Fixpoint returns_from (prev : Q) (vs : list Q) : list (option Q) :=
  match vs with
  | [] => []
  | v :: rest =>
      (if is_zero prev then None else Some ((v - prev) / prev)) :: returns_from v rest
  end.

Definition dailyReturns (vs : list Q) : list (option Q) :=
  match vs with
  | [] => []
  | v :: rest => Some 0 :: returns_from v rest
  end.

(** The running peak: the largest value up to and including each
    index. *)
Fixpoint peaks_from (p : Q) (vs : list Q) : list Q :=
  match vs with
  | [] => []
  | v :: rest => Qmax p v :: peaks_from (Qmax p v) rest
  end.

Definition peaks (vs : list Q) : list Q :=
  match vs with
  | [] => []
  | v :: rest => v :: peaks_from v rest
  end.

(** The decline of [v] from the peak [p]; undefined at a zero peak. *)
Definition decline (p v : Q) : option Q :=
  if is_zero p then None else Some ((v - p) / p).

Fixpoint min_defined (ds : list (option Q)) : option Q :=
  match ds with
  | [] => None
  | d :: rest =>
      match d, min_defined rest with
      | Some x, Some m => Some (Qmin x m)
      | Some x, None => Some x
      | None, m => m
      end
  end.

Definition declines (vs : list Q) : list (option Q) :=
  map (fun pv => decline (fst pv) (snd pv)) (combine (peaks vs) vs).

(** Modelled from the spec: [maxDrawdown] of the missing
    [core/analytics.py] (section 4.1): with the running peak [p], the
    minimum of [(v[i] - p) / p] over the whole series; 0 when no
    decline is defined. *)
Definition maxDrawdown (vs : list Q) : Q :=
  match min_defined (declines vs) with
  | Some m => m
  | None => 0
  end.

(** The largest of the first [i + 1] values, stated without the scan. *)
Definition prefix_max (vs : list Q) (i : nat) : Q :=
  match firstn (S i) vs with
  | [] => 0
  | v :: rest => fold_left Qmax rest v
  end.

Fixpoint nondecreasing_from (prev : Q) (vs : list Q) : Prop :=
  match vs with
  | [] => True
  | v :: rest => prev <= v /\ nondecreasing_from v rest
  end.

Definition nondecreasing (vs : list Q) : Prop :=
  match vs with
  | [] => True
  | v :: rest => nondecreasing_from v rest
  end.

Section Rolling.

(** The square root of the floating-point library. *)
Variable sqrtQ : Q -> Q.

(** The [w] most recent observations up to and including index [i];
    none while fewer than [w] exist. *)
Definition window (xs : list Q) (w i : nat) : option (list Q) :=
  if (w <=? i + 1)%nat then Some (firstn w (skipn (i + 1 - w) xs)) else None.

Definition rolling {A : Type} (f : list Q -> option A) (xs : list Q) (w : nat)
  : list (option A) :=
  map (fun i => match window xs w i with
                | Some ws => f ws
                | None => None
                end) (seq 0 (List.length xs)).

(** Sample variance (ddof = 1); undefined below two observations. *)
Definition variance (xs : list Q) : option Q :=
  if (List.length xs <? 2)%nat then None
  else
    let m := mean xs in
    Some (sum (map (fun x => (x - m) * (x - m)) xs) / (count xs - 1)).

Definition stdev (xs : list Q) : option Q := option_map sqrtQ (variance xs).

(** Modelled from the spec: [rollingVolatility] of the missing
    [core/analytics.py] (section 4.1): the sample standard deviation
    of the trailing window, times [sqrt(252)] when annualized. *)
Definition rollingVolatility (xs : list Q) (w : nat) (annualize : bool)
  : list (option Q) :=
  rolling (fun ws => option_map (fun sd => if annualize then sd * sqrtQ 252 else sd)
                                (stdev ws)) xs w.

Definition excess (riskFreeRate : Q) (ws : list Q) : list Q :=
  map (fun r => r - riskFreeRate / 252) ws.

Definition sharpe_of (riskFreeRate : Q) (ws : list Q) : option Q :=
  match stdev (excess riskFreeRate ws) with
  | Some sd =>
      if is_zero sd then None
      else Some (mean (excess riskFreeRate ws) / sd * sqrtQ 252)
  | None => None
  end.

(** Modelled from the spec: [rollingSharpe] of the missing
    [core/analytics.py] (section 4.1): over each trailing window,
    [mean(excess) / stdev(excess) * sqrt(252)]; null when the
    deviation is 0 or the history too short. *)
Definition rollingSharpe (xs : list Q) (w : nat) (riskFreeRate : Q)
  : list (option Q) :=
  rolling (sharpe_of riskFreeRate) xs w.

Definition covariance (ps : list (Q * Q)) : option Q :=
  if (List.length ps <? 2)%nat then None
  else
    let mp := mean (map fst ps) in
    let mb := mean (map snd ps) in
    Some (sum (map (fun pb => (fst pb - mp) * (snd pb - mb)) ps)
          / (count (map fst ps) - 1)).

Definition beta_alpha_of (ps : list (Q * Q)) : option (Q * Q) :=
  match covariance ps, variance (map snd ps) with
  | Some c, Some vb =>
      if is_zero vb then None
      else
        let beta := c / vb in
        Some (beta, (mean (map fst ps) - beta * mean (map snd ps)) * 252)
  | _, _ => None
  end.

(** Modelled from the spec: [rollingBetaAlpha] of the missing
    [core/analytics.py] (section 4.1), on series aligned
    beforehand. *)
Definition rollingBetaAlpha (ps : list (Q * Q)) (w : nat)
  : list (option (Q * Q)) :=
  map (fun i => if (w <=? i + 1)%nat
                then beta_alpha_of (firstn w (skipn (i + 1 - w) ps))
                else None) (seq 0 (List.length ps)).

End Rolling.

(** The assertions of [test_compute_rolling_volatility] on a result. *)
Definition test_compute_rolling_volatility (vol : list (option Q)) : bool :=
  (List.length vol =? 100)%nat
  && match last vol None with Some x => negb (Qle_bool x 0) | None => false end
  && negb (forallb (fun c => match c with None => true | Some _ => false end)
                   (firstn 19 vol)).

End Spec.

(** ** An implementation of [core.analytics] to run the tasks with *)

Module Reference.

Local Open Scope Q_scope.

(** Square root to six decimals. *)
Definition sqrt6 (q : Q) : Q :=
  inject_Z (Z.sqrt (Qfloor (q * 1000000000000))) / 1000000.

Definition finite (c : cell) : option Q :=
  match c with Some (Fin q) => Some q | _ => None end.

Fixpoint all_defined (cs : list (option Q)) : option (list Q) :=
  match cs with
  | [] => Some []
  | Some q :: rest => option_map (cons q) (all_defined rest)
  | None :: _ => None
  end.

(** A window that holds a null cell gives a null result. *)
Definition rolling_cells {A : Type} (f : list Q -> option A) (cs : list (option Q))
    (w : nat) : list (option A) :=
  map (fun i => if (w <=? i + 1)%nat
                then match all_defined (firstn w (skipn (i + 1 - w) cs)) with
                     | Some ws => f ws
                     | None => None
                     end
                else None) (seq 0 (List.length cs)).

Definition on_index {A : Type} (s : list (Z * A)) (cs : list (option Q)) : Series :=
  combine (map fst s) (map (option_map Fin) cs).

Definition daily_returns (e : list (Z * Q)) : Series :=
  on_index e (Spec.dailyReturns (map snd e)).

Definition max_drawdown (e : list (Z * Q)) : cell :=
  Some (Fin (Spec.maxDrawdown (map snd e))).

Definition rolling_volatility (r : Series) (w : nat) : Series :=
  on_index r
    (rolling_cells (fun ws => option_map (fun sd => sd * sqrt6 252) (Spec.stdev sqrt6 ws))
                   (map (fun p => finite (snd p)) r) w).

Definition rolling_sharpe (r : Series) (w : nat) : Series :=
  on_index r (rolling_cells (Spec.sharpe_of sqrt6 0) (map (fun p => finite (snd p)) r) w).

Definition beta_alpha (p b : Series) (w : nat) : Series * Series :=
  let ps := map (fun pb => match finite (snd (fst pb)), finite (snd (snd pb)) with
                           | Some x, Some y => (x, y)
                           | _, _ => (0, 0)
                           end) (combine p b) in
  let r := Spec.rollingBetaAlpha ps w in
  (on_index p (map (option_map fst) r), on_index p (map (option_map snd) r)).

Definition analytics : core_analytics :=
  {| compute_daily_returns := daily_returns;
     compute_max_drawdown := max_drawdown;
     compute_rolling_volatility := rolling_volatility;
     compute_rolling_sharpe := rolling_sharpe;
     compute_beta_alpha := beta_alpha |}.

(** A fetch that finds the service down. *)
Definition fetch_down : M unit := raise FetchError.

End Reference.

(** ** Sample stores *)

Module Sample.

Local Open Scope Z_scope.

Definition snapshot (t : Z) (v : Q) : EquityCurve.t :=
  {| EquityCurve.time := t; EquityCurve.equity := v |}.

Definition record (i d : Z) (stale : cell) : AnalyticsDaily.t :=
  {| AnalyticsDaily.id := Some i; AnalyticsDaily.date := d;
     AnalyticsDaily.return_pct := stale; AnalyticsDaily.cum_return := stale;
     AnalyticsDaily.drawdown := stale; AnalyticsDaily.volatility_20d := stale;
     AnalyticsDaily.sharpe_60d := stale; AnalyticsDaily.beta_spy_60d := stale;
     AnalyticsDaily.alpha_spy_60d := stale |}.

Definition state (eq : list EquityCurve.t) (rows : list AnalyticsDaily.t) : State :=
  {| equity_curve := eq; instruments := []; ohlc_daily := [];
     analytics_daily := rows; session := []; log := []; trace := []; faults := None |}.

(** Three days of equity, 100, 110 and 121, with a noon snapshot on
    the second day that the close of the day supersedes. *)
Definition three_days : list EquityCurve.t :=
  [snapshot 0 100; snapshot (86400 + 43200) 105; snapshot (86400 + 72000) 110;
   snapshot (2 * 86400) 121].

(** Records of an earlier pass for the second and third day. *)
Definition half : cell := Some (Fin (1 # 2)).

Definition recorded : State :=
  state three_days [record 1 1 half; record 2 2 half].

(** The same history with no analytics record yet. *)
Definition unrecorded : State := state three_days [].

(** An account that holds nothing on its first two days. *)
Definition empty_account : State :=
  state [snapshot 0 0; snapshot 86400 0] [record 1 0 None; record 2 1 None].

End Sample.

(** * The market-data fetcher of [data_fetcher.py] *)

Module Fetcher.

(** What the fetcher, the session it is given and the market-data
    service can raise. *)
Inductive error : Type :=
| TypeError (keyword : string)      (* invalid keyword argument *)
| ValueError                        (* int() of a not-a-number *)
| OverflowError                     (* int() of an infinity *)
| MultipleResultsFound              (* scalar_one_or_none on several rows *)
| OperationalError                  (* the store could not be reached *)
| IntegrityError                    (* a unique constraint was violated *)
| DataError                         (* a value its column does not take *)
| HistoryError.                     (* the market-data service raised *)

(** One round trip to the data store, one call of the market-data
    service, or one pause. *)
Inductive op : Type :=
| SelectInstrument (symbol : string)
| SelectBar (instrument_id date : Z)
| SelectLatest (instrument_id : Z)
| Flush
| Commit
| Rollback
| History (symbol : string) (start stop : Z)
| Sleep.

(** A row of [ohlc_daily]: the mapped columns of [OHLCDaily]. *)
Record bar : Type := {
  id : option Z;
  instrument_id : Z;
  date : Z;
  open : num;
  high : num;
  low : num;
  close : num;
  adj_close : option num;
  volume : option Z
}.

(** An [OHLCDaily] object held by the session, and whether its row is
    in the table already or waits for the flush. *)
Record instance : Type := {
  row : bar;
  persistent : bool
}.

Definition loaded (b : bar) : instance := {| row := b; persistent := true |}.

(** A row of the frame [ticker.history] returns, [trade_date] being the
    date of its index. *)
Record frame_row : Type := {
  trade_date : Z;
  Open : num;
  High : num;
  Low : num;
  Close : num;
  Volume : num
}.

(** [int(x)] of a float: truncation, which a not-a-number and the
    infinities do not have. *)
Definition int (x : num) : error + Z :=
  match x with
  | Fin q => inr (Z.quot (Qnum q) (Zpos (Qden q)))
  | NaN => inl ValueError
  | PosInf | NegInf => inl OverflowError
  end.

(** The attributes of class [Instrument]: its columns, those of its
    mixins, its relationships and what the class body and the
    declarative base define. *)
Definition instrument_attributes : list string :=
  ["id"; "created_at"; "updated_at"; "symbol"; "name"; "asset_class"; "tick_size";
   "multiplier"; "trades"; "positions"; "ohlc_data";
   "__tablename__"; "__table_args__"; "__repr__"; "metadata"; "registry"].

(** The constructor of the declarative base on [Instrument]: every
    keyword must name an attribute of the class, else it raises
    [TypeError]; the accepted ones are assigned in order. *)
Fixpoint init_instrument (kwargs assigned : list (string * string))
  : error + list (string * string) :=
  match kwargs with
  | [] => inr assigned
  | (k, v) :: rest =>
      if AnalyticsDaily.mem k instrument_attributes
      then init_instrument rest (assigned ++ [(k, v)])
      else inl (TypeError k)
  end.

Definition attribute (k : string) (assigned : list (string * string)) : string :=
  match find (fun kv => String.eqb (fst kv) k) (rev assigned) with
  | Some kv => snd kv
  | None => ""
  end.

(** The committed tables, the instruments as the open transaction sees
    them, the [OHLCDaily] objects of the session, the log, the trace of
    round trips and calls, and the fault plan of the store: [Some n]
    lets [n] more round trips through and fails the next one. *)
Record Store : Type := {
  instruments : list Instrument.t;
  ohlc_daily : list bar;
  tx_instruments : list Instrument.t;
  session : list instance;
  log : list log_record;
  trace : list op;
  faults : option nat
}.

Definition with_tx_instruments (l : list Instrument.t) (s : Store) : Store :=
  {| instruments := instruments s; ohlc_daily := ohlc_daily s; tx_instruments := l;
     session := session s; log := log s; trace := trace s; faults := faults s |}.

Definition with_session (os : list instance) (s : Store) : Store :=
  {| instruments := instruments s; ohlc_daily := ohlc_daily s;
     tx_instruments := tx_instruments s; session := os; log := log s;
     trace := trace s; faults := faults s |}.

Definition with_log (l : list log_record) (s : Store) : Store :=
  {| instruments := instruments s; ohlc_daily := ohlc_daily s;
     tx_instruments := tx_instruments s; session := session s; log := l;
     trace := trace s; faults := faults s |}.

Definition with_trace (t : list op) (s : Store) : Store :=
  {| instruments := instruments s; ohlc_daily := ohlc_daily s;
     tx_instruments := tx_instruments s; session := session s; log := log s;
     trace := t; faults := faults s |}.

Definition with_faults (f : option nat) (s : Store) : Store :=
  {| instruments := instruments s; ohlc_daily := ohlc_daily s;
     tx_instruments := tx_instruments s; session := session s; log := log s;
     trace := trace s; faults := f |}.

(** Computations that read and change the store and may raise. *)
Definition F (A : Type) : Type := Store -> (error + A) * Store.

Definition ret {A : Type} (a : A) : F A := fun s => (inr a, s).

Definition raise {A : Type} (e : error) : F A := fun s => (inl e, s).

Definition bind {A B : Type} (m : F A) (k : A -> F B) : F B :=
  fun s =>
    match m s with
    | (inr a, s') => k a s'
    | (inl e, s') => (inl e, s')
    end.

Declare Scope fetcher_scope.
Notation "x <- m ;; k" := (bind m (fun x => k))
  (at level 61, m at next level, right associativity) : fetcher_scope.
Notation "m ;;; k" := (bind m (fun _ => k))
  (at level 61, right associativity) : fetcher_scope.
Local Open Scope fetcher_scope.

(** [try: m except Exception as e: handler] *)
Definition try_except {A : Type} (m : F A) (handler : error -> F A) : F A :=
  fun s =>
    match m s with
    | (inr a, s') => (inr a, s')
    | (inl e, s') => handler e s'
    end.

Definition lift {A : Type} (r : error + A) : F A :=
  match r with inl e => raise e | inr a => ret a end.

Definition gets {A : Type} (f : Store -> A) : F A := fun s => (inr (f s), s).

Definition modify (f : Store -> Store) : F unit := fun s => (inr tt, f s).

Definition logger (lv : level) (msg : string) : F unit :=
  modify (fun s => with_log (log s ++ [(lv, msg)]) s).

Definition record (o : op) : F unit :=
  modify (fun s => with_trace (trace s ++ [o]) s).

(** A round trip to the store: recorded, and failed when the fault plan
    says so. *)
Definition round_trip (o : op) : F unit :=
  fun s =>
    let s1 := with_trace (trace s ++ [o]) s in
    match faults s with
    | Some O => (inl OperationalError, with_faults None s1)
    | Some (S n) => (inr tt, with_faults (Some n) s1)
    | None => (inr tt, s1)
    end.

(** [scalar_one_or_none()] *)
Definition scalar_one_or_none {A : Type} (rows : list A) : error + option A :=
  match rows with
  | [] => inr None
  | [r] => inr (Some r)
  | _ => inl MultipleResultsFound
  end.

(** [SessionLocal()]: a new session; nothing is pending in it. *)
Definition SessionLocal (fault : option nat) (s : Store) : Store :=
  with_faults fault
    (with_session (map loaded (ohlc_daily s)) (with_tx_instruments (instruments s) s)).

(** [db.close()] *)
Definition db_close (s : Store) : Store :=
  with_faults None (with_session [] (with_tx_instruments (instruments s) s)).

(** [db.rollback()]: the pending changes are dropped and the objects of
    the session are as the table has them. *)
Definition db_rollback : F unit :=
  modify (fun s =>
    with_trace (trace s ++ [Rollback])
      (with_session (map loaded (ohlc_daily s)) (with_tx_instruments (instruments s) s))).

(** [db.execute(select(Instrument).where(Instrument.symbol == symbol))
       .scalar_one_or_none()] *)
Definition select_instrument (symbol : string) : F (option Instrument.t) :=
  round_trip (SelectInstrument symbol) ;;;
  found <- gets (fun s => filter (fun i => String.eqb (Instrument.symbol i) symbol)
                                 (tx_instruments s)) ;;
  lift (scalar_one_or_none found).

Definition fresh_id (l : list Instrument.t) : Z :=
  fold_left (fun m i => Z.max m (Instrument.id i + 1)) l 1%Z.

(** [db.add(instrument); db.flush()]: the row is inserted in the open
    transaction under a new id. *)
Definition db_add_flush (assigned : list (string * string)) : F Instrument.t :=
  round_trip Flush ;;;
  l <- gets tx_instruments ;;
  let i := {| Instrument.id := fresh_id l;
              Instrument.symbol := attribute "symbol" assigned |} in
  modify (with_tx_instruments (l ++ [i])) ;;;
  ret i.

Definition on_key (iid d : Z) (io : nat * instance) : bool :=
  persistent (snd io)
  && (instrument_id (row (snd io)) =? iid)%Z && (date (row (snd io)) =? d)%Z.

(** The objects that the query for the bar of instrument [iid] on day
    [d] finds, with their positions in the session. *)
Definition matches (iid d : Z) (os : list instance) : list (nat * instance) :=
  filter (on_key iid d) (combine (seq 0 (List.length os)) os).

(** [db.execute(select(OHLCDaily).where(OHLCDaily.instrument_id == iid,
       OHLCDaily.date == d)).scalar_one_or_none()] *)
Definition select_bar (iid d : Z) : F (option (nat * instance)) :=
  round_trip (SelectBar iid d) ;;;
  found <- gets (fun s => matches iid d (session s)) ;;
  lift (scalar_one_or_none found).

Definition put_instance (i : nat) (o : instance) : F unit :=
  modify (fun s => with_session (replace_nth i o (session s)) s).

Definition db_add (o : instance) : F unit :=
  modify (fun s => with_session (session s ++ [o]) s).

(** The four price assignments of the update branch. *)
Definition set_prices (r : frame_row) (o : instance) : instance :=
  {| row := {| id := id (row o); instrument_id := instrument_id (row o);
               date := date (row o);
               open := Open r; high := High r; low := Low r; close := Close r;
               adj_close := adj_close (row o); volume := volume (row o) |};
     persistent := persistent o |}.

Definition set_volume (v : Z) (o : instance) : instance :=
  {| row := {| id := id (row o); instrument_id := instrument_id (row o);
               date := date (row o);
               open := open (row o); high := high (row o); low := low (row o);
               close := close (row o);
               adj_close := adj_close (row o); volume := Some v |};
     persistent := persistent o |}.

(** [OHLCDaily(instrument_id=..., date=..., open=..., high=..., low=...,
    close=..., volume=...)]: every keyword is a column. *)
Definition new_bar (iid : Z) (r : frame_row) (v : Z) : instance :=
  {| row := {| id := None; instrument_id := iid; date := trade_date r;
               open := Open r; high := High r; low := Low r; close := Close r;
               adj_close := None; volume := Some v |};
     persistent := false |}.

Definition key_eqb (b b' : bar) : bool :=
  (instrument_id b =? instrument_id b')%Z && (date b =? date b')%Z.

(** No two rows share [instrument_id] and [date]. *)
Fixpoint distinct_keys (l : list bar) : bool :=
  match l with
  | [] => true
  | b :: rest => negb (existsb (key_eqb b) rest) && distinct_keys rest
  end.

Definition next_id (rows : list bar) : Z :=
  fold_left (fun m b => match id b with
                        | Some i => Z.max m (i + 1)
                        | None => m
                        end) rows 1%Z.

(** The flush inserts the rows that were added, each with the next value
    of the id sequence; rows already in the table keep their id. *)
Fixpoint assign_ids (next : Z) (os : list instance) : list instance :=
  match os with
  | [] => []
  | o :: rest =>
      if persistent o then o :: assign_ids next rest
      else
        {| row := {| id := Some next; instrument_id := instrument_id (row o);
                     date := date (row o);
                     open := open (row o); high := high (row o); low := low (row o);
                     close := close (row o);
                     adj_close := adj_close (row o); volume := volume (row o) |};
           persistent := true |} :: assign_ids (next + 1) rest
  end.

Section Fetching.

(** [yf.Ticker(symbol).history(start=..., end=...)]: the frame the
    service returns, or its failure. *)
Variable history : string -> Z -> Z -> error + list frame_row.

(** The values a [Numeric(12, 4)] column of the store takes. *)
Variable numeric_12_4 : num -> bool.

(** [date.today()] *)
Variable today : Z.

(** The range of a [BigInteger] column. *)
Definition big_integer (v : option Z) : bool :=
  match v with
  | Some z => (- 2 ^ 63 <=? z)%Z && (z <? 2 ^ 63)%Z
  | None => true
  end.

(** The row can be written; those of the table can. *)
Definition storable (b : bar) : bool :=
  numeric_12_4 (open b) && numeric_12_4 (high b) && numeric_12_4 (low b)
  && numeric_12_4 (close b) && big_integer (volume b).

(** [db.commit()]: one round trip that writes every pending change of
    the transaction or, when the unique constraint or a column rejects
    the flush, none. *)
Definition db_commit : F unit :=
  round_trip Commit ;;;
  os <- gets session ;;
  if negb (forallb storable (map row os)) then raise DataError
  else if negb (distinct_keys (map row os)) then raise IntegrityError
  else
    modify (fun s =>
      let os' := assign_ids (next_id (ohlc_daily s)) os in
      {| instruments := tx_instruments s; ohlc_daily := map row os';
         tx_instruments := tx_instruments s; session := os'; log := log s;
         trace := trace s; faults := faults s |}).

(** The body of the loop over [df.iterrows()]. *)
Definition store_row (instrument : Instrument.t) (r : frame_row) : F unit :=
  existing <- select_bar (Instrument.id instrument) (trade_date r) ;;
  match existing with
  | Some (i, o) =>
      put_instance i (set_prices r o) ;;;
      v <- lift (int (Volume r)) ;;
      put_instance i (set_volume v (set_prices r o))
  | None =>
      v <- lift (int (Volume r)) ;;
      db_add (new_bar (Instrument.id instrument) r v)
  end.

Fixpoint store_rows (instrument : Instrument.t) (df : list frame_row)
    (records_updated : nat) : F nat :=
  match df with
  | [] => ret records_updated
  | r :: rest =>
      store_row instrument r ;;;
      store_rows instrument rest (records_updated + 1)
  end.

(** The [try] block of [fetch_and_store_ohlc]. *)
Definition fetch_and_store_ohlc_try (symbol : string) (start_date end_date : option Z)
    (days_back : Z) : F nat :=
  found <- select_instrument symbol ;;
  instrument <-
    match found with
    | Some i => ret i
    | None =>
        assigned <- lift (init_instrument [("symbol", symbol); ("name", symbol);
                                           ("asset_type", "stock"); ("exchange", "US")]
                                          []) ;;
        db_add_flush assigned
    end ;;
  let start_date := match start_date with Some d => d | None => (today - days_back)%Z end in
  let end_date := match end_date with Some d => d | None => today end in
  logger INFO "Fetching data" ;;;
  record (History symbol start_date (end_date + 1)) ;;;
  df <- lift (history symbol start_date (end_date + 1)) ;;
  match df with
  | [] => logger WARNING "No data returned" ;;; ret 0
  | _ :: _ =>
      records_updated <- store_rows instrument df 0 ;;
      db_commit ;;;
      logger INFO "Updated OHLC records" ;;;
      ret records_updated
  end.

Definition fetch_and_store_ohlc (symbol : string) (start_date end_date : option Z)
    (days_back : Z) : F nat :=
  try_except (fetch_and_store_ohlc_try symbol start_date end_date days_back)
    (fun _ => logger ERROR "Error fetching data" ;;; db_rollback ;;; ret 0).

(** [results[symbol] = count] on a dict, which keeps the place of a key
    it has already. *)
Definition dict_set (k : string) (v : nat) (d : list (string * nat))
  : list (string * nat) :=
  if existsb (fun kv => String.eqb (fst kv) k) d
  then map (fun kv => if String.eqb (fst kv) k then (k, v) else kv) d
  else d ++ [(k, v)].

(** The loop of [fetch_multiple_symbols], [last_symbol] being
    [symbols[-1]]. *)
Fixpoint fetch_each (start_date end_date : option Z) (delay_seconds : Q)
    (last_symbol : string) (symbols : list string) (results : list (string * nat))
  : F (list (string * nat)) :=
  match symbols with
  | [] => ret results
  | symbol :: rest =>
      results' <-
        try_except
          (count <- fetch_and_store_ohlc symbol start_date end_date 5 ;;
           let results := dict_set symbol count results in
           (if negb (Qle_bool delay_seconds 0) && negb (String.eqb symbol last_symbol)
            then record Sleep else ret tt) ;;;
           ret results)
          (fun _ => logger ERROR "Failed to fetch" ;;; ret (dict_set symbol 0 results)) ;;
      fetch_each start_date end_date delay_seconds last_symbol rest results'
  end.

Definition fetch_multiple_symbols (symbols : list string) (start_date end_date : option Z)
    (delay_seconds : Q) : F (list (string * nat)) :=
  fetch_each start_date end_date delay_seconds (last symbols "") symbols [].

(** [.order_by(OHLCDaily.date.desc()).limit(1).scalar_one_or_none()] *)
Definition latest (dates : list Z) : option Z :=
  match dates with
  | [] => None
  | d :: rest => Some (fold_left Z.max rest d)
  end.

Definition get_latest_ohlc_date (symbol : string) : F (option Z) :=
  found <- select_instrument symbol ;;
  match found with
  | None => ret None
  | Some i =>
      round_trip (SelectLatest (Instrument.id i)) ;;;
      gets (fun s =>
        latest (map (fun o => date (row o))
                    (filter (fun o => persistent o
                                      && (instrument_id (row o) =? Instrument.id i)%Z)
                            (session s))))
  end.

Definition backfill_missing_data (symbol : string) (target_start_date : Z)
    (max_days_per_request : Z) : F nat :=
  latest_date <- get_latest_ohlc_date symbol ;;
  if match latest_date with
     | Some l => (target_start_date <=? l)%Z
     | None => false
     end
  then logger INFO "data is up to date" ;;; ret 0
  else
    logger INFO "Backfilling" ;;;
    fetch_and_store_ohlc symbol (Some target_start_date) (Some today) 5.

(** The task [backfill_benchmark_data] of [tasks.py]. *)
Definition backfill_benchmark_data_try (symbol : string) (days_back : Z) : F unit :=
  let start_date := (today - days_back)%Z in
  logger INFO "Backfilling" ;;;
  fetch_and_store_ohlc symbol (Some start_date) (Some today) 5 ;;;
  logger INFO "Backfilled records".

Definition backfill_benchmark_data (fault : option nat) (symbol : string) (days_back : Z)
    (s : Store) : Store :=
  match try_except (backfill_benchmark_data_try symbol days_back)
          (fun _ => logger ERROR "Error backfilling" ;;; db_rollback)
          (SessionLocal fault s) with
  | (_, db') => db_close db'
  end.

(** The task [update_benchmarks_daily] of [tasks.py] with the fetcher
    in place, [benchmarks] being the symbols of the environment. *)
Definition update_benchmarks_daily_try (benchmarks : list string) : F unit :=
  logger INFO "Updating benchmarks" ;;;
  let yesterday := (today - 1)%Z in
  fetch_multiple_symbols benchmarks (Some yesterday) (Some yesterday) (1 # 2) ;;;
  logger INFO "Benchmark update results".

Definition update_benchmarks_daily (fault : option nat) (benchmarks : list string)
    (s : Store) : Store :=
  match try_except (update_benchmarks_daily_try benchmarks)
          (fun _ => logger ERROR "Error updating benchmarks" ;;; db_rollback)
          (SessionLocal fault s) with
  | (_, db') => db_close db'
  end.

End Fetching.

(** ** What a fetch stores *)

(** [int(row['Volume'])] where it is defined. *)
Definition truncated (r : frame_row) : Z :=
  match int (Volume r) with inr v => v | inl _ => 0%Z end.

(** The bar with the five values of the frame row assigned. *)
Definition apply_row (r : frame_row) (b : bar) : bar :=
  row (set_volume (truncated r) (set_prices r (loaded b))).

Definition for_row (iid : Z) (r : frame_row) (b : bar) : bool :=
  (instrument_id b =? iid)%Z && (date b =? trade_date r)%Z.

(** A bar of the table after the rows of the frame that are for it
    have been assigned in turn. *)
Definition refreshed (iid : Z) (df : list frame_row) (b : bar) : bar :=
  fold_left (fun acc r => if for_row iid r acc then apply_row r acc else acc) df b.

(** The rows of the frame for which the table has no bar. *)
Definition added (iid : Z) (df : list frame_row) (table : list bar) : list frame_row :=
  filter (fun r => negb (existsb (for_row iid r) table)) df.

Fixpoint numbered (next : Z) (l : list bar) : list bar :=
  match l with
  | [] => []
  | b :: rest =>
      {| id := Some next; instrument_id := instrument_id b; date := date b;
         open := open b; high := high b; low := low b; close := close b;
         adj_close := adj_close b; volume := volume b |} :: numbered (next + 1) rest
  end.

(** The table after a fetch of frame [df] for instrument [iid] has been
    committed: its bars refreshed, and behind them a new bar for every
    other row of the frame. *)
Definition stored (iid : Z) (df : list frame_row) (table : list bar) : list bar :=
  map (refreshed iid df) table
  ++ numbered (next_id table)
       (map (fun r => row (new_bar iid r (truncated r))) (added iid df table)).

(** What one pass of the loop does to the session when it goes
    through. *)
Definition step (iid : Z) (r : frame_row) (os : list instance) : list instance :=
  match matches iid (trade_date r) os with
  | [] => os ++ [new_bar iid r (truncated r)]
  | [(i, o)] => replace_nth i (set_volume (truncated r) (set_prices r o)) os
  | _ => os
  end.

(** The key of the unique constraint of [ohlc_daily]. *)
Definition key_of (b : bar) : Z * Z := (instrument_id b, date b).

(** A session with nothing pending, on a transaction that has changed
    nothing. *)
Definition clean (s : Store) : Prop :=
  tx_instruments s = instruments s /\ session s = map loaded (ohlc_daily s).

(** Between [s] and [s'] neither a table nor the transaction's view of
    the instruments nor the log has changed, and no fault plan has
    appeared. *)
Definition reads_only (s s' : Store) : Prop :=
  instruments s' = instruments s /\ ohlc_daily s' = ohlc_daily s
  /\ tx_instruments s' = tx_instruments s /\ log s' = log s
  /\ (faults s = None -> faults s' = None).

(** A store with instrument SPY and its bars of days 10 and 11, and a
    service that answers every request with the bars of days 11 and
    12. *)
Module Sample.

Local Open Scope Z_scope.

Definition spy : Instrument.t := {| Instrument.id := 1; Instrument.symbol := "SPY" |}.

Definition bar_of (i d : Z) (c : Q) (adj : option num) : bar :=
  {| id := Some i; instrument_id := 1; date := d;
     open := Fin c; high := Fin c; low := Fin c; close := Fin c;
     adj_close := adj; volume := Some 1000 |}.

Definition quote (d : Z) (c : Q) : frame_row :=
  {| trade_date := d; Open := Fin c; High := Fin (c + 1); Low := Fin (c - 1);
     Close := Fin c; Volume := Fin (5000 # 1) |}.

Definition store : Store :=
  {| instruments := [spy];
     ohlc_daily := [bar_of 1 10 400 (Some (Fin 399)); bar_of 2 11 401 None];
     tx_instruments := [spy];
     session := [loaded (bar_of 1 10 400 (Some (Fin 399))); loaded (bar_of 2 11 401 None)];
     log := []; trace := []; faults := None |}.

Definition history : string -> Z -> Z -> error + list frame_row :=
  fun _ _ _ => inr [quote 11 402; quote 12 403].

Definition finite (x : num) : bool :=
  match x with Fin _ => true | _ => false end.

End Sample.

End Fetcher.

(** * Vocabulary of the statements *)

(** The committed tables of two states agree. *)
Definition same_store (s s' : State) : Prop :=
  equity_curve s' = equity_curve s /\ instruments s' = instruments s
  /\ ohlc_daily s' = ohlc_daily s /\ analytics_daily s' = analytics_daily s.

(** The round trips made from [s] to [s'] are [ops]. *)
Definition made (ops : list db_op) (s s' : State) : Prop :=
  trace s' = trace s ++ ops.

(** Between [s] and [s'] the store was not written, the equity history
    was not loaded again and nothing was committed. *)
Definition inert (s s' : State) : Prop :=
  same_store s s'
  /\ exists ops, made ops s s' /\ ~ In SelectEquity ops /\ ~ In Commit ops.

(** Every run of [m], failed or not, relates its final state to its
    initial state by [R]. *)
Definition maintains (R : State -> State -> Prop) {A : Type} (m : M A) : Prop :=
  forall s r s', m s = (r, s') -> R s s'.

(** The round trips of one pass: the equity history is loaded once, and
    a commit, if there is one, is the last of them. *)
Definition one_pass (ops : list db_op) : Prop :=
  exists pre, ~ In SelectEquity pre /\ ~ In Commit pre
              /\ (ops = SelectEquity :: pre \/ ops = SelectEquity :: pre ++ [Commit]).

Definition same_tables (s s' : State) : Prop :=
  equity_curve s' = equity_curve s /\ instruments s' = instruments s
  /\ ohlc_daily s' = ohlc_daily s.

(** What any run of the pass does to the store and which round trips it
    makes. *)
Definition pass_effect (s : State) (r : exn + unit) (s' : State) : Prop :=
  same_tables s s'
  /\ (exists ops, made ops s s' /\ one_pass ops)
  /\ (forall e, r = inl e -> analytics_daily s' = analytics_daily s).

Definition dated (d : Z) (o : AnalyticsDaily.instance) : bool :=
  AnalyticsDaily.persistent o && (AnalyticsDaily.date (AnalyticsDaily.row o) =? d)%Z.

(** The instances that [select_analytics d] finds, with their
    positions in the session. *)
Definition matches (d : Z) (os : list AnalyticsDaily.instance)
  : list (nat * AnalyticsDaily.instance) :=
  filter (on_date d) (combine (seq 0 (List.length os)) os).

Definition is_inr {A B : Type} (x : A + B) : bool :=
  match x with inr _ => true | inl _ => false end.

(** A run left everything but the trace and the fault plan alone. *)
Definition quiet (s s' : State) : Prop :=
  same_store s s' /\ session s' = session s /\ log s' = log s
  /\ (faults s = None -> faults s' = None).

(** A run changed the session and otherwise at most trace and fault
    plan. *)
Definition framed (s s' : State) : Prop :=
  same_store s s' /\ log s' = log s /\ (faults s = None -> faults s' = None).

Section Loop.

Variable a : arith.
Variable start_date : Z.
Variables daily_returns rolling_vol rolling_sharpe beta alpha : Series.
Variable max_dd : cell.
Variable v0 : Q.

(** The state in which the update branch leaves the object. *)
Definition day_update (entry : nat * (Z * Q)) (o : AnalyticsDaily.instance)
  : AnalyticsDaily.instance :=
  let idx := fst entry in
  let v := snd (snd entry) in
  let o2 := assign (head_values v (iloc_or_none daily_returns idx)) o in
  match truediv a v v0 with
  | inr cr =>
      assign (rest_values cr max_dd (iloc_or_none rolling_vol idx)
                          (iloc_or_none rolling_sharpe idx)
                          (iloc_or_none beta idx) (iloc_or_none alpha idx)) o2
  | inl _ => o2
  end.

Definition day_step (entry : nat * (Z * Q)) (o : AnalyticsDaily.instance)
  : AnalyticsDaily.instance :=
  if (fst (snd entry) <? start_date)%Z then o
  else if dated (fst (snd entry)) o then day_update entry o else o.

(** The day is skipped, or it finds exactly one record and its
    quotient is defined. *)
Definition day_ok (entry : nat * (Z * Q)) (os : list AnalyticsDaily.instance) : bool :=
  (fst (snd entry) <? start_date)%Z
  || ((List.length (matches (fst (snd entry)) os) =? 1)
      && is_inr (truediv a (snd (snd entry)) v0)).

Definition steps (entries : list (nat * (Z * Q))) (o : AnalyticsDaily.instance)
  : AnalyticsDaily.instance :=
  fold_left (fun acc e => day_step e acc) entries o.

End Loop.

(** The value [_get_benchmark_returns] computes from the tables. *)
Definition benchmark_returns_of (symbol : string) (start_date : Z) (s : State)
  : exn + option Series :=
  match scalar_one_or_none
          (filter (fun i => String.eqb (Instrument.symbol i) symbol) (instruments s)) with
  | inl e => inl e
  | inr None => inr None
  | inr (Some i) =>
      match order_by OHLCDaily.date
              (filter (fun o => (OHLCDaily.instrument_id o =? Instrument.id i)%Z
                                && (start_date <=? OHLCDaily.date o)%Z)
                      (ohlc_daily s)) with
      | [] => inr None
      | o :: rest =>
          inr (Some (fillna_0 (pct_change
                 (map (fun o => (OHLCDaily.date o, OHLCDaily.close o)) (o :: rest)))))
      end
  end.

(** The series and the days the loop of a pass works with. *)
Record day_plan : Type := {
  p_returns : Series;
  p_vol : Series;
  p_sharpe : Series;
  p_beta : Series;
  p_alpha : Series;
  p_max_dd : cell;
  p_v0 : Q;
  p_days : list (nat * (Z * Q))
}.

Definition plan_of (lib : core_analytics) (daily_equity : list (Z * Q))
    (spy_data : option Series) : day_plan :=
  let daily_returns := compute_daily_returns lib daily_equity in
  let nulls := (none_series daily_returns, none_series daily_returns) in
  let beta_alpha :=
    match spy_data with
    | Some spy =>
        if 60 <=? List.length spy then
          let aligned := aligned_frame daily_returns spy in
          if 60 <=? List.length aligned then
            compute_beta_alpha lib (column_portfolio aligned) (column_benchmark aligned) 60
          else nulls
        else nulls
    | None => nulls
    end in
  {| p_returns := daily_returns;
     p_vol := compute_rolling_volatility lib daily_returns 20;
     p_sharpe := compute_rolling_sharpe lib daily_returns 60;
     p_beta := fst beta_alpha;
     p_alpha := snd beta_alpha;
     p_max_dd := compute_max_drawdown lib daily_equity;
     p_v0 := match daily_equity with p :: _ => snd p | [] => 0%Q end;
     p_days := combine (seq 0 (List.length daily_equity)) daily_equity |}.

(** What the tables give a pass from [start_date] to do: nothing, an
    error of the benchmark query, or a plan. *)
Definition pass_work (lib : core_analytics) (start_date : Z) (s : State)
  : exn + option day_plan :=
  match equity_data_of start_date s with
  | [] => inr None
  | e :: rest =>
      if List.length (daily_equity_of (e :: rest)) <? 2 then inr None
      else
        match benchmark_returns_of "SPY" start_date s with
        | inl x => inl x
        | inr spy => inr (Some (plan_of lib (daily_equity_of (e :: rest)) spy))
        end
  end.

Definition plan_steps (a : arith) (start_date : Z) (p : day_plan)
  : AnalyticsDaily.instance -> AnalyticsDaily.instance :=
  steps a start_date (p_returns p) (p_vol p) (p_sharpe p) (p_beta p) (p_alpha p)
        (p_max_dd p) (p_v0 p) (p_days p).

Definition plan_ok (a : arith) (start_date : Z) (p : day_plan)
    (os : list AnalyticsDaily.instance) : Prop :=
  forall e, In e (p_days p) -> day_ok a start_date (p_v0 p) e os = true.

(** The columns that no assignment of the pass reaches. *)
Definition kept (r : AnalyticsDaily.t) : option Z * Z * cell * cell * cell :=
  (AnalyticsDaily.id r, AnalyticsDaily.date r, AnalyticsDaily.return_pct r,
   AnalyticsDaily.cum_return r, AnalyticsDaily.drawdown r).

(** The row with its four rolling columns overwritten. *)
Definition with_rolling (vol sharpe beta alpha : cell) (r : AnalyticsDaily.t)
  : AnalyticsDaily.t :=
  {| AnalyticsDaily.id := AnalyticsDaily.id r;
     AnalyticsDaily.date := AnalyticsDaily.date r;
     AnalyticsDaily.return_pct := AnalyticsDaily.return_pct r;
     AnalyticsDaily.cum_return := AnalyticsDaily.cum_return r;
     AnalyticsDaily.drawdown := AnalyticsDaily.drawdown r;
     AnalyticsDaily.volatility_20d := vol;
     AnalyticsDaily.sharpe_60d := sharpe;
     AnalyticsDaily.beta_spy_60d := beta;
     AnalyticsDaily.alpha_spy_60d := alpha |}.

Definition alike (o o' : AnalyticsDaily.instance) : Prop :=
  AnalyticsDaily.persistent o = AnalyticsDaily.persistent o'
  /\ kept (AnalyticsDaily.row o) = kept (AnalyticsDaily.row o').

(** The analytics rows a pass with plan [p] leaves in place of [r]. *)
Definition pass_row (a : arith) (start_date : Z) (p : day_plan) (r : AnalyticsDaily.t)
  : AnalyticsDaily.t :=
  AnalyticsDaily.row (plan_steps a start_date p (AnalyticsDaily.loaded r)).

(** [RecomputeFrom(d)] as every task runs it: the pass in a session of
    its own, rolled back when the pass raises, closed in any case. *)
Definition RecomputeFrom (a : arith) (lib : core_analytics) (fault : option nat)
    (start_date : Z) (s : State) : (exn + unit) * State :=
  match _recompute_analytics_from_date a lib start_date (SessionLocal fault s) with
  | (inr u, db') => (inr u, db_close db')
  | (inl e, db') => (inl e, db_close (db_rollback db'))
  end.

(** The tables and the records let a pass from [start_date] go through
    with plan [p]. *)
Definition pass_commits (a : arith) (lib : core_analytics) (start_date : Z) (s : State)
    (p : day_plan) : Prop :=
  pass_work lib start_date s = inr (Some p)
  /\ plan_ok a start_date p (map AnalyticsDaily.loaded (analytics_daily s))
  /\ distinct (map AnalyticsDaily.date (analytics_daily s)) = true.

(** The attribute names the pass assigns, in the order of the source. *)
Definition written_names : list string :=
  ["total_equity"; "daily_return"; "cumulative_return"; "max_drawdown";
   "volatility_20d"; "sharpe_60d"; "beta_spy_60d"; "alpha_spy_60d"].

(** The task as the worker runs it for one message. *)
Definition event_body (a : arith) (lib : core_analytics) (ty : string)
    (iid : option string) (t : Z) : task_body :=
  fun retries fault => recompute_from_event a lib retries fault ty iid t.

(** The state after the first [n] executions of a message. *)
Fixpoint state_after (body : task_body) (plan : nat -> option nat) (n : nat) (s : State)
  : State :=
  match n with
  | O => s
  | S m => snd (body m (plan m) (state_after body plan m s))
  end.

(** The decline at index [i]: [(v[i] - p_i) / p_i] with [p_i] the
    largest of [v[0..i]]. *)
Definition decline_at (vs : list Q) (i : nat) : Q :=
  ((nth i vs 0 - Spec.prefix_max vs i) / Spec.prefix_max vs i)%Q.

(** The series of the specification's example. *)
Definition example_equity : list Q := [100; 110; 105; 95; 100; 120]%Q.

(** A fault plan for a delivery: the store is down at the first round trip of the first execution
    and at the third of the second; the third execution goes through. *)
Definition two_faults (k : nat) : option nat :=
  match k with
  | 0 => Some 0
  | 1 => Some 2
  | _ => None
  end.

(** The pair a snapshot contributes to the series that is resampled. *)
Definition snapshot_pair (e : EquityCurve.t) : Z * Q :=
  (EquityCurve.time e, EquityCurve.equity e).

(** The number of committed records of day [d]. *)
Definition records_on (d : Z) (s : State) : nat :=
  List.length (filter (fun r => (AnalyticsDaily.date r =? d)%Z) (analytics_daily s)).

(** The days for which a pass from [start_date] computes values. *)
Definition days_from (start_date : Z) (s : State) : list Z :=
  map fst (daily_equity_of (equity_data_of start_date s)).

(** One move of the system: a webhook is ingested, the worker delivers
    the oldest message of the queue, or the beat runs the full
    recomputation. *)
Inductive move (a : arith) (lib : core_analytics) : System -> System -> Prop :=
| Ingested (ev : event) (sys : System) :
    move a lib sys (snd (ingest_webhook ev sys))
| Worked (plan : nat -> option nat) (sys : System) (d : delivery) (sys' : System) :
    work a lib plan sys = Some (d, sys') -> move a lib sys sys'
| Recomputed (fault : option nat) (sys : System) :
    move a lib sys
         {| store := snd (recompute_all_analytics a lib fault (store sys));
            queue := queue sys |}.

(** Any number of moves. *)
Inductive moves (a : arith) (lib : core_analytics) : System -> System -> Prop :=
| moves_none (sys : System) : moves a lib sys sys
| moves_more (sys1 sys2 sys3 : System) :
    moves a lib sys1 sys2 -> move a lib sys2 sys3 -> moves a lib sys1 sys3.

(** * Properties *)

(** ** Reasoning about computations *)

Lemma bind_inr {A B : Type} (m : M A) (k : A -> M B) s a s1 :
  m s = (inr a, s1) -> bind m k s = k a s1.
Proof. intros H. unfold bind. now rewrite H. Qed.

Lemma bind_inl {A B : Type} (m : M A) (k : A -> M B) s e s1 :
  m s = (inl e, s1) -> bind m k s = (inl e, s1).
Proof. intros H. unfold bind. now rewrite H. Qed.

Lemma bind_inv_inr {A B : Type} (m : M A) (k : A -> M B) s b s' :
  bind m k s = (inr b, s') ->
  exists a s1, m s = (inr a, s1) /\ k a s1 = (inr b, s').
Proof.
  unfold bind. destruct (m s) as [[e | a] s1]; intros H.
  - discriminate.
  - now exists a, s1.
Qed.

Lemma bind_inv_inl {A B : Type} (m : M A) (k : A -> M B) s e s' :
  bind m k s = (inl e, s') ->
  m s = (inl e, s') \/ exists a s1, m s = (inr a, s1) /\ k a s1 = (inl e, s').
Proof.
  unfold bind. destruct (m s) as [[e1 | a] s1]; intros H.
  - left. inversion H. reflexivity.
  - right. now exists a, s1.
Qed.

Lemma same_store_refl s : same_store s s.
Proof. repeat split. Qed.

Lemma same_store_trans s1 s2 s3 :
  same_store s1 s2 -> same_store s2 s3 -> same_store s1 s3.
Proof.
  intros (A1 & A2 & A3 & A4) (B1 & B2 & B3 & B4).
  repeat split; congruence.
Qed.

Lemma inert_refl s : inert s s.
Proof.
  split; [apply same_store_refl |].
  exists []. unfold made. rewrite app_nil_r. auto.
Qed.

Lemma inert_trans s1 s2 s3 : inert s1 s2 -> inert s2 s3 -> inert s1 s3.
Proof.
  intros (A & ops1 & M1 & N1 & C1) (B & ops2 & M2 & N2 & C2).
  split; [eapply same_store_trans; eauto |].
  exists (ops1 ++ ops2). unfold made in *.
  rewrite M2, M1, app_assoc. repeat split; trivial;
    rewrite in_app_iff; tauto.
Qed.

Section Maintains.

Variable R : State -> State -> Prop.
Hypothesis R_refl : forall s, R s s.
Hypothesis R_trans : forall s1 s2 s3, R s1 s2 -> R s2 s3 -> R s1 s3.

Lemma maintains_ret {A : Type} (x : A) : maintains R (ret x).
Proof. intros s r s' H. inversion H. apply R_refl. Qed.

Lemma maintains_raise {A : Type} (e : exn) : maintains R (@raise A e).
Proof. intros s r s' H. inversion H. apply R_refl. Qed.

Lemma maintains_lift {A : Type} (x : exn + A) : maintains R (lift x).
Proof. destruct x; [apply maintains_raise | apply maintains_ret]. Qed.

Lemma maintains_gets {A : Type} (f : State -> A) : maintains R (gets f).
Proof. intros s r s' H. inversion H. apply R_refl. Qed.

Lemma maintains_bind {A B : Type} (m : M A) (k : A -> M B) :
  maintains R m -> (forall x, maintains R (k x)) -> maintains R (bind m k).
Proof.
  intros Hm Hk s r s' H. unfold bind in H.
  destruct (m s) as [[e | x] s1] eqn:E.
  - inversion H; subst. eapply Hm; eauto.
  - eapply R_trans; [eapply Hm | eapply Hk]; eauto.
Qed.

Lemma maintains_for_each {A : Type} (body : A -> M unit) l :
  (forall x, maintains R (body x)) -> maintains R (for_each body l).
Proof.
  intros Hb. induction l as [| x rest IH]; simpl.
  - apply maintains_ret.
  - apply maintains_bind; [apply Hb | intros _; exact IH].
Qed.

End Maintains.

Lemma inert_no_trip (f : State -> State) :
  (forall s, equity_curve (f s) = equity_curve s /\ instruments (f s) = instruments s
             /\ ohlc_daily (f s) = ohlc_daily s
             /\ analytics_daily (f s) = analytics_daily s /\ trace (f s) = trace s) ->
  maintains inert (modify f).
Proof.
  intros Hf s r s' H. inversion H; subst.
  destruct (Hf s) as (A1 & A2 & A3 & A4 & A5).
  split; [repeat split; assumption |].
  exists []. unfold made. rewrite app_nil_r. auto.
Qed.

Lemma inert_logger lv msg : maintains inert (logger lv msg).
Proof. apply inert_no_trip. intros s. repeat split. Qed.

Lemma inert_put_instance i o : maintains inert (put_instance i o).
Proof. apply inert_no_trip. intros s. repeat split. Qed.

Lemma inert_db_add o : maintains inert (db_add o).
Proof. apply inert_no_trip. intros s. repeat split. Qed.

Lemma round_trip_made op s r s' :
  round_trip op s = (r, s') -> same_store s s' /\ made [op] s s' /\ log s' = log s
                               /\ session s' = session s.
Proof.
  unfold round_trip, made. intros H.
  destruct (faults s) as [[| n] |]; inversion H; repeat split.
Qed.

Lemma inert_round_trip op :
  op <> SelectEquity -> op <> Commit -> maintains inert (round_trip op).
Proof.
  intros N C s r s' H. apply round_trip_made in H as (A & B & _).
  split; [exact A |]. exists [op]. repeat split; trivial; simpl; intuition congruence.
Qed.

Create HintDb inert.
#[export] Hint Resolve inert_refl inert_logger inert_put_instance inert_db_add : inert.
#[export] Hint Extern 1 (maintains inert (ret _)) =>
  apply maintains_ret; exact inert_refl : inert.
#[export] Hint Extern 1 (maintains inert (raise _)) =>
  apply maintains_raise; exact inert_refl : inert.
#[export] Hint Extern 1 (maintains inert (lift _)) =>
  apply maintains_lift; exact inert_refl : inert.
#[export] Hint Extern 1 (maintains inert (gets _)) =>
  apply maintains_gets; exact inert_refl : inert.
#[export] Hint Extern 1 (maintains inert (round_trip _)) =>
  apply inert_round_trip; discriminate : inert.

Ltac inert_steps :=
  repeat first
    [ apply maintains_bind; [exact inert_trans | | intro]
    | progress auto with inert
    | match goal with
      | |- maintains _ (match ?x with _ => _ end) => destruct x
      | |- maintains _ (if ?b then _ else _) => destruct b
      end ].

Lemma inert_select_analytics d : maintains inert (select_analytics d).
Proof. unfold select_analytics. inert_steps. Qed.

Lemma inert_get_benchmark_returns symbol start_date :
  maintains inert (_get_benchmark_returns symbol start_date).
Proof. unfold _get_benchmark_returns. inert_steps. Qed.

Lemma inert_store_day a start_date dr rv rs be al max_dd v0 entry :
  maintains inert (store_day a start_date dr rv rs be al max_dd v0 entry).
Proof.
  unfold store_day.
  pose proof inert_select_analytics. inert_steps.
Qed.

(** [db.commit()] writes the table when it succeeds and only then. *)
Lemma db_commit_failure s e s' :
  db_commit s = (inl e, s') -> same_store s s'.
Proof.
  unfold db_commit. intros H.
  apply bind_inv_inl in H as [H | (u & s1 & H1 & H)].
  - eapply round_trip_made; eauto.
  - eapply same_store_trans; [eapply round_trip_made; eauto |].
    unfold bind, gets in H.
    destruct (distinct (dates_of (session s1))).
    + discriminate.
    + inversion H. apply same_store_refl.
Qed.

Lemma db_commit_tables s r s' :
  db_commit s = (r, s') ->
  equity_curve s' = equity_curve s /\ instruments s' = instruments s
  /\ ohlc_daily s' = ohlc_daily s.
Proof.
  unfold db_commit, bind, round_trip, gets, modify, raise. intros H.
  destruct (faults s) as [[| n] |]; simpl in H;
    try (destruct (distinct (dates_of (session s))));
    inversion H; repeat split.
Qed.

(** ** The pass writes the store at its commit and nowhere else *)

Lemma same_store_tables s s' : same_store s s' -> same_tables s s'.
Proof. intros (A & B & C & _). repeat split; assumption. Qed.

Lemma logger_run lv msg s :
  logger lv msg s = (inr tt, with_log (log s ++ [(lv, msg)]) s).
Proof. reflexivity. Qed.

Lemma commit_then_log msg s r s' :
  (db_commit ;;; logger INFO msg) s = (r, s') ->
  same_tables s s' /\ made [Commit] s s'
  /\ (forall e, r = inl e -> analytics_daily s' = analytics_daily s).
Proof.
  intros H. unfold bind at 1 in H.
  destruct (db_commit s) as [[e | u] s1] eqn:E.
  - inversion H; subst. pose proof (db_commit_failure _ _ _ E) as K.
    pose proof (db_commit_tables _ _ _ E) as T. repeat split; try apply T.
    + unfold db_commit, bind in E.
      destruct (round_trip Commit s) as [[e1 | u1] s2] eqn:E1.
      * inversion E; subst. eapply round_trip_made; eauto.
      * apply round_trip_made in E1 as (_ & Mk & _).
        unfold gets, modify, raise in E.
        destruct (distinct (dates_of (session s2))); inversion E; subst.
        exact Mk.
    + intros _ _. apply K.
  - rewrite logger_run in H. inversion H; subst.
    pose proof (db_commit_tables _ _ _ E) as T. repeat split; try apply T.
    + unfold db_commit, bind in E.
      destruct (round_trip Commit s) as [[e1 | u1] s2] eqn:E1; [discriminate |].
      apply round_trip_made in E1 as (_ & Mk & _).
      unfold gets, modify, raise in E.
      destruct (distinct (dates_of (session s2))); inversion E; subst.
      exact Mk.
    + intros e Habs. discriminate.
Qed.

Lemma inert_pass_effect s s1 r s' :
  made [SelectEquity] s s1 -> same_store s s1 -> inert s1 s' ->
  pass_effect s r s'.
Proof.
  intros M0 S0 (S1 & ops & M1 & N1 & C1).
  pose proof (same_store_trans _ _ _ S0 S1) as S.
  split; [apply same_store_tables; exact S |]. split.
  - exists (SelectEquity :: ops). split.
    + unfold made in *. rewrite M1, M0, <- app_assoc. reflexivity.
    + exists ops. auto.
  - intros _ _. apply S.
Qed.

Lemma pass_has_effect a lib start_date s r s' :
  _recompute_analytics_from_date a lib start_date s = (r, s') -> pass_effect s r s'.
Proof.
  unfold _recompute_analytics_from_date. intros H.
  unfold bind at 1 in H.
  destruct (round_trip SelectEquity s) as [[e | u] s1] eqn:E1.
  { inversion H; subst. apply round_trip_made in E1 as (A & B & _).
    eapply inert_pass_effect; eauto using inert_refl. }
  apply round_trip_made in E1 as (A1 & M1 & _).
  unfold bind at 1, gets at 1 in H.
  destruct (equity_data_of start_date s1) as [| e0 rest] eqn:Eq.
  { eapply inert_pass_effect; eauto. eapply inert_logger; eauto. }
  destruct (List.length (daily_equity_of (e0 :: rest)) <? 2) eqn:Len.
  { eapply inert_pass_effect; eauto. eapply inert_logger; eauto. }
  unfold bind at 1 in H.
  destruct (_get_benchmark_returns "SPY" start_date s1) as [[e | spy] s2] eqn:E2.
  { inversion H; subst. eapply inert_pass_effect; eauto.
    eapply inert_get_benchmark_returns; eauto. }
  pose proof (inert_get_benchmark_returns _ _ _ _ _ E2) as I2.
  unfold bind at 1 in H.
  match type of H with
  | context [for_each ?b ?l s2] => destruct (for_each b l s2) as [[e | u3] s3] eqn:E3
  end.
  { inversion H; subst. eapply inert_pass_effect; eauto.
    eapply inert_trans; [exact I2 |].
    eapply maintains_for_each; [exact inert_refl | exact inert_trans | | exact E3].
    intros x. apply inert_store_day. }
  assert (I3 : inert s2 s3).
  { eapply maintains_for_each; [exact inert_refl | exact inert_trans | | exact E3].
    intros x. apply inert_store_day. }
  apply commit_then_log in H as (T & Mc & K).
  destruct (inert_trans _ _ _ I2 I3) as (S13 & ops & M13 & N13 & C13).
  pose proof (same_store_trans _ _ _ A1 S13) as S03.
  split; [| split].
  - destruct (same_store_tables _ _ S03) as (X1 & X2 & X3).
    destruct T as (Y1 & Y2 & Y3). repeat split; congruence.
  - exists (SelectEquity :: ops ++ [Commit]). split.
    + unfold made in *. rewrite Mc, M13, M1, <- !app_assoc. reflexivity.
    + exists ops. auto.
  - intros e He. rewrite (K e He). apply S03.
Qed.

(** ** What one day of the loop does *)

Lemma setattr_shape k v o :
  AnalyticsDaily.persistent (AnalyticsDaily.setattr k v o) = AnalyticsDaily.persistent o
  /\ AnalyticsDaily.date (AnalyticsDaily.row (AnalyticsDaily.setattr k v o))
     = AnalyticsDaily.date (AnalyticsDaily.row o)
  /\ AnalyticsDaily.id (AnalyticsDaily.row (AnalyticsDaily.setattr k v o))
     = AnalyticsDaily.id (AnalyticsDaily.row o).
Proof.
  unfold AnalyticsDaily.setattr, AnalyticsDaily.set_column.
  repeat match goal with
         | |- context [String.eqb ?x ?y] => destruct (String.eqb x y)
         end; simpl; auto.
Qed.

Lemma assign_shape kvs o :
  AnalyticsDaily.persistent (assign kvs o) = AnalyticsDaily.persistent o
  /\ AnalyticsDaily.date (AnalyticsDaily.row (assign kvs o))
     = AnalyticsDaily.date (AnalyticsDaily.row o)
  /\ AnalyticsDaily.id (AnalyticsDaily.row (assign kvs o))
     = AnalyticsDaily.id (AnalyticsDaily.row o).
Proof.
  unfold assign. revert o.
  induction kvs as [| kv rest IH]; intros o; simpl; [auto |].
  destruct (IH (AnalyticsDaily.setattr (fst kv) (snd kv) o)) as (A & B & C).
  destruct (setattr_shape (fst kv) (snd kv) o) as (A' & B' & C').
  repeat split; congruence.
Qed.

Lemma day_update_shape a dr rv rs be al max_dd v0 e o :
  AnalyticsDaily.persistent (day_update a dr rv rs be al max_dd v0 e o)
  = AnalyticsDaily.persistent o
  /\ AnalyticsDaily.date (AnalyticsDaily.row (day_update a dr rv rs be al max_dd v0 e o))
     = AnalyticsDaily.date (AnalyticsDaily.row o).
Proof.
  unfold day_update.
  destruct (truediv a (snd (snd e)) v0) as [x | cr].
  - destruct (assign_shape (head_values (snd (snd e)) (iloc_or_none dr (fst e))) o)
      as (A & B & _). auto.
  - match goal with
    | |- context [assign ?kvs (assign ?h o)] =>
        destruct (assign_shape kvs (assign h o)) as (A & B & _);
        destruct (assign_shape h o) as (A' & B' & _)
    end.
    split; congruence.
Qed.

Lemma day_step_dated a start dr rv rs be al max_dd v0 e d o :
  dated d (day_step a start dr rv rs be al max_dd v0 e o) = dated d o.
Proof.
  unfold day_step.
  destruct (fst (snd e) <? start)%Z; [reflexivity |].
  destruct (dated (fst (snd e)) o); [| reflexivity].
  unfold dated.
  destruct (day_update_shape a dr rv rs be al max_dd v0 e o) as (A & B).
  now rewrite A, B.
Qed.

(** Mapping the session by a function that keeps dates and persistence
    keeps what every select finds, up to that function. *)
Lemma filter_on_date_map (f : AnalyticsDaily.instance -> AnalyticsDaily.instance) d os :
  (forall o, In o os -> dated d (f o) = dated d o) ->
  forall k,
    filter (on_date d) (combine (seq k (List.length (map f os))) (map f os))
    = map (fun io => (fst io, f (snd io)))
          (filter (on_date d) (combine (seq k (List.length os)) os)).
Proof.
  induction os as [| o rest IH]; intros Hf k; simpl; [reflexivity |].
  change (on_date d (k, f o)) with (dated d (f o)).
  change (on_date d (k, o)) with (dated d o).
  rewrite (Hf o (or_introl eq_refl)).
  assert (Hr : forall o', In o' rest -> dated d (f o') = dated d o')
    by (intros o' Ho'; apply Hf; now right).
  destruct (dated d o); simpl; now rewrite (IH Hr).
Qed.

Lemma matches_map (f : AnalyticsDaily.instance -> AnalyticsDaily.instance) d os :
  (forall o, In o os -> dated d (f o) = dated d o) ->
  List.length (matches d (map f os)) = List.length (matches d os).
Proof.
  intros Hf. unfold matches. rewrite (filter_on_date_map f d os Hf 0).
  apply length_map.
Qed.

Lemma filter_on_date_nil d os k :
  filter (on_date d) (combine (seq k (List.length os)) os) = [] ->
  forall g, map (fun o => if dated d o then g o else o) os = os.
Proof.
  revert k. induction os as [| o rest IH]; intros k H g; simpl in *; [reflexivity |].
  change (on_date d (k, o)) with (dated d o) in H.
  destruct (dated d o); [discriminate |].
  now rewrite (IH (S k) H g).
Qed.

(** The select found one instance: writing at its position is mapping
    over the instances of that date. *)
Lemma filter_on_date_one d g os k i o :
  filter (on_date d) (combine (seq k (List.length os)) os) = [(i, o)] ->
  k <= i /\ replace_nth (i - k) (g o) os
            = map (fun o' => if dated d o' then g o' else o') os.
Proof.
  revert k. induction os as [| x rest IH]; intros k H; simpl in *; [discriminate |].
  change (on_date d (k, x)) with (dated d x) in H.
  destruct (dated d x) eqn:Dx.
  - inversion H; subst. rewrite Nat.sub_diag. split; [lia |].
    simpl. f_equal. symmetry. eapply filter_on_date_nil. eassumption.
  - destruct (IH (S k) H) as (Le & Eq). split; [lia |].
    replace (i - k) with (S (i - S k)) by lia. simpl. now rewrite Eq.
Qed.

Lemma replace_nth_twice {A : Type} i (x y : A) l :
  replace_nth i y (replace_nth i x l) = replace_nth i y l.
Proof.
  revert i. induction l as [| z rest IH]; intros [| j]; simpl; try reflexivity.
  now rewrite IH.
Qed.

Lemma round_trip_ok op s :
  faults s = None -> round_trip op s = (inr tt, with_trace (trace s ++ [op]) s).
Proof. intros H. unfold round_trip. now rewrite H. Qed.

Lemma round_trip_inr op s u s' :
  round_trip op s = (inr u, s') -> quiet s s'.
Proof.
  unfold round_trip. intros H.
  destruct (faults s) as [[| n] |] eqn:F; inversion H; subst;
    repeat split; simpl; congruence.
Qed.

Lemma quiet_framed s s' : quiet s s' -> framed s s'.
Proof. intros (A & _ & B & C). repeat split; assumption || apply A. Qed.

Lemma framed_trans s1 s2 s3 : framed s1 s2 -> framed s2 s3 -> framed s1 s3.
Proof.
  intros (A & B & C) (A' & B' & C').
  split; [eapply same_store_trans; eauto |]. split; [congruence | auto].
Qed.

Lemma framed_refl s : framed s s.
Proof. split; [apply same_store_refl | auto]. Qed.

(** The constructor rejects the keyword arguments of the insert branch,
    whatever their values. *)
Lemma new_rejects d v return_val cr max_dd vol_val sharpe_val beta_val alpha_val :
  AnalyticsDaily.new d
    (head_values v return_val
     ++ rest_values cr max_dd vol_val sharpe_val beta_val alpha_val)
  = inl (TypeError "total_equity").
Proof. reflexivity. Qed.

Lemma select_analytics_inr d s x s' :
  select_analytics d s = (inr x, s') ->
  quiet s s' /\ scalar_one_or_none (matches d (session s)) = inr x.
Proof.
  unfold select_analytics. intros H.
  apply bind_inv_inr in H as (u & s1 & H1 & H).
  apply round_trip_inr in H1 as Q1.
  unfold bind, gets, lift in H.
  destruct Q1 as (A & B & C & D).
  fold (matches d (session s1)) in H. rewrite B in H.
  destruct (scalar_one_or_none (matches d (session s))) as [e | y];
    inversion H; subst.
  repeat split; assumption || apply A.
Qed.

Lemma select_analytics_ok d s :
  faults s = None ->
  select_analytics d s
  = (scalar_one_or_none (matches d (session s)),
     with_trace (trace s ++ [SelectAnalytics d]) s).
Proof.
  intros F. unfold select_analytics, bind. rewrite (round_trip_ok _ _ F).
  unfold gets, lift. simpl. fold (matches d (session s)).
  now destruct (scalar_one_or_none (matches d (session s))).
Qed.

Lemma scalar_one_inv {A : Type} (l : list A) x :
  scalar_one_or_none l = inr (Some x) -> l = [x].
Proof.
  destruct l as [| y [| z rest]]; simpl; intros H; inversion H. reflexivity.
Qed.

Lemma scalar_one_of_length {A : Type} (l : list A) :
  List.length l = 1 -> exists x, scalar_one_or_none l = inr (Some x).
Proof.
  destruct l as [| y [| z rest]]; simpl; intros H; try discriminate.
  now exists y.
Qed.

Section LoopFacts.

Variable a : arith.
Variable start_date : Z.
Variables daily_returns rolling_vol rolling_sharpe beta alpha : Series.
Variable max_dd : cell.
Variable v0 : Q.

Local Abbreviation body :=
  (store_day a start_date daily_returns rolling_vol rolling_sharpe beta alpha max_dd v0).
Local Abbreviation step :=
  (day_step a start_date daily_returns rolling_vol rolling_sharpe beta alpha max_dd v0).
Local Abbreviation update := (day_update a daily_returns rolling_vol rolling_sharpe beta alpha max_dd v0).
Local Abbreviation ok := (day_ok a start_date v0).
Local Abbreviation all_steps :=
  (steps a start_date daily_returns rolling_vol rolling_sharpe beta alpha max_dd v0).

Lemma map_step_touched e os :
  (fst (snd e) <? start_date)%Z = false ->
  map (fun o' => if dated (fst (snd e)) o' then update e o' else o') os = map (step e) os.
Proof.
  intros H. apply map_ext. intros o. unfold day_step. now rewrite H.
Qed.

Lemma map_step_skipped e os :
  (fst (snd e) <? start_date)%Z = true -> map (step e) os = os.
Proof.
  intros H. rewrite <- (map_id os) at 2. apply map_ext. intros o.
  unfold day_step. now rewrite H.
Qed.

(** A day that went through found its one record and updated it. *)
Lemma store_day_inr e s s' :
  body e s = (inr tt, s') ->
  ok e (session s) = true /\ session s' = map (step e) (session s) /\ framed s s'.
Proof.
  unfold store_day, day_ok. intros H.
  destruct (fst (snd e) <? start_date)%Z eqn:Skip.
  { inversion H; subst. rewrite map_step_skipped by assumption.
    split; [reflexivity | split; [reflexivity | apply framed_refl]]. }
  apply bind_inv_inr in H as (x & s1 & H1 & H).
  apply select_analytics_inr in H1 as (Q1 & Sel).
  destruct Q1 as (St1 & Se1 & Lo1 & Fa1).
  destruct x as [[i o] |].
  - apply scalar_one_inv in Sel.
    unfold bind, put_instance, modify, lift in H. simpl in H.
    destruct (truediv a (snd (snd e)) v0) as [ex | cr] eqn:Div;
      simpl in H; inversion H; subst; clear H.
    simpl. rewrite replace_nth_twice, Se1.
    pose proof (filter_on_date_one (fst (snd e)) (update e) (session s) 0 i o Sel)
      as (_ & Eq).
    rewrite Nat.sub_0_r in Eq.
    unfold day_update in Eq at 1. rewrite Div in Eq.
    rewrite Sel. split; [reflexivity |]. split.
    + rewrite <- (map_step_touched e (session s) Skip), <- Eq. reflexivity.
    + split; [apply St1 | split; assumption].
  - unfold bind, lift in H.
    destruct (truediv a (snd (snd e)) v0) as [ex | cr]; simpl in H;
      [discriminate |].
    try rewrite new_rejects in H. discriminate.
Qed.

(** With the store reachable, a day whose record is there goes
    through. *)
Lemma store_day_ok e s :
  faults s = None -> ok e (session s) = true -> exists s', body e s = (inr tt, s').
Proof.
  unfold store_day, day_ok. intros F H.
  destruct (fst (snd e) <? start_date)%Z eqn:Skip.
  { eexists. reflexivity. }
  simpl in H. apply andb_true_iff in H as (Len & Div).
  apply Nat.eqb_eq in Len.
  destruct (scalar_one_of_length _ Len) as ([i o] & Sel).
  unfold bind. rewrite (select_analytics_ok _ _ F), Sel.
  unfold put_instance, modify, lift. simpl.
  destruct (truediv a (snd (snd e)) v0) as [ex | cr]; [discriminate |].
  simpl. eexists. reflexivity.
Qed.

Lemma ok_map_step e e' os : ok e (map (step e') os) = ok e os.
Proof.
  unfold day_ok. rewrite matches_map; [reflexivity |].
  intros o _. apply day_step_dated.
Qed.

Lemma map_all_steps es os :
  map (all_steps es) os = fold_left (fun acc e => map (step e) acc) es os.
Proof.
  revert os. induction es as [| e rest IH]; intros os; simpl.
  - apply map_id.
  - rewrite <- IH, map_map. reflexivity.
Qed.

(** A loop that went through found the record of every day and
    updated each. *)
Lemma for_each_inr es s s' :
  for_each body es s = (inr tt, s') ->
  (forall e, In e es -> ok e (session s) = true)
  /\ session s' = map (all_steps es) (session s) /\ framed s s'.
Proof.
  revert s. induction es as [| e rest IH]; intros s H; simpl in H.
  - inversion H; subst. simpl. rewrite map_id.
    repeat split; try (intros e []); auto.
  - apply bind_inv_inr in H as ([] & s1 & H1 & H).
    apply store_day_inr in H1 as (Ok1 & Se1 & Fr1).
    apply IH in H as (OkR & SeR & FrR).
    split; [| split].
    + intros e0 [<- | In0]; [exact Ok1 |].
      rewrite <- (ok_map_step e0 e), <- Se1. now apply OkR.
    + rewrite SeR, Se1, map_map. reflexivity.
    + eapply framed_trans; eauto.
Qed.

Lemma for_each_ok es s :
  faults s = None -> (forall e, In e es -> ok e (session s) = true) ->
  exists s', for_each body es s = (inr tt, s').
Proof.
  revert s. induction es as [| e rest IH]; intros s F H; simpl.
  - eexists. reflexivity.
  - destruct (store_day_ok e s F (H e (or_introl eq_refl))) as (s1 & H1).
    pose proof (store_day_inr _ _ _ H1) as (_ & Se1 & (_ & _ & Fa1)).
    destruct (IH s1 (Fa1 F)) as (s' & H').
    { intros e0 In0. rewrite Se1, ok_map_step. apply H. now right. }
    exists s'. unfold bind. now rewrite H1.
Qed.

End LoopFacts.

(** ** What a whole pass does *)

Lemma benchmark_inr symbol start_date s x s' :
  _get_benchmark_returns symbol start_date s = (inr x, s') ->
  quiet s s' /\ benchmark_returns_of symbol start_date s = inr x.
Proof.
  unfold _get_benchmark_returns, benchmark_returns_of. intros H.
  apply bind_inv_inr in H as (u & s1 & H1 & H).
  apply round_trip_inr in H1 as (St1 & Se1 & Lo1 & Fa1).
  unfold bind at 1, gets at 1 in H.
  destruct St1 as (T1 & T2 & T3 & T4).
  rewrite T2 in H. unfold bind at 1, lift at 1 in H.
  destruct (scalar_one_or_none
              (filter (fun i => String.eqb (Instrument.symbol i) symbol) (instruments s)))
    as [e | [i |]]; simpl in H; try discriminate.
  - apply bind_inv_inr in H as (u2 & s2 & H2 & H).
    apply round_trip_inr in H2 as ((U1 & U2 & U3 & U4) & Se2 & Lo2 & Fa2).
    unfold bind, gets in H. rewrite U3, T3 in H.
    match type of H with
    | context [order_by ?k ?l] => destruct (order_by k l) as [| o rest]
    end; inversion H; subst;
      (split; [repeat split; try congruence; auto | reflexivity]).
  - inversion H; subst.
    split; [repeat split; try congruence; auto | reflexivity].
Qed.

Lemma benchmark_ok symbol start_date s :
  faults s = None ->
  exists s', _get_benchmark_returns symbol start_date s
             = (benchmark_returns_of symbol start_date s, s')
             /\ quiet s s'.
Proof.
  intros F. unfold _get_benchmark_returns, benchmark_returns_of, bind.
  rewrite (round_trip_ok _ _ F). unfold gets, lift. simpl.
  destruct (scalar_one_or_none
              (filter (fun i => String.eqb (Instrument.symbol i) symbol) (instruments s)))
    as [e | [i |]]; simpl.
  - eexists. split; [reflexivity |]. repeat split; auto.
  - rewrite round_trip_ok by exact F. simpl.
    match goal with
    | |- context [order_by ?k ?l] => destruct (order_by k l) as [| o rest]
    end; simpl; (eexists; split; [reflexivity |]; repeat split; auto).
  - eexists. split; [reflexivity |]. repeat split; auto.
Qed.

Lemma db_commit_inr s u s' :
  db_commit s = (inr u, s') ->
  distinct (dates_of (session s)) = true
  /\ session s' = assign_ids (next_id (analytics_daily s)) (session s)
  /\ analytics_daily s' = map AnalyticsDaily.row (session s')
  /\ same_tables s s' /\ log s' = log s /\ (faults s = None -> faults s' = None).
Proof.
  unfold db_commit. intros H.
  apply bind_inv_inr in H as (u1 & s1 & H1 & H).
  apply round_trip_inr in H1 as ((T1 & T2 & T3 & T4) & Se1 & Lo1 & Fa1).
  unfold bind, gets, modify, raise in H. rewrite Se1 in H.
  destruct (distinct (dates_of (session s))); inversion H; subst; simpl.
  rewrite T4. repeat split; auto.
Qed.

Lemma db_commit_ok s :
  faults s = None -> distinct (dates_of (session s)) = true ->
  exists s', db_commit s = (inr tt, s').
Proof.
  intros F D. unfold db_commit, bind. rewrite (round_trip_ok _ _ F).
  unfold gets, modify. simpl. rewrite D. eexists. reflexivity.
Qed.

Lemma equity_data_of_tables d s s' :
  equity_curve s' = equity_curve s -> equity_data_of d s' = equity_data_of d s.
Proof. intros H. unfold equity_data_of. now rewrite H. Qed.

Lemma benchmark_returns_of_tables symbol d s s' :
  instruments s' = instruments s -> ohlc_daily s' = ohlc_daily s ->
  benchmark_returns_of symbol d s' = benchmark_returns_of symbol d s.
Proof. intros H1 H2. unfold benchmark_returns_of. now rewrite H1, H2. Qed.

Lemma pass_work_tables lib d s s' : same_tables s s' -> pass_work lib d s' = pass_work lib d s.
Proof.
  intros (A & B & C). unfold pass_work.
  rewrite (equity_data_of_tables d s s' A), (benchmark_returns_of_tables "SPY" d s s' B C).
  reflexivity.
Qed.

(** A pass that went through either had nothing to do, or updated the
    record of every day of its plan and committed them all. *)
Lemma pass_inr a lib start_date s s' :
  _recompute_analytics_from_date a lib start_date s = (inr tt, s') ->
  (pass_work lib start_date s = inr None /\ same_store s s' /\ session s' = session s)
  \/ (exists p, pass_work lib start_date s = inr (Some p)
        /\ plan_ok a start_date p (session s)
        /\ distinct (dates_of (map (plan_steps a start_date p) (session s))) = true
        /\ session s'
           = assign_ids (next_id (analytics_daily s))
                        (map (plan_steps a start_date p) (session s))
        /\ analytics_daily s' = map AnalyticsDaily.row (session s')).
Proof.
  unfold _recompute_analytics_from_date, pass_work. intros H.
  apply bind_inv_inr in H as (u & s1 & H1 & H).
  apply round_trip_inr in H1 as ((T1 & T2 & T3 & T4) & Se1 & Lo1 & Fa1).
  unfold bind at 1, gets at 1 in H.
  rewrite (equity_data_of_tables start_date s s1 T1) in H.
  destruct (equity_data_of start_date s) as [| e0 rest] eqn:Eq.
  { left. rewrite logger_run in H. inversion H; subst. simpl.
    repeat split; assumption. }
  destruct (List.length (daily_equity_of (e0 :: rest)) <? 2) eqn:Len.
  { left. rewrite logger_run in H. inversion H; subst. simpl.
    repeat split; assumption. }
  right.
  apply bind_inv_inr in H as (spy & s2 & H2 & H).
  apply benchmark_inr in H2 as (((U1 & U2 & U3 & U4) & Se2 & Lo2 & Fa2) & B).
  rewrite (benchmark_returns_of_tables "SPY" start_date s s1 T2 T3) in B.
  rewrite B.
  set (p := plan_of lib (daily_equity_of (e0 :: rest)) spy).
  exists p. split; [reflexivity |].
  apply bind_inv_inr in H as (u3 & s3 & H3 & H).
  change (for_each
            (store_day a start_date (p_returns p) (p_vol p) (p_sharpe p) (p_beta p)
                       (p_alpha p) (p_max_dd p) (p_v0 p)) (p_days p) s2 = (inr u3, s3))
    in H3.
  destruct u3.
  apply for_each_inr in H3 as (Ok & Se3 & ((V1 & V2 & V3 & V4) & Lo3 & Fa3)).
  apply bind_inv_inr in H as (u4 & s4 & H4 & H).
  rewrite logger_run in H. inversion H; subst. simpl.
  apply db_commit_inr in H4 as (D & Se4 & An4 & _).
  rewrite Se3, Se2, Se1 in *. rewrite V4, U4, T4 in Se4.
  repeat split; assumption.
Qed.

(** With the store reachable, a pass whose plan finds every record goes
    through. *)
Lemma pass_ok a lib start_date s p :
  faults s = None ->
  pass_work lib start_date s = inr (Some p) ->
  plan_ok a start_date p (session s) ->
  distinct (dates_of (map (plan_steps a start_date p) (session s))) = true ->
  exists s', _recompute_analytics_from_date a lib start_date s = (inr tt, s').
Proof.
  unfold _recompute_analytics_from_date, pass_work. intros F W Ok D.
  unfold bind at 1. rewrite (round_trip_ok _ _ F).
  set (s1 := with_trace (trace s ++ [SelectEquity]) s).
  unfold bind at 1, gets at 1.
  change (equity_data_of start_date s1) with (equity_data_of start_date s).
  destruct (equity_data_of start_date s) as [| e0 rest] eqn:Eq; [discriminate |].
  destruct (List.length (daily_equity_of (e0 :: rest)) <? 2) eqn:Len; [discriminate |].
  destruct (benchmark_ok "SPY" start_date s1 F) as (s2 & H2 & (_ & Se2 & _ & Fa2)).
  change (benchmark_returns_of "SPY" start_date s1)
    with (benchmark_returns_of "SPY" start_date s) in H2.
  destruct (benchmark_returns_of "SPY" start_date s) as [x | spy]; [discriminate |].
  inversion W as [P]. clear W.
  unfold bind at 1. rewrite H2.
  set (q := plan_of lib (daily_equity_of (e0 :: rest)) spy) in *.
  change (exists s',
    (for_each (store_day a start_date (p_returns q) (p_vol q) (p_sharpe q) (p_beta q)
                         (p_alpha q) (p_max_dd q) (p_v0 q)) (p_days q) ;;;
     db_commit ;;; logger INFO "Analytics updated") s2 = (inr tt, s')).
  subst p.
  destruct (for_each_ok a start_date (p_returns q) (p_vol q) (p_sharpe q) (p_beta q)
              (p_alpha q) (p_max_dd q) (p_v0 q) (p_days q) s2 (Fa2 F)) as (s3 & H3).
  { rewrite Se2. exact Ok. }
  pose proof (for_each_inr _ _ _ _ _ _ _ _ _ _ _ _ H3) as (_ & Se3 & (_ & _ & Fa3)).
  destruct (db_commit_ok s3 (Fa3 (Fa2 F))) as (s4 & H4).
  { rewrite Se3, Se2. exact D. }
  unfold bind at 1. rewrite H3. unfold bind at 1. rewrite H4.
  eexists. apply logger_run.
Qed.

(** ** Which columns a pass writes *)

Lemma assign_head_row v return_val o :
  AnalyticsDaily.row (assign (head_values v return_val) o) = AnalyticsDaily.row o.
Proof. reflexivity. Qed.

Lemma assign_rest_row cr max_dd vol sharpe beta alpha o :
  AnalyticsDaily.row (assign (rest_values cr max_dd vol sharpe beta alpha) o)
  = with_rolling (float_or_none vol) (float_or_none sharpe) (float_or_none beta)
                 (float_or_none alpha) (AnalyticsDaily.row o).
Proof. reflexivity. Qed.

Lemma day_update_row a dr rv rs be al max_dd v0 e o :
  AnalyticsDaily.row (day_update a dr rv rs be al max_dd v0 e o)
  = match truediv a (snd (snd e)) v0 with
    | inr _ =>
        with_rolling (float_or_none (iloc_or_none rv (fst e)))
                     (float_or_none (iloc_or_none rs (fst e)))
                     (float_or_none (iloc_or_none be (fst e)))
                     (float_or_none (iloc_or_none al (fst e))) (AnalyticsDaily.row o)
    | inl _ => AnalyticsDaily.row o
    end.
Proof.
  unfold day_update. destruct (truediv a (snd (snd e)) v0); reflexivity.
Qed.

Lemma alike_refl o : alike o o.
Proof. split; reflexivity. Qed.

Lemma alike_sym o o' : alike o o' -> alike o' o.
Proof. intros (A & B). split; congruence. Qed.

Lemma alike_trans o1 o2 o3 : alike o1 o2 -> alike o2 o3 -> alike o1 o3.
Proof. intros (A & B) (A' & B'). split; congruence. Qed.

Lemma alike_dated d o o' : alike o o' -> dated d o = dated d o'.
Proof.
  intros (A & B). unfold dated, kept in *. inversion B. now rewrite A, H1.
Qed.

Section RowFacts.

Variable a : arith.
Variable start_date : Z.
Variables daily_returns rolling_vol rolling_sharpe beta alpha : Series.
Variable max_dd : cell.
Variable v0 : Q.

Local Abbreviation step :=
  (day_step a start_date daily_returns rolling_vol rolling_sharpe beta alpha max_dd v0).
Local Abbreviation update :=
  (day_update a daily_returns rolling_vol rolling_sharpe beta alpha max_dd v0).
Local Abbreviation all_steps :=
  (steps a start_date daily_returns rolling_vol rolling_sharpe beta alpha max_dd v0).

Lemma day_update_alike e o : alike (update e o) o.
Proof.
  split.
  - apply day_update_shape.
  - rewrite day_update_row. destruct (truediv a (snd (snd e)) v0); reflexivity.
Qed.

Lemma day_step_alike e o : alike (step e o) o.
Proof.
  unfold day_step.
  destruct (fst (snd e) <? start_date)%Z; [apply alike_refl |].
  destruct (dated (fst (snd e)) o); [apply day_update_alike | apply alike_refl].
Qed.

(** On two objects that agree outside the rolling columns, a day leaves
    equal rows, or it leaves both rows as they were. *)
Lemma day_step_rows e o o' :
  alike o o' ->
  AnalyticsDaily.row (step e o) = AnalyticsDaily.row (step e o')
  \/ (AnalyticsDaily.row (step e o) = AnalyticsDaily.row o
      /\ AnalyticsDaily.row (step e o') = AnalyticsDaily.row o').
Proof.
  intros L. unfold day_step.
  destruct (fst (snd e) <? start_date)%Z; [right; split; reflexivity |].
  rewrite <- (alike_dated (fst (snd e)) o o' L).
  destruct (dated (fst (snd e)) o); [| right; split; reflexivity].
  rewrite !day_update_row.
  destruct (truediv a (snd (snd e)) v0); [right; split; reflexivity |].
  left. destruct L as (_ & K). unfold kept in K. inversion K.
  unfold with_rolling. congruence.
Qed.

Lemma steps_alike es o : alike (all_steps es o) o.
Proof.
  unfold steps. revert o. induction es as [| e rest IH]; intros o; simpl.
  - apply alike_refl.
  - eapply alike_trans; [apply IH | apply day_step_alike].
Qed.

Lemma steps_rows es o o' :
  alike o o' ->
  AnalyticsDaily.row (all_steps es o) = AnalyticsDaily.row (all_steps es o')
  \/ (AnalyticsDaily.row (all_steps es o) = AnalyticsDaily.row o
      /\ AnalyticsDaily.row (all_steps es o') = AnalyticsDaily.row o').
Proof.
  unfold steps. revert o o'.
  induction es as [| e rest IH]; intros o o' L; simpl.
  - right. split; reflexivity.
  - assert (L1 : alike (step e o) (step e o')).
    { eapply alike_trans; [apply day_step_alike |].
      eapply alike_trans; [exact L |]. apply alike_sym, day_step_alike. }
    destruct (IH _ _ L1) as [Eq | (E1 & E2)]; [left; exact Eq |].
    rewrite E1, E2. apply day_step_rows. exact L.
Qed.

End RowFacts.

Lemma loaded_alike r r' :
  kept r = kept r' -> alike (AnalyticsDaily.loaded r) (AnalyticsDaily.loaded r').
Proof. intros H. split; [reflexivity | exact H]. Qed.

Lemma pass_row_kept a d p r : kept (pass_row a d p r) = kept r.
Proof. unfold pass_row, plan_steps. apply steps_alike. Qed.

(** Writing the rows of a pass over its own result changes nothing. *)
Lemma pass_row_idempotent a d p r :
  pass_row a d p (pass_row a d p r) = pass_row a d p r.
Proof.
  unfold pass_row at 1 3. unfold plan_steps.
  destruct (steps_rows a d (p_returns p) (p_vol p) (p_sharpe p) (p_beta p) (p_alpha p)
              (p_max_dd p) (p_v0 p) (p_days p)
              (AnalyticsDaily.loaded (pass_row a d p r)) (AnalyticsDaily.loaded r))
    as [Eq | (E1 & _)].
  - apply loaded_alike, pass_row_kept.
  - exact Eq.
  - rewrite E1. reflexivity.
Qed.

(** ** The pass in its session *)

Lemma assign_ids_persistent n os :
  (forall o, In o os -> AnalyticsDaily.persistent o = true) -> assign_ids n os = os.
Proof.
  revert n. induction os as [| o rest IH]; intros n H; simpl; [reflexivity |].
  rewrite (H o (or_introl eq_refl)). f_equal. apply IH.
  intros o' Ho'. apply H. now right.
Qed.

Lemma plan_steps_persistent a d p o :
  AnalyticsDaily.persistent (plan_steps a d p o) = AnalyticsDaily.persistent o.
Proof. unfold plan_steps. apply steps_alike. Qed.

Lemma plan_steps_date a d p o :
  AnalyticsDaily.date (AnalyticsDaily.row (plan_steps a d p o))
  = AnalyticsDaily.date (AnalyticsDaily.row o).
Proof.
  unfold plan_steps.
  destruct (steps_alike a d (p_returns p) (p_vol p) (p_sharpe p) (p_beta p) (p_alpha p)
              (p_max_dd p) (p_v0 p) (p_days p) o) as (_ & K).
  unfold kept in K. now inversion K.
Qed.

Lemma committed_rows a d p n rows :
  map AnalyticsDaily.row
      (assign_ids n (map (plan_steps a d p) (map AnalyticsDaily.loaded rows)))
  = map (pass_row a d p) rows.
Proof.
  rewrite assign_ids_persistent.
  - rewrite !map_map. reflexivity.
  - intros o Ho. rewrite map_map in Ho. apply in_map_iff in Ho as (r & <- & _).
    now rewrite plan_steps_persistent.
Qed.

Lemma dates_after_steps a d p rows :
  dates_of (map (plan_steps a d p) (map AnalyticsDaily.loaded rows))
  = map AnalyticsDaily.date rows.
Proof.
  unfold dates_of. rewrite !map_map. apply map_ext. intros r.
  now rewrite plan_steps_date.
Qed.

Lemma pass_row_date a d p r :
  AnalyticsDaily.date (pass_row a d p r) = AnalyticsDaily.date r.
Proof. pose proof (pass_row_kept a d p r) as K. unfold kept in K. now inversion K. Qed.

Lemma dates_after_pass a d p rows :
  map AnalyticsDaily.date (map (pass_row a d p) rows) = map AnalyticsDaily.date rows.
Proof. rewrite map_map. apply map_ext. intros r. apply pass_row_date. Qed.

(** The records a pass has written let the same pass go through again. *)
Lemma plan_ok_after_pass a d p q rows :
  plan_ok a d p (map AnalyticsDaily.loaded rows) ->
  plan_ok a d p (map AnalyticsDaily.loaded (map (pass_row a d q) rows)).
Proof.
  intros H e He. specialize (H e He). unfold day_ok in *.
  rewrite map_map.
  rewrite <- (map_map AnalyticsDaily.loaded
                (fun o => AnalyticsDaily.loaded (pass_row a d q (AnalyticsDaily.row o)))).
  rewrite matches_map; [exact H |].
  intros o Ho. apply in_map_iff in Ho as (r & <- & _).
  unfold dated. simpl. now rewrite pass_row_date.
Qed.

Lemma SessionLocal_tables fault s : same_store s (SessionLocal fault s).
Proof. repeat split. Qed.

Lemma RecomputeFrom_tables a lib fault d s :
  same_tables s (snd (RecomputeFrom a lib fault d s)).
Proof.
  unfold RecomputeFrom.
  destruct (_recompute_analytics_from_date a lib d (SessionLocal fault s))
    as [[e | u] s1] eqn:E;
    apply pass_has_effect in E as ((T1 & T2 & T3) & _); repeat split; assumption.
Qed.

Lemma pass_commits_store a lib d s s' p :
  same_store s s' -> pass_commits a lib d s p -> pass_commits a lib d s' p.
Proof.
  intros (T1 & T2 & T3 & T4) (W & Ok & D). unfold pass_commits.
  rewrite (pass_work_tables lib d s s'), T4 by (repeat split; assumption).
  repeat split; assumption.
Qed.

(** In a session that has nothing pending, a pass leaves the records as
    they were or writes every day of its plan; when it raises, it is
    the former. *)
Lemma session_pass_effect a lib d db r db' :
  session db = map AnalyticsDaily.loaded (analytics_daily db) ->
  _recompute_analytics_from_date a lib d db = (r, db') ->
  (forall e, r = inl e -> analytics_daily db' = analytics_daily db)
  /\ (analytics_daily db' = analytics_daily db
      \/ exists p, pass_commits a lib d db p /\ r = inr tt
                   /\ analytics_daily db' = map (pass_row a d p) (analytics_daily db)).
Proof.
  intros Fresh E. destruct r as [e | []].
  - apply pass_has_effect in E as (_ & _ & K).
    split; [intros _ _ | left]; apply (K e eq_refl).
  - split; [intros e He; discriminate |].
    apply pass_inr in E as [(_ & (_ & _ & _ & A) & _) | (p & W & Ok & D & Se & An)].
    + left. exact A.
    + right. exists p. rewrite Fresh in *.
      rewrite dates_after_steps in D.
      split; [repeat split; assumption |]. split; [reflexivity |].
      rewrite An, Se. apply committed_rows.
Qed.

(** With the store reachable the pass goes through exactly when tables
    and records allow it. *)
Lemma session_pass_reachable a lib d db r db' :
  session db = map AnalyticsDaily.loaded (analytics_daily db) ->
  faults db = None ->
  _recompute_analytics_from_date a lib d db = (r, db') ->
  (exists p, pass_commits a lib d db p /\ r = inr tt
             /\ analytics_daily db' = map (pass_row a d p) (analytics_daily db))
  \/ ((forall p, ~ pass_commits a lib d db p)
      /\ analytics_daily db' = analytics_daily db).
Proof.
  intros Fresh F E. destruct r as [e | []].
  - right. split.
    + intros p (W & Ok & D).
      destruct (pass_ok a lib d db p F W) as (s' & H).
      { rewrite Fresh. exact Ok. }
      { rewrite Fresh, dates_after_steps. exact D. }
      rewrite H in E. discriminate.
    + apply pass_has_effect in E as (_ & _ & K). apply (K e eq_refl).
  - apply pass_inr in E as [(W & (_ & _ & _ & A) & _) | (p & W & Ok & D & Se & An)].
    + right. split; [| exact A].
      intros p (W' & _). congruence.
    + left. exists p. rewrite Fresh in *. rewrite dates_after_steps in D.
      split; [repeat split; assumption |]. split; [reflexivity |].
      rewrite An, Se. apply committed_rows.
Qed.

(** Two passes from the same date over the same tables, each in a fresh
    session with the store reachable, the second over the records the
    first one left: the second leaves them as they are. *)
Lemma second_pass_changes_nothing a lib d db1 r1 db1' db2 r2 db2' :
  session db1 = map AnalyticsDaily.loaded (analytics_daily db1) ->
  session db2 = map AnalyticsDaily.loaded (analytics_daily db2) ->
  faults db1 = None -> faults db2 = None ->
  _recompute_analytics_from_date a lib d db1 = (r1, db1') ->
  _recompute_analytics_from_date a lib d db2 = (r2, db2') ->
  same_tables db1 db2 ->
  analytics_daily db2 = analytics_daily db1' ->
  analytics_daily db2' = analytics_daily db2.
Proof.
  intros Fr1 Fr2 F1 F2 E1 E2 (T1 & T2 & T3) A.
  assert (W : forall q, pass_work lib d db2 = inr (Some q)
                        -> pass_work lib d db1 = inr (Some q)).
  { intros q. rewrite (pass_work_tables lib d db1 db2) by (repeat split; assumption).
    auto. }
  destruct (session_pass_reachable a lib d db2 r2 db2' Fr2 F2 E2)
    as [(q & (W2 & Ok2 & D2) & _ & A2) | (_ & Same)]; [| exact Same].
  destruct (session_pass_reachable a lib d db1 r1 db1' Fr1 F1 E1)
    as [(p & (W1 & Ok1 & D1) & _ & A1) | (No & Same1)].
  - assert (q = p) by (apply W in W2; congruence). subst q.
    rewrite A2, A, A1, map_map. apply map_ext. intros r.
    apply pass_row_idempotent.
  - exfalso. apply (No q). rewrite A, Same1 in *.
    repeat split; auto.
Qed.

Lemma recompute_from_event_run a lib retries fault ty iid t s :
  recompute_from_event a lib retries fault ty iid t s
  = match _recompute_analytics_from_date a lib (date_of t)
            (with_log (log s ++ [(INFO, "Processing event")]) (SessionLocal fault s)) with
    | (inr _, db') =>
        (Returned,
         db_close (with_log (log db' ++ [(INFO, "Successfully processed event")]) db'))
    | (inl e, db') =>
        (self_retry retries e (2 ^ retries),
         db_close (db_rollback
                     (with_log (log db' ++ [(ERROR, "Error processing event")]) db')))
    end.
Proof.
  unfold recompute_from_event, recompute_from_event_try, bind. rewrite logger_run.
  change (log (SessionLocal fault s)) with (log s).
  destruct (_recompute_analytics_from_date a lib (date_of t)
              (with_log (log s ++ [(INFO, "Processing event")]) (SessionLocal fault s)))
    as [[e | u] s1]; reflexivity.
Qed.

Lemma RecomputeFrom_facts a lib fault d s :
  exists r db',
    _recompute_analytics_from_date a lib d (SessionLocal fault s) = (r, db')
    /\ fst (RecomputeFrom a lib fault d s) = r
    /\ analytics_daily (snd (RecomputeFrom a lib fault d s)) = analytics_daily db'
    /\ same_tables s (snd (RecomputeFrom a lib fault d s)).
Proof.
  unfold RecomputeFrom.
  destruct (_recompute_analytics_from_date a lib d (SessionLocal fault s))
    as [r db'] eqn:E.
  exists r, db'. split; [reflexivity |].
  pose proof (pass_has_effect _ _ _ _ _ _ E) as ((X1 & X2 & X3) & _).
  destruct r; repeat split; assumption.
Qed.

Lemma recompute_from_event_facts a lib k fault ty iid t s :
  exists r db',
    _recompute_analytics_from_date a lib (date_of t)
      (with_log (log s ++ [(INFO, "Processing event")]) (SessionLocal fault s)) = (r, db')
    /\ fst (recompute_from_event a lib k fault ty iid t s)
       = match r with inr _ => Returned | inl e => self_retry k e (2 ^ k) end
    /\ analytics_daily (snd (recompute_from_event a lib k fault ty iid t s))
       = analytics_daily db'
    /\ same_tables s (snd (recompute_from_event a lib k fault ty iid t s)).
Proof.
  rewrite recompute_from_event_run.
  destruct (_recompute_analytics_from_date a lib (date_of t)
              (with_log (log s ++ [(INFO, "Processing event")]) (SessionLocal fault s)))
    as [r db'] eqn:E.
  exists r, db'. split; [reflexivity |].
  pose proof (pass_has_effect _ _ _ _ _ _ E) as ((X1 & X2 & X3) & _).
  destruct r; repeat split; assumption.
Qed.

Lemma RecomputeFrom_twice a lib d s :
  analytics_daily (snd (RecomputeFrom a lib None d (snd (RecomputeFrom a lib None d s))))
  = analytics_daily (snd (RecomputeFrom a lib None d s)).
Proof.
  destruct (RecomputeFrom_facts a lib None d s) as (r1 & db1' & E1 & _ & A1 & T1).
  set (s1 := snd (RecomputeFrom a lib None d s)) in *.
  destruct (RecomputeFrom_facts a lib None d s1) as (r2 & db2' & E2 & _ & A2 & _).
  rewrite A2.
  exact (second_pass_changes_nothing a lib d
           (SessionLocal None s) r1 db1' (SessionLocal None s1) r2 db2'
           eq_refl eq_refl eq_refl eq_refl E1 E2 T1 A1).
Qed.

Lemma recompute_from_event_twice a lib k1 k2 ty1 ty2 iid1 iid2 t s :
  analytics_daily
    (snd (recompute_from_event a lib k2 None ty2 iid2 t
            (snd (recompute_from_event a lib k1 None ty1 iid1 t s))))
  = analytics_daily (snd (recompute_from_event a lib k1 None ty1 iid1 t s)).
Proof.
  destruct (recompute_from_event_facts a lib k1 None ty1 iid1 t s)
    as (r1 & db1' & E1 & _ & A1 & T1).
  set (s1 := snd (recompute_from_event a lib k1 None ty1 iid1 t s)) in *.
  destruct (recompute_from_event_facts a lib k2 None ty2 iid2 t s1)
    as (r2 & db2' & E2 & _ & A2 & _).
  rewrite A2.
  exact (second_pass_changes_nothing a lib (date_of t)
           (with_log (log s ++ [(INFO, "Processing event")]) (SessionLocal None s))
           r1 db1'
           (with_log (log s1 ++ [(INFO, "Processing event")]) (SessionLocal None s1))
           r2 db2'
           eq_refl eq_refl eq_refl eq_refl E1 E2 T1 A1).
Qed.

(** C3. Running RecomputeFrom(d) a second time over unchanged equity
    and benchmark data leaves the analytics store as the first run left
    it: every AnalyticsRecord is the same after the second run as after
    the first.  The pass never writes the equity or benchmark tables,
    so the data is unchanged between the runs; the store is reachable in
    both.  The first half is the pass in a session of its own, the
    second the event task that runs it, for any retry counts and event
    arguments of the two runs. *)
Theorem C3_second_run_leaves_store_unchanged :
  forall (a : arith) (lib : core_analytics) (s : State),
    (forall d : Z,
        analytics_daily
          (snd (RecomputeFrom a lib None d (snd (RecomputeFrom a lib None d s))))
        = analytics_daily (snd (RecomputeFrom a lib None d s)))
    /\ (forall (t : Z) (k1 k2 : nat) (ty1 ty2 : string) (iid1 iid2 : option string),
           analytics_daily
             (snd (recompute_from_event a lib k2 None ty2 iid2 t
                     (snd (recompute_from_event a lib k1 None ty1 iid1 t s))))
           = analytics_daily (snd (recompute_from_event a lib k1 None ty1 iid1 t s))).
Proof.
  intros a lib s. split.
  - intros d. apply RecomputeFrom_twice.
  - intros t k1 k2 ty1 ty2 iid1 iid2. apply recompute_from_event_twice.
Qed.

Lemma RecomputeFrom_trace a lib fault d s :
  exists ops, one_pass ops
    /\ ((fst (RecomputeFrom a lib fault d s) = inr tt
         /\ trace (snd (RecomputeFrom a lib fault d s)) = trace s ++ ops)
        \/ (exists e, fst (RecomputeFrom a lib fault d s) = inl e
                      /\ trace (snd (RecomputeFrom a lib fault d s))
                         = trace s ++ ops ++ [Rollback])).
Proof.
  unfold RecomputeFrom.
  destruct (_recompute_analytics_from_date a lib d (SessionLocal fault s))
    as [[e | []] db'] eqn:E;
    pose proof (pass_has_effect _ _ _ _ _ _ E) as (_ & (ops & Mk & One) & _);
    exists ops; (split; [exact One |]); unfold made in Mk; simpl in *.
  - right. exists e. split; [reflexivity |]. rewrite Mk, <- app_assoc. reflexivity.
  - left. split; [reflexivity | exact Mk].
Qed.

Lemma RecomputeFrom_all_or_nothing a lib fault d s :
  (forall e, fst (RecomputeFrom a lib fault d s) = inl e ->
             analytics_daily (snd (RecomputeFrom a lib fault d s)) = analytics_daily s)
  /\ (analytics_daily (snd (RecomputeFrom a lib fault d s)) = analytics_daily s
      \/ exists p, pass_commits a lib d s p
                   /\ analytics_daily (snd (RecomputeFrom a lib fault d s))
                      = map (pass_row a d p) (analytics_daily s)).
Proof.
  destruct (RecomputeFrom_facts a lib fault d s) as (r & db' & E & R & A & _).
  destruct (session_pass_effect a lib d (SessionLocal fault s) r db' eq_refl E)
    as (K1 & K2).
  rewrite R, A. split; [exact K1 |].
  destruct K2 as [Same | (p & C & _ & All)]; [left; exact Same |].
  right. exists p. split; [exact C | exact All].
Qed.

Lemma recompute_from_event_failure a lib k fault ty iid t s :
  fst (recompute_from_event a lib k fault ty iid t s) <> Returned ->
  analytics_daily (snd (recompute_from_event a lib k fault ty iid t s)) = analytics_daily s
  /\ exists e, fst (recompute_from_event a lib k fault ty iid t s)
               = self_retry k e (2 ^ k).
Proof.
  destruct (recompute_from_event_facts a lib k fault ty iid t s)
    as (r & db' & E & R & A & _).
  rewrite R, A. intros N. destruct r as [e | u]; [| congruence].
  apply pass_has_effect in E as (_ & _ & K).
  split; [apply (K e eq_refl) | exists e; reflexivity].
Qed.

(** C4. A recomputation pass commits its per-date upserts as one batch
    or not at all.  Whatever fails and wherever (the fault plan is any),
    a pass that raises is rolled back and leaves the persisted records
    exactly as they were; after any pass the records are either as they
    were or every day of the plan has been written.  The pass loads the
    equity history once and commits at most once, as its last round
    trip: it does not run itself again; the event task that runs it
    hands a failed pass to Celery through [self.retry]. *)
Theorem C4_pass_commits_every_day_or_none :
  forall (a : arith) (lib : core_analytics) (fault : option nat) (d : Z) (s : State),
    (forall e, fst (RecomputeFrom a lib fault d s) = inl e ->
               analytics_daily (snd (RecomputeFrom a lib fault d s)) = analytics_daily s)
    /\ (analytics_daily (snd (RecomputeFrom a lib fault d s)) = analytics_daily s
        \/ exists p, pass_commits a lib d s p
                     /\ analytics_daily (snd (RecomputeFrom a lib fault d s))
                        = map (pass_row a d p) (analytics_daily s))
    /\ (exists ops, one_pass ops
          /\ ((fst (RecomputeFrom a lib fault d s) = inr tt
               /\ trace (snd (RecomputeFrom a lib fault d s)) = trace s ++ ops)
              \/ (exists e, fst (RecomputeFrom a lib fault d s) = inl e
                            /\ trace (snd (RecomputeFrom a lib fault d s))
                               = trace s ++ ops ++ [Rollback])))
    /\ (forall (k : nat) (ty : string) (iid : option string) (t : Z),
           fst (recompute_from_event a lib k fault ty iid t s) <> Returned ->
           analytics_daily (snd (recompute_from_event a lib k fault ty iid t s))
           = analytics_daily s
           /\ exists e, fst (recompute_from_event a lib k fault ty iid t s)
                        = self_retry k e (2 ^ k)).
Proof.
  intros a lib fault d s.
  destruct (RecomputeFrom_all_or_nothing a lib fault d s) as (K1 & K2).
  split; [exact K1 |]. split; [exact K2 |].
  split; [apply RecomputeFrom_trace |].
  intros k ty iid t. apply recompute_from_event_failure.
Qed.

(** ** The names the pass writes and the columns of the model *)

Ltac decide_names :=
  repeat match goal with
         | H : In _ (_ :: _) |- _ => destruct H as [<- | H]
         | H : In _ [] |- _ => destruct H
         end;
  repeat split; simpl; try reflexivity; intuition discriminate.

Lemma unmapped_names k :
  In k ["total_equity"; "daily_return"; "cumulative_return"; "max_drawdown"] ->
  In k written_names /\ ~ In k AnalyticsDaily.columns /\ AnalyticsDaily.hasattr k = false.
Proof. intros H. decide_names. Qed.

Lemma unwritten_columns k :
  In k ["return_pct"; "cum_return"; "drawdown"] ->
  In k AnalyticsDaily.columns /\ ~ In k written_names.
Proof. intros H. decide_names. Qed.

(** A day that reaches the insert branch raises and adds nothing. *)
Lemma store_day_insert_raises a start_date dr rv rs be al max_dd v0 e s :
  (fst (snd e) <? start_date)%Z = false ->
  matches (fst (snd e)) (session s) = [] ->
  exists x s',
    store_day a start_date dr rv rs be al max_dd v0 e s = (inl x, s')
    /\ session s' = session s /\ analytics_daily s' = analytics_daily s.
Proof.
  intros Skip Nil. unfold store_day. rewrite Skip. unfold bind at 1.
  destruct (select_analytics (fst (snd e)) s) as [[x | found] s1] eqn:Sel.
  - exists x, s1. split; [reflexivity |].
    unfold select_analytics in Sel.
    apply bind_inv_inl in Sel as [R | (u & s2 & R & K)].
    + apply round_trip_made in R as ((_ & _ & _ & A) & _ & _ & Se). auto.
    + apply round_trip_made in R as ((_ & _ & _ & A) & _ & _ & Se).
      unfold bind, gets, lift in K. fold (matches (fst (snd e)) (session s2)) in K.
      rewrite Se, Nil in K. discriminate.
  - apply select_analytics_inr in Sel as (((_ & _ & _ & A) & Se & _) & Sc).
    rewrite Nil in Sc. inversion Sc; subst found.
    unfold bind, lift.
    destruct (truediv a (snd (snd e)) v0) as [x | cr]; simpl.
    + exists x, s1. auto.
    + exists (TypeError "total_equity"), s1. auto.
Qed.

(** C9. The names the pass writes are not the columns of the model:
    [total_equity], [daily_return], [cumulative_return] and
    [max_drawdown] are written and are no attributes of
    [AnalyticsDaily]; [return_pct], [cum_return] and [drawdown] are
    columns and are never written; only the four rolling columns are
    both.  So the constructor call of the insert branch raises
    [TypeError] whatever the values, a day that reaches the insert
    branch raises and adds no record, and the update branch leaves
    [return_pct], [cum_return] and [drawdown] (with [id] and [date]) as
    they were, its first four values ending as plain attributes of the
    object. *)
Theorem C9_written_names_are_not_the_columns :
  (forall v return_val cr max_dd vol sharpe beta alpha,
      map fst (head_values v return_val
               ++ rest_values cr max_dd vol sharpe beta alpha) = written_names)
  /\ (forall k,
         In k ["total_equity"; "daily_return"; "cumulative_return"; "max_drawdown"] ->
         In k written_names /\ ~ In k AnalyticsDaily.columns
         /\ AnalyticsDaily.hasattr k = false)
  /\ (forall k, In k ["return_pct"; "cum_return"; "drawdown"] ->
                In k AnalyticsDaily.columns /\ ~ In k written_names)
  /\ (forall k, In k written_names -> In k AnalyticsDaily.columns ->
                In k ["volatility_20d"; "sharpe_60d"; "beta_spy_60d"; "alpha_spy_60d"])
  /\ (forall d v return_val cr max_dd vol sharpe beta alpha,
         AnalyticsDaily.new d (head_values v return_val
                               ++ rest_values cr max_dd vol sharpe beta alpha)
         = inl (TypeError "total_equity"))
  /\ (forall a start_date dr rv rs be al max_dd v0 e s,
         (fst (snd e) <? start_date)%Z = false ->
         matches (fst (snd e)) (session s) = [] ->
         exists x s',
           store_day a start_date dr rv rs be al max_dd v0 e s = (inl x, s')
           /\ session s' = session s /\ analytics_daily s' = analytics_daily s)
  /\ (forall a dr rv rs be al max_dd v0 e o cr,
         truediv a (snd (snd e)) v0 = inr cr ->
         let o' := day_update a dr rv rs be al max_dd v0 e o in
         kept (AnalyticsDaily.row o') = kept (AnalyticsDaily.row o)
         /\ AnalyticsDaily.getattr "total_equity" o' = Some (Some (Fin (snd (snd e))))
         /\ AnalyticsDaily.getattr "daily_return" o'
            = Some (float_or_none (iloc_or_none dr (fst e)))
         /\ AnalyticsDaily.getattr "cumulative_return" o' = Some (Some (minus_one cr))
         /\ AnalyticsDaily.getattr "max_drawdown" o' = Some max_dd).
Proof.
  split; [reflexivity |].
  split; [exact unmapped_names |].
  split; [exact unwritten_columns |].
  split; [intros k H1 H2; unfold written_names, AnalyticsDaily.columns,
            AnalyticsDaily.numeric_columns in *; simpl in *;
          intuition (subst; try discriminate; auto) |].
  split; [intros; apply new_rejects |].
  split; [intros; now apply store_day_insert_raises |].
  intros a dr rv rs be al max_dd v0 e o cr Div o'.
  split; [apply day_update_alike |].
  subst o'. unfold day_update. rewrite Div. repeat split.
Qed.

(** ** The time-triggered tasks *)

Lemma recompute_all_analytics_try_failure a lib db e db' :
  recompute_all_analytics_try a lib db = (inl e, db') ->
  analytics_daily db' = analytics_daily db.
Proof.
  unfold recompute_all_analytics_try, bind. rewrite logger_run.
  match goal with
  | |- context [round_trip SelectEarliestEquity ?x] =>
      destruct (round_trip SelectEarliestEquity x) as [[e1 | u] s1] eqn:R
  end.
  - intros H. inversion H; subst.
    apply round_trip_made in R as ((_ & _ & _ & A) & _). exact A.
  - apply round_trip_made in R as ((_ & _ & _ & A) & _).
    unfold gets. destruct (earliest_time (equity_curve s1)) as [t |].
    + destruct (_recompute_analytics_from_date a lib (date_of t) s1)
        as [[e2 | u2] s2] eqn:P; intros H; inversion H; subst.
      apply pass_has_effect in P as (_ & _ & K). rewrite (K e eq_refl). exact A.
    + intros H. inversion H.
Qed.

Lemma deliver_settled n (body : task_body) plan k s :
  (forall c, fst (body k (plan k) s) <> RetryRequested c) ->
  deliver (S n) body plan k s
  = Some ({| attempts := 1; countdowns := []; final := fst (body k (plan k) s) |},
          snd (body k (plan k) s)).
Proof.
  intros H. simpl. destruct (body k (plan k) s) as [[| c |e] s']; simpl in *;
    try reflexivity.
  exfalso. now apply (H c).
Qed.

Lemma deliver_retried n (body : task_body) plan k s c :
  fst (body k (plan k) s) = RetryRequested c ->
  deliver (S n) body plan k s
  = match deliver n body plan (S k) (snd (body k (plan k) s)) with
    | Some (d, s'') =>
        Some ({| attempts := S (attempts d); countdowns := c :: countdowns d;
                 final := final d |}, s'')
    | None => None
    end.
Proof.
  intros H. simpl. destruct (body k (plan k) s) as [o s']; simpl in *.
  subst o. reflexivity.
Qed.

(** C10. The time-triggered tasks [recompute_all_analytics] and
    [update_benchmarks_daily] end normally whatever happens in their
    [try] block: each exception is caught, logged as an error and the
    session rolled back (a failed full recomputation leaves the records
    as they were), and nothing is raised again.  So the worker settles
    each of them after one execution, with no retry, and the beat
    schedule holds just these two tasks; of the tasks of the engine only
    [recompute_from_event] asks for a retry. *)
Theorem C10_time_triggered_tasks_swallow_failures :
  forall (a : arith) (lib : core_analytics) (fetch : M unit),
    (forall fault s, fst (recompute_all_analytics a lib fault s) = Returned)
    /\ (forall fault s, fst (update_benchmarks_daily fetch fault s) = Returned)
    /\ (forall fault s e db',
           recompute_all_analytics_try a lib (SessionLocal fault s) = (inl e, db') ->
           analytics_daily (snd (recompute_all_analytics a lib fault s)) = analytics_daily s
           /\ log (snd (recompute_all_analytics a lib fault s))
              = log db' ++ [(ERROR, "Error in full recomputation")]
           /\ trace (snd (recompute_all_analytics a lib fault s))
              = trace db' ++ [Rollback])
    /\ (forall fault s e db',
           update_benchmarks_daily_try fetch (SessionLocal fault s) = (inl e, db') ->
           log (snd (update_benchmarks_daily fetch fault s))
           = log db' ++ [(ERROR, "Error updating benchmarks")]
           /\ trace (snd (update_benchmarks_daily fetch fault s))
              = trace db' ++ [Rollback])
    /\ (forall fuel plan k s,
           deliver (S fuel) (fun _ fault => recompute_all_analytics a lib fault) plan k s
           = Some ({| attempts := 1; countdowns := []; final := Returned |},
                   snd (recompute_all_analytics a lib (plan k) s)))
    /\ (forall fuel plan k s,
           deliver (S fuel) (fun _ fault => update_benchmarks_daily fetch fault) plan k s
           = Some ({| attempts := 1; countdowns := []; final := Returned |},
                   snd (update_benchmarks_daily fetch (plan k) s)))
    /\ map (fun entry => fst (snd entry)) beat_schedule
       = ["workers.tasks.update_benchmarks_daily";
          "workers.tasks.recompute_all_analytics"]
    /\ (exists s,
           fst (recompute_from_event a lib 0 None "equity" None 0 s) = RetryRequested 1).
Proof.
  intros a lib fetch.
  assert (All : forall fault s, fst (recompute_all_analytics a lib fault s) = Returned).
  { intros fault s. unfold recompute_all_analytics.
    destruct (recompute_all_analytics_try a lib (SessionLocal fault s)) as [[e | u] db'];
      reflexivity. }
  assert (Upd : forall fault s, fst (update_benchmarks_daily fetch fault s) = Returned).
  { intros fault s. unfold update_benchmarks_daily.
    destruct (update_benchmarks_daily_try fetch (SessionLocal fault s)) as [[e | u] db'];
      reflexivity. }
  split; [exact All |]. split; [exact Upd |].
  split.
  { intros fault s e db' H. unfold recompute_all_analytics. rewrite H. simpl.
    split; [| split; reflexivity].
    apply recompute_all_analytics_try_failure in H. exact H. }
  split.
  { intros fault s e db' H. unfold update_benchmarks_daily. rewrite H. simpl.
    split; reflexivity. }
  split.
  { intros fuel plan k s.
    rewrite deliver_settled by (intros c; rewrite All; discriminate).
    now rewrite All. }
  split.
  { intros fuel plan k s.
    rewrite deliver_settled by (intros c; rewrite Upd; discriminate).
    now rewrite Upd. }
  split; [reflexivity |].
  exists Sample.unrecorded.
  destruct (recompute_from_event_facts a lib 0 None "equity" None 0 Sample.unrecorded)
    as (r & db' & E & R & _).
  rewrite R. clear R.
  destruct a; vm_compute in E; inversion E; reflexivity.
Qed.

(** ** The event-triggered task under the worker *)

Lemma event_attempt_cases a lib ty iid t k f s :
  fst (event_body a lib ty iid t k f s) = Returned
  \/ (k < max_retries /\ fst (event_body a lib ty iid t k f s) = RetryRequested (2 ^ k))
  \/ (max_retries <= k /\ exists e, fst (event_body a lib ty iid t k f s) = Raised e).
Proof.
  unfold event_body.
  destruct (recompute_from_event_facts a lib k f ty iid t s) as (r & db' & _ & R & _).
  rewrite R. destruct r as [e | u]; [| now left]. right.
  unfold self_retry.
  destruct (max_retries <? k + 1) eqn:C.
  - right. apply Nat.ltb_lt in C. split; [lia | now exists e].
  - left. apply Nat.ltb_ge in C. split; [lia | reflexivity].
Qed.

Lemma event_failure_logged a lib ty iid t k f s :
  fst (event_body a lib ty iid t k f s) <> Returned ->
  In (ERROR, "Error processing event") (log (snd (event_body a lib ty iid t k f s)))
  /\ analytics_daily (snd (event_body a lib ty iid t k f s)) = analytics_daily s.
Proof.
  unfold event_body. intros N.
  split; [| now apply recompute_from_event_failure].
  rewrite recompute_from_event_run in *.
  destruct (_recompute_analytics_from_date a lib (date_of t)
              (with_log (log s ++ [(INFO, "Processing event")]) (SessionLocal f s)))
    as [[e | u] db']; simpl in *; [| congruence].
  apply in_or_app. right. now left.
Qed.

Section Delivery.

Variable a : arith.
Variable lib : core_analytics.
Variable ty : string.
Variable iid : option string.
Variable t : Z.
Variable plan : nat -> option nat.
Variable s : State.

Local Abbreviation body := (event_body a lib ty iid t).
Local Abbreviation at_attempt k := (body k%nat (plan k%nat) (state_after body plan k%nat s)).

Lemma settled_at n k :
  fst (at_attempt k) = Returned \/ (exists e, fst (at_attempt k) = Raised e) ->
  deliver (S n) body plan k (state_after body plan k s)
  = Some ({| attempts := 1; countdowns := []; final := fst (at_attempt k) |},
          state_after body plan (S k) s).
Proof.
  intros H. rewrite deliver_settled; [reflexivity |].
  intros c Hc. destruct H as [H | (e & H)]; rewrite H in Hc; discriminate.
Qed.

Lemma retried_at n k :
  k < max_retries -> fst (at_attempt k) <> Returned ->
  deliver (S n) body plan k (state_after body plan k s)
  = match deliver n body plan (S k) (state_after body plan (S k) s) with
    | Some (d, s'') =>
        Some ({| attempts := S (attempts d); countdowns := 2 ^ k :: countdowns d;
                 final := final d |}, s'')
    | None => None
    end.
Proof.
  intros Lt N.
  destruct (event_attempt_cases a lib ty iid t k (plan k) (state_after body plan k s))
    as [R | [(_ & R) | (Ge & _)]]; [congruence | | lia].
  now rewrite (deliver_retried n body plan k _ (2 ^ k) R).
Qed.

Lemma failed_attempts_keep_records n :
  (forall k, k < n -> fst (at_attempt k) <> Returned) ->
  analytics_daily (state_after body plan n s) = analytics_daily s.
Proof.
  induction n as [| m IH]; intros H; simpl; [reflexivity |].
  destruct (event_failure_logged a lib ty iid t m (plan m) (state_after body plan m s))
    as (_ & A); [apply H; lia |].
  rewrite A. apply IH. intros k Hk. apply H. lia.
Qed.

(** Every delivery ends, after at most three retries whose countdowns
    are the first of 1, 2 and 4 seconds. *)
Lemma delivery_ends :
  exists d, deliver (S (S max_retries)) body plan 0 s
            = Some (d, state_after body plan (attempts d) s)
            /\ attempts d <= S max_retries
            /\ countdowns d = firstn (attempts d - 1) [1; 2; 4]
            /\ (final d = Returned \/ attempts d = S max_retries).
Proof.
  unfold max_retries.
  change s with (state_after body plan 0 s) at 1.
  destruct (event_attempt_cases a lib ty iid t 0 (plan 0) (state_after body plan 0 s))
    as [R0 | [(_ & R0) | (Ge & _)]]; [| | unfold max_retries in Ge; lia].
  { exists {| attempts := 1; countdowns := []; final := Returned |}.
    rewrite settled_at by (left; exact R0). rewrite R0.
    simpl. repeat split; auto. }
  rewrite retried_at by (unfold max_retries; lia || (rewrite R0; discriminate)).
  destruct (event_attempt_cases a lib ty iid t 1 (plan 1) (state_after body plan 1 s))
    as [R1 | [(_ & R1) | (Ge & _)]]; [| | unfold max_retries in Ge; lia].
  { exists {| attempts := 2; countdowns := [1]; final := Returned |}.
    rewrite settled_at by (left; exact R1). rewrite R1.
    simpl. repeat split; auto. }
  rewrite retried_at by (unfold max_retries; lia || (rewrite R1; discriminate)).
  destruct (event_attempt_cases a lib ty iid t 2 (plan 2) (state_after body plan 2 s))
    as [R2 | [(_ & R2) | (Ge & _)]]; [| | unfold max_retries in Ge; lia].
  { exists {| attempts := 3; countdowns := [1; 2]; final := Returned |}.
    rewrite settled_at by (left; exact R2). rewrite R2.
    simpl. repeat split; auto. }
  rewrite retried_at by (unfold max_retries; lia || (rewrite R2; discriminate)).
  destruct (event_attempt_cases a lib ty iid t 3 (plan 3) (state_after body plan 3 s))
    as [R3 | [(Lt & _) | (_ & e & R3)]]; [| unfold max_retries in Lt; lia |].
  { exists {| attempts := 4; countdowns := [1; 2; 4]; final := Returned |}.
    rewrite settled_at by (left; exact R3). rewrite R3.
    simpl. repeat split; auto. }
  exists {| attempts := 4; countdowns := [1; 2; 4]; final := Raised e |}.
  rewrite settled_at by (right; exists e; exact R3). rewrite R3.
  simpl. repeat split; auto.
Qed.

Lemma two_failures_then_success :
  fst (at_attempt 0) <> Returned -> fst (at_attempt 1) <> Returned ->
  fst (at_attempt 2) = Returned ->
  deliver (S (S max_retries)) body plan 0 s
  = Some ({| attempts := 3; countdowns := [1; 2]; final := Returned |},
          state_after body plan 3 s).
Proof.
  intros F0 F1 S2. unfold max_retries.
  change s with (state_after body plan 0 s) at 1.
  rewrite retried_at by (unfold max_retries; lia || assumption).
  rewrite retried_at by (unfold max_retries; lia || assumption).
  rewrite settled_at by (left; exact S2). rewrite S2. reflexivity.
Qed.

Lemma four_failures :
  (forall k, k <= max_retries -> fst (at_attempt k) <> Returned) ->
  exists e,
    deliver (S (S max_retries)) body plan 0 s
    = Some ({| attempts := 4; countdowns := [1; 2; 4]; final := Raised e |},
            state_after body plan 4 s).
Proof.
  intros F. unfold max_retries.
  change s with (state_after body plan 0 s) at 1.
  rewrite retried_at by (unfold max_retries; lia || (apply F; unfold max_retries; lia)).
  rewrite retried_at by (unfold max_retries; lia || (apply F; unfold max_retries; lia)).
  rewrite retried_at by (unfold max_retries; lia || (apply F; unfold max_retries; lia)).
  destruct (event_attempt_cases a lib ty iid t 3 (plan 3) (state_after body plan 3 s))
    as [R3 | [(Lt & _) | (_ & e & R3)]].
  - exfalso. apply (F 3); [unfold max_retries; lia | exact R3].
  - unfold max_retries in Lt. lia.
  - exists e. rewrite settled_at by (right; exists e; exact R3).
    rewrite R3. reflexivity.
Qed.

End Delivery.

Lemma work_takes_the_message a lib plan sys m rest :
  queue sys = m :: rest ->
  exists d sys', work a lib plan sys = Some (d, sys') /\ queue sys' = rest.
Proof.
  intros Q. unfold work. rewrite Q. destruct m as [ty t].
  destruct (delivery_ends a lib ty None t plan (store sys)) as (d & D & _).
  change (fun retries fault => recompute_from_event a lib retries fault ty None t)
    with (event_body a lib ty None t).
  rewrite D. eexists. eexists. split; reflexivity.
Qed.

(** C8. A failed execution of the event-triggered task logs an error,
    rolls back and asks Celery for a retry after [2 ^ retries] seconds,
    up to three retries: the countdowns are 1, 2 and 4 seconds, each
    twice the one before.  Two failed executions followed by one that
    goes through make exactly three executions, with countdowns 1 and
    2, and the delivery ends in the state the third execution
    committed, the failed ones having left the records alone.  When the
    execution after the third retry fails too, the delivery ends with
    the exception raised and the error in the log, the records as they
    were.  The worker then takes the next message all the same, and the
    webhook route queues every event without looking at the tasks. *)
Theorem C8_event_task_retries_three_times_doubling :
  forall (a : arith) (lib : core_analytics) (ty : string) (iid : option string)
         (t : Z) (plan : nat -> option nat) (s : State),
    (forall k f s0,
        fst (event_body a lib ty iid t k f s0) <> Returned ->
        In (ERROR, "Error processing event") (log (snd (event_body a lib ty iid t k f s0)))
        /\ (k < max_retries ->
            fst (event_body a lib ty iid t k f s0) = RetryRequested (2 ^ k))
        /\ (max_retries <= k ->
            exists e, fst (event_body a lib ty iid t k f s0) = Raised e))
    /\ (exists d,
           deliver (S (S max_retries)) (event_body a lib ty iid t) plan 0 s
           = Some (d, state_after (event_body a lib ty iid t) plan (attempts d) s)
           /\ attempts d <= S max_retries
           /\ countdowns d = firstn (attempts d - 1) [1; 2; 4])
    /\ (fst (event_body a lib ty iid t 0 (plan 0) s) <> Returned ->
        fst (event_body a lib ty iid t 1 (plan 1)
               (state_after (event_body a lib ty iid t) plan 1 s)) <> Returned ->
        fst (event_body a lib ty iid t 2 (plan 2)
               (state_after (event_body a lib ty iid t) plan 2 s)) = Returned ->
        deliver (S (S max_retries)) (event_body a lib ty iid t) plan 0 s
        = Some ({| attempts := 3; countdowns := [1; 2]; final := Returned |},
                state_after (event_body a lib ty iid t) plan 3 s)
        /\ analytics_daily (state_after (event_body a lib ty iid t) plan 2 s)
           = analytics_daily s)
    /\ ((forall k, k <= max_retries ->
            fst (event_body a lib ty iid t k (plan k)
                   (state_after (event_body a lib ty iid t) plan k s)) <> Returned) ->
        exists e,
          deliver (S (S max_retries)) (event_body a lib ty iid t) plan 0 s
          = Some ({| attempts := 4; countdowns := [1; 2; 4]; final := Raised e |},
                  state_after (event_body a lib ty iid t) plan 4 s)
          /\ analytics_daily (state_after (event_body a lib ty iid t) plan 4 s)
             = analytics_daily s
          /\ In (ERROR, "Error processing event")
                (log (state_after (event_body a lib ty iid t) plan 4 s)))
    /\ (forall sys m rest,
           queue sys = m :: rest ->
           exists d sys', work a lib plan sys = Some (d, sys') /\ queue sys' = rest)
    /\ (forall ev sys,
           fst (ingest_webhook ev sys) = "queued"
           /\ queue (snd (ingest_webhook ev sys))
              = queue sys ++ [(event_type ev, event_time ev)]).
Proof.
  intros a lib ty iid t plan s.
  split.
  { intros k f s0 N.
    destruct (event_failure_logged a lib ty iid t k f s0 N) as (L & _).
    split; [exact L |].
    destruct (event_attempt_cases a lib ty iid t k f s0)
      as [R | [(Lt & R) | (Ge & e & R)]]; [congruence | |].
    - split; [intros _; exact R | intros Ge; lia].
    - split; [intros Lt; lia | intros _; now exists e]. }
  split.
  { destruct (delivery_ends a lib ty iid t plan s) as (d & D & Le & C & _).
    exists d. auto. }
  split.
  { intros F0 F1 S2. split.
    - now apply two_failures_then_success.
    - apply failed_attempts_keep_records.
      intros k Hk. destruct k as [| [| k]]; [exact F0 | exact F1 | lia]. }
  split.
  { intros F. destruct (four_failures a lib ty iid t plan s F) as (e & D).
    exists e. split; [exact D |]. split.
    - apply failed_attempts_keep_records. intros k Hk. apply F.
      unfold max_retries. lia.
    - simpl. apply event_failure_logged. apply (F 3). unfold max_retries. lia. }
  split.
  { intros sys m rest. apply work_takes_the_message. }
  intros ev sys. split; reflexivity.
Qed.

(** ** The pass on the sample stores *)

Lemma float_or_none_not_nan c : float_or_none c <> Some NaN.
Proof. destruct c as [[q | | |] |]; simpl; discriminate. Qed.

(** The records of a store with one record per date stay one per date
    through any pass. *)
Lemma RecomputeFrom_keeps_dates_distinct a lib fault d s :
  distinct (map AnalyticsDaily.date (analytics_daily s)) = true ->
  distinct (map AnalyticsDaily.date
              (analytics_daily (snd (RecomputeFrom a lib fault d s)))) = true.
Proof.
  intros H.
  destruct (RecomputeFrom_all_or_nothing a lib fault d s) as (_ & [E | (p & _ & E)]);
    rewrite E; [exact H |].
  now rewrite dates_after_pass.
Qed.

(** C1, on the code.  The history holds 100, 110 and 121 on three days;
    the pass from the second day loads the second and third day only,
    and the cumulative return it assigns for the third day is
    121/110 - 1 = 1/10, relative to the first value of the window,
    where the value since inception is 121/100 - 1 = 21/100. *)
Theorem C1_cumulative_return_is_relative_to_the_window :
  forall (a : arith) (lib : core_analytics),
    map EquityCurve.equity (equity_data_of 1 (SessionLocal None Sample.recorded))
    = [105; 110; 121]%Q
    /\ fst (_recompute_analytics_from_date a lib 1 (SessionLocal None Sample.recorded))
       = inr tt
    /\ exists o q,
         nth_error
           (session (snd (_recompute_analytics_from_date a lib 1
                            (SessionLocal None Sample.recorded)))) 1 = Some o
         /\ AnalyticsDaily.date (AnalyticsDaily.row o) = 2%Z
         /\ AnalyticsDaily.getattr "cumulative_return" o = Some (Some (Fin q))
         /\ (q == 121 / 110 - 1)%Q /\ (q == 1 # 10)%Q
         /\ ~ (q == 121 / 100 - 1)%Q.
Proof.
  intros a lib. split; [reflexivity |].
  destruct a.
  - split; [vm_compute; reflexivity |].
    eexists. exists (11 # 110)%Q.
    split; [vm_compute; reflexivity |].
    split; [reflexivity |]. split; [reflexivity |].
    repeat split; try reflexivity. intros H. vm_compute in H. discriminate.
  - split; [vm_compute; reflexivity |].
    eexists. exists (11 # 110)%Q.
    split; [vm_compute; reflexivity |].
    split; [reflexivity |]. split; [reflexivity |].
    repeat split; try reflexivity. intros H. vm_compute in H. discriminate.
Qed.

(** C2, on the code.  The two records of the store hold 1/2 in every
    field from an earlier pass.  The pass from the second day goes
    through and leaves one record per date, yet [return_pct],
    [cum_return] and [drawdown] of both records still hold the stale
    1/2: the pass wrote its daily return, cumulative return and
    drawdown to names that are no columns.  Only the four rolling
    columns were overwritten.  With the reference functions the daily
    return computed for the third day is 1/10, not the 1/2 that
    stays. *)
Theorem C2_stale_fields_survive_the_pass :
  forall (a : arith) (lib : core_analytics),
    fst (RecomputeFrom a lib None 1 Sample.recorded) = inr tt
    /\ map AnalyticsDaily.date
           (analytics_daily (snd (RecomputeFrom a lib None 1 Sample.recorded)))
       = [1; 2]%Z
    /\ map kept (analytics_daily (snd (RecomputeFrom a lib None 1 Sample.recorded)))
       = map kept (analytics_daily Sample.recorded)
    /\ map AnalyticsDaily.return_pct
           (analytics_daily (snd (RecomputeFrom a lib None 1 Sample.recorded)))
       = [Sample.half; Sample.half]
    /\ map AnalyticsDaily.volatility_20d
           (analytics_daily (snd (RecomputeFrom a lib None 1 Sample.recorded)))
       = map (fun idx => float_or_none
                (iloc_or_none
                   (compute_rolling_volatility lib
                      (compute_daily_returns lib [(1%Z, 110%Q); (2%Z, 121%Q)]) 20) idx))
             [0; 1]
    /\ option_map (AnalyticsDaily.getattr "daily_return")
         (nth_error
            (session (snd (_recompute_analytics_from_date Float64 Reference.analytics 1
                             (SessionLocal None Sample.recorded)))) 1)
       = Some (Some (Some (Fin (11 # 110)))).
Proof.
  intros a lib. destruct a; repeat split; vm_compute; reflexivity.
Qed.

(** C5, on the code.  An account whose equity is 0 on its first two
    days: with float arithmetic the quotient of the cumulative return is
    0/0, and the pass assigns not-a-number, not [None], to
    [cumulative_return] on both days; with decimal arithmetic the same
    division raises.  The drawdown is assigned as [compute_max_drawdown]
    returned it, a not-a-number included.  The five guarded values
    (daily return and the four rolling metrics) are never
    not-a-number. *)
Theorem C5_cumulative_return_and_drawdown_are_not_guarded :
  forall lib : core_analytics,
    (fst (_recompute_analytics_from_date Float64 lib 0
            (SessionLocal None Sample.empty_account)) = inr tt
     /\ map (AnalyticsDaily.getattr "cumulative_return")
            (session (snd (_recompute_analytics_from_date Float64 lib 0
                             (SessionLocal None Sample.empty_account))))
        = [Some (Some NaN); Some (Some NaN)])
    /\ fst (_recompute_analytics_from_date Decimal lib 0
              (SessionLocal None Sample.empty_account)) = inl InvalidOperation
    /\ (forall a dr rv rs be al v0 e o cr,
           truediv a (snd (snd e)) v0 = inr cr ->
           AnalyticsDaily.getattr "max_drawdown"
             (day_update a dr rv rs be al (Some NaN) v0 e o) = Some (Some NaN))
    /\ (forall c, float_or_none c <> Some NaN).
Proof.
  intros lib. split; [split; vm_compute; reflexivity |].
  split; [vm_compute; reflexivity |].
  split; [| exact float_or_none_not_nan].
  intros a dr rv rs be al v0 e o cr Div.
  unfold day_update. rewrite Div. reflexivity.
Qed.

(** ** The drawdown of the specification *)

Module SpecFacts.

Import Spec.
Local Open Scope Q_scope.

Lemma Qmin_le_l x y : Qmin x y <= x.
Proof.
  unfold Qmin. destruct (Qle_bool x y) eqn:E.
  - apply Qle_refl.
  - apply Qlt_le_weak, Qnot_le_lt. intros H. apply Qle_bool_iff in H. congruence.
Qed.

Lemma Qmin_le_r x y : Qmin x y <= y.
Proof.
  unfold Qmin. destruct (Qle_bool x y) eqn:E.
  - now apply Qle_bool_iff.
  - apply Qle_refl.
Qed.

Lemma Qmin_cases x y : Qmin x y = x \/ Qmin x y = y.
Proof. unfold Qmin. destruct (Qle_bool x y); auto. Qed.

Lemma Qmax_of_le x y : x <= y -> Qmax x y = y.
Proof. intros H. unfold Qmax. apply Qle_bool_iff in H. now rewrite H. Qed.

Lemma Qmax_pos x y : 0 < x -> 0 < y -> 0 < Qmax x y.
Proof. intros Hx Hy. unfold Qmax. destruct (Qle_bool x y); assumption. Qed.

(** The least defined decline is below every defined decline and is
    one of them. *)
Lemma min_defined_least ds m :
  min_defined ds = Some m ->
  (forall x, In (Some x) ds -> m <= x) /\ In (Some m) ds.
Proof.
  revert m. induction ds as [| d rest IH]; intros m H; simpl in H; [discriminate |].
  destruct d as [x |].
  - destruct (min_defined rest) as [m' |] eqn:E.
    + inversion H; subst. destruct (IH m' eq_refl) as (Le & Att). split.
      * intros y [Hy | Hy].
        -- inversion Hy; subst. apply Qmin_le_l.
        -- eapply Qle_trans; [apply Qmin_le_r | now apply Le].
      * destruct (Qmin_cases x m') as [-> | ->]; [now left | now right].
    + inversion H; subst. split; [| now left].
      intros y [Hy | Hy]; [inversion Hy; apply Qle_refl |].
      exfalso. clear IH H. induction rest as [| d' rest' IH']; [exact Hy |].
      simpl in E. destruct d' as [z |].
      * destruct (min_defined rest'); discriminate.
      * destruct Hy as [Hy | Hy]; [discriminate | now apply IH'].
  - destruct (IH m H) as (Le & Att). split; [| now right].
    intros y [Hy | Hy]; [discriminate | now apply Le].
Qed.

Lemma min_defined_none ds :
  min_defined ds = None -> forall x, ~ In (Some x) ds.
Proof.
  induction ds as [| d rest IH]; intros H x Hx; simpl in *; [exact Hx |].
  destruct d as [y |].
  - destruct (min_defined rest); discriminate.
  - destruct Hx as [Hx | Hx]; [discriminate | now apply (IH H x)].
Qed.

(** The scan of the running peak gives the largest value of each
    prefix. *)
Lemma peaks_from_nth p vs i :
  (i < List.length vs)%nat ->
  nth_error (peaks_from p vs) i = Some (fold_left Qmax (firstn (S i) vs) p).
Proof.
  revert p i. induction vs as [| v rest IH]; intros p i Hi; simpl in Hi; [lia |].
  destruct i as [| j]; simpl; [reflexivity |].
  rewrite IH by lia. reflexivity.
Qed.

Lemma peaks_nth vs i :
  (i < List.length vs)%nat -> nth_error (peaks vs) i = Some (prefix_max vs i).
Proof.
  destruct vs as [| v rest]; intros Hi; simpl in Hi; [lia |].
  unfold prefix_max. destruct i as [| j]; simpl; [reflexivity |].
  rewrite peaks_from_nth by lia. reflexivity.
Qed.

Lemma peaks_length vs : List.length (peaks vs) = List.length vs.
Proof.
  destruct vs as [| v rest]; simpl; [reflexivity |]. f_equal.
  generalize v. induction rest as [| w rest' IH]; intros p; simpl; [reflexivity |].
  now rewrite IH.
Qed.

Lemma declines_nth vs i :
  (i < List.length vs)%nat ->
  nth_error (declines vs) i = Some (decline (prefix_max vs i) (nth i vs 0)).
Proof.
  intros Hi. unfold declines.
  rewrite nth_error_map.
  assert (E : nth_error (combine (peaks vs) vs) i = Some (prefix_max vs i, nth i vs 0)).
  { pose proof (peaks_nth vs i Hi) as P.
    assert (V : nth_error vs i = Some (nth i vs 0))
      by (apply nth_error_nth'; exact Hi).
    revert P V. generalize (peaks vs) as ps. generalize (prefix_max vs i) as p.
    generalize (nth i vs 0) as v. clear Hi.
    revert i. induction vs as [| w rest IH]; intros i v p ps P V.
    - destruct i; discriminate.
    - destruct ps as [| q ps']; [destruct i; discriminate |].
      destruct i as [| j]; simpl in *.
      + inversion P; inversion V; reflexivity.
      + now apply IH. }
  rewrite E. reflexivity.
Qed.

Lemma declines_length vs : List.length (declines vs) = List.length vs.
Proof.
  unfold declines. rewrite length_map, length_combine, peaks_length.
  apply Nat.min_id.
Qed.

Lemma fold_Qmax_pos l p :
  0 < p -> (forall v, In v l -> 0 < v) -> 0 < fold_left Qmax l p.
Proof.
  revert p. induction l as [| v rest IH]; intros p Hp H; simpl; [exact Hp |].
  apply IH.
  - apply Qmax_pos; [exact Hp | apply H; now left].
  - intros w Hw. apply H. now right.
Qed.

Lemma in_firstn_in {A : Type} (x : A) n l : In x (firstn n l) -> In x l.
Proof.
  revert l. induction n as [| m IH]; intros [| y rest] H; simpl in *; try contradiction.
  destruct H as [H | H]; [now left | right; now apply IH].
Qed.

Lemma prefix_max_pos vs i :
  (forall v, In v vs -> 0 < v) -> (i < List.length vs)%nat -> 0 < prefix_max vs i.
Proof.
  intros H Hi. unfold prefix_max.
  destruct vs as [| v rest]; simpl in Hi; [lia |].
  simpl. apply fold_Qmax_pos.
  - apply H. now left.
  - intros w Hw. apply H. right. eapply in_firstn_in; exact Hw.
Qed.

Lemma decline_defined p v : 0 < p -> decline p v = Some ((v - p) / p).
Proof.
  intros Hp. unfold decline, is_zero.
  destruct (Qeq_bool p 0) eqn:E; [| reflexivity].
  apply Qeq_bool_iff in E. rewrite E in Hp. now apply Qlt_irrefl in Hp.
Qed.

(** On a non-decreasing series the running peak is the series. *)
Lemma peaks_from_nondecreasing p vs :
  nondecreasing_from p vs -> peaks_from p vs = vs.
Proof.
  revert p. induction vs as [| v rest IH]; intros p H; simpl; [reflexivity |].
  destruct H as (Le & H). rewrite (Qmax_of_le p v Le). f_equal. now apply IH.
Qed.

Lemma peaks_nondecreasing vs : nondecreasing vs -> peaks vs = vs.
Proof.
  destruct vs as [| v rest]; intros H; simpl; [reflexivity |].
  f_equal. now apply peaks_from_nondecreasing.
Qed.

Lemma declines_of_nondecreasing vs x :
  nondecreasing vs -> In (Some x) (declines vs) -> x == 0.
Proof.
  intros H. unfold declines. rewrite (peaks_nondecreasing vs H).
  intros Hx. apply in_map_iff in Hx as ([p v] & D & Hin).
  assert (p = v).
  { clear D H. induction vs as [| w rest IH]; simpl in Hin; [destruct Hin |].
    destruct Hin as [Hin | Hin]; [now inversion Hin | now apply IH]. }
  subst p. simpl in D. unfold decline in D.
  destruct (is_zero v); [discriminate |]. inversion D.
  unfold Qdiv. setoid_replace (v - v) with 0 by ring. ring.
Qed.

End SpecFacts.

Lemma maxDrawdown_is_least vs :
  vs <> [] -> (forall v, In v vs -> (0 < v)%Q) ->
  (forall i, i < List.length vs -> (Spec.maxDrawdown vs <= decline_at vs i)%Q)
  /\ exists i, i < List.length vs /\ Spec.maxDrawdown vs = decline_at vs i.
Proof.
  intros Ne Pos.
  assert (Def : forall i, i < List.length vs ->
                          nth_error (Spec.declines vs) i = Some (Some (decline_at vs i))).
  { intros i Hi. rewrite SpecFacts.declines_nth by exact Hi.
    rewrite SpecFacts.decline_defined; [reflexivity |].
    now apply SpecFacts.prefix_max_pos. }
  unfold Spec.maxDrawdown.
  destruct (Spec.min_defined (Spec.declines vs)) as [m |] eqn:E.
  - destruct (SpecFacts.min_defined_least _ _ E) as (Le & Att). split.
    + intros i Hi. apply Le. eapply nth_error_In. apply Def. exact Hi.
    + apply In_nth_error in Att as (i & Hi).
      assert (Lt : i < List.length vs).
      { rewrite <- SpecFacts.declines_length. apply nth_error_Some. congruence. }
      exists i. split; [exact Lt |]. rewrite (Def i Lt) in Hi. congruence.
  - exfalso. destruct vs as [| v rest]; [now apply Ne |].
    apply (SpecFacts.min_defined_none _ E (decline_at (v :: rest) 0)).
    eapply nth_error_In. apply Def. simpl. lia.
Qed.

Lemma maxDrawdown_nondecreasing vs :
  Spec.nondecreasing vs -> (Spec.maxDrawdown vs == 0)%Q.
Proof.
  intros H. unfold Spec.maxDrawdown.
  destruct (Spec.min_defined (Spec.declines vs)) as [m |] eqn:E; [| reflexivity].
  destruct (SpecFacts.min_defined_least _ _ E) as (_ & Att).
  now apply (SpecFacts.declines_of_nondecreasing vs m H).
Qed.

(** C6. [maxDrawdown] of the specification, on a series of positive
    equity values, is the least of the declines [(v[i] - p_i) / p_i]
    from the running maximum [p_i]: it is below the decline at every
    index and is the decline at one.  On every non-decreasing series it
    is exactly 0.  On [100, 110, 105, 95, 100, 120] it is
    -15/110 = -3/22, the decline at index 3 from the peak 110 to 95,
    within 0.0001 of -0.1364.  The function takes the series and
    nothing else: there is no window. *)
Theorem C6_maxDrawdown_is_the_least_decline_from_the_running_peak :
  (forall vs, vs <> [] -> (forall v, In v vs -> (0 < v)%Q) ->
              (forall i, i < List.length vs -> (Spec.maxDrawdown vs <= decline_at vs i)%Q)
              /\ exists i, i < List.length vs /\ Spec.maxDrawdown vs = decline_at vs i)
  /\ (forall vs, Spec.nondecreasing vs -> (Spec.maxDrawdown vs == 0)%Q)
  /\ (Spec.maxDrawdown example_equity == - (3 # 22))%Q
  /\ Spec.maxDrawdown example_equity = decline_at example_equity 3
  /\ (Spec.prefix_max example_equity 3 == 110)%Q
  /\ (nth 3 example_equity 0 == 95)%Q
  /\ (- (1365 # 10000) < Spec.maxDrawdown example_equity)%Q
  /\ (Spec.maxDrawdown example_equity < - (1363 # 10000))%Q.
Proof.
  split; [exact maxDrawdown_is_least |].
  split; [exact maxDrawdown_nondecreasing |].
  repeat split; vm_compute; reflexivity.
Qed.

(** The non-decreasing series of [test_compute_max_drawdown_no_drawdown]
    and the example series meet the hypotheses of C6. *)
Lemma C6_witness :
  (Spec.maxDrawdown [100; 105; 110; 115; 120] == 0)%Q
  /\ (forall i, i < 6 -> (Spec.maxDrawdown example_equity <= decline_at example_equity i)%Q).
Proof.
  destruct C6_maxDrawdown_is_the_least_decline_from_the_running_peak
    as (Least & Mono & _).
  split.
  - apply Mono. simpl. repeat split; discriminate.
  - apply (Least example_equity).
    + discriminate.
    + intros v Hv. simpl in Hv.
      repeat (destruct Hv as [<- | Hv]; [reflexivity |]). destruct Hv.
Defined.

(** ** The rolling functions of the specification *)

Section RollingFacts.

Variable sqrtQ : Q -> Q.

Lemma rolling_length {A : Type} (f : list Q -> option A) xs w :
  List.length (Spec.rolling f xs w) = List.length xs.
Proof. unfold Spec.rolling. now rewrite length_map, length_seq. Qed.

Lemma rolling_nth {A : Type} (f : list Q -> option A) xs w i :
  i < List.length xs ->
  nth_error (Spec.rolling f xs w) i
  = Some (match Spec.window xs w i with Some ws => f ws | None => None end).
Proof.
  intros Hi. unfold Spec.rolling.
  rewrite nth_error_map.
  rewrite (nth_error_nth' (seq 0 (List.length xs)) 0)
    by (now rewrite length_seq).
  rewrite seq_nth by exact Hi. reflexivity.
Qed.

Lemma window_short xs w i : i + 1 < w -> Spec.window xs w i = None.
Proof.
  intros H. unfold Spec.window.
  destruct (w <=? i + 1) eqn:E; [apply Nat.leb_le in E; lia | reflexivity].
Qed.

(** The window at index [i] holds the [w] observations that end at
    [i]. *)
Lemma window_full xs w i :
  i < List.length xs -> w <= i + 1 ->
  exists ws, Spec.window xs w i = Some ws
             /\ List.length ws = w
             /\ forall j, j < w -> nth_error ws j = nth_error xs (i + 1 - w + j).
Proof.
  intros Hi Hw. unfold Spec.window.
  destruct (w <=? i + 1) eqn:E; [| apply Nat.leb_gt in E; lia].
  eexists. split; [reflexivity |]. split.
  - rewrite length_firstn, length_skipn. lia.
  - intros j Hj. rewrite nth_error_firstn.
    destruct (j <? w) eqn:Lt; [| apply Nat.ltb_ge in Lt; lia].
    now rewrite nth_error_skipn.
Qed.

Lemma variance_defined ws :
  2 <= List.length ws -> exists v, Spec.variance ws = Some v.
Proof.
  intros H. unfold Spec.variance.
  destruct (List.length ws <? 2) eqn:E; [apply Nat.ltb_lt in E; lia |].
  eexists. reflexivity.
Qed.

Lemma excess_length rf ws : List.length (Spec.excess rf ws) = List.length ws.
Proof. unfold Spec.excess. apply length_map. Qed.

Lemma rollingVolatility_null xs w annualize i :
  i < List.length xs -> i + 1 < w ->
  nth_error (Spec.rollingVolatility sqrtQ xs w annualize) i = Some None.
Proof.
  intros Hi Hw. unfold Spec.rollingVolatility.
  now rewrite rolling_nth, window_short.
Qed.

Lemma rollingSharpe_null xs w rf i :
  i < List.length xs -> i + 1 < w ->
  nth_error (Spec.rollingSharpe sqrtQ xs w rf) i = Some None.
Proof.
  intros Hi Hw. unfold Spec.rollingSharpe.
  now rewrite rolling_nth, window_short.
Qed.

Lemma forall_firstn {A : Type} (P : A -> bool) (l : list A) k :
  (forall i x, i < k -> nth_error l i = Some x -> P x = true) ->
  forallb P (firstn k l) = true.
Proof.
  revert k. induction l as [| y rest IH]; intros k H.
  - now rewrite firstn_nil.
  - destruct k as [| m]; simpl; [reflexivity |].
    rewrite (H 0 y) by (simpl; lia || reflexivity). simpl.
    apply IH. intros i x Hi Hx. apply (H (S i) x); [lia | exact Hx].
Qed.

(** On a result of the specification's [rollingVolatility] with window
    20 the third assertion of [test_compute_rolling_volatility], that
    not all of the first 19 values are null, does not hold: the test's
    comment (the first 19 are NaN) and the specification agree, the
    assertion says the opposite. *)
Lemma test_compute_rolling_volatility_disagrees xs :
  Spec.test_compute_rolling_volatility (Spec.rollingVolatility sqrtQ xs 20 true) = false.
Proof.
  unfold Spec.test_compute_rolling_volatility.
  rewrite (forall_firstn _ (Spec.rollingVolatility sqrtQ xs 20 true) 19).
  - apply andb_false_r.
  - intros i x Hi Hx.
    assert (Lt : i < List.length xs).
    { unfold Spec.rollingVolatility in Hx.
      rewrite <- (rolling_length
                    (fun ws => option_map (fun sd => (sd * sqrtQ 252)%Q)
                                          (Spec.stdev sqrtQ ws)) xs 20).
      apply nth_error_Some. congruence. }
    rewrite rollingVolatility_null in Hx by lia. inversion Hx. reflexivity.
Qed.

End RollingFacts.

(** C7. [rollingVolatility] and [rollingSharpe] of the specification
    return a series as long as their input.  Every index below [w - 1]
    is null in both.  At every index from [w - 1] on, the window is the
    [w] observations up to and including the index, and with at least
    two observations in the window (the sample deviation needs them)
    the volatility is not null: it is the deviation of the window,
    times [sqrt(252)] when annualized; the Sharpe ratio is not null
    whenever the deviation of the excess returns is not 0.  This holds
    for any square root function. *)
Theorem C7_rolling_null_below_the_window_and_defined_from_it :
  forall (sqrtQ : Q -> Q) (xs : list Q) (w : nat) (annualize : bool) (rf : Q),
    List.length (Spec.rollingVolatility sqrtQ xs w annualize) = List.length xs
    /\ List.length (Spec.rollingSharpe sqrtQ xs w rf) = List.length xs
    /\ (forall i, i < List.length xs -> i + 1 < w ->
                  nth_error (Spec.rollingVolatility sqrtQ xs w annualize) i = Some None
                  /\ nth_error (Spec.rollingSharpe sqrtQ xs w rf) i = Some None)
    /\ (forall i, i < List.length xs -> w <= i + 1 -> 2 <= w ->
          exists ws v sd,
            Spec.window xs w i = Some ws
            /\ List.length ws = w
            /\ (forall j, j < w -> nth_error ws j = nth_error xs (i + 1 - w + j))
            /\ Spec.variance ws = Some v
            /\ nth_error (Spec.rollingVolatility sqrtQ xs w annualize) i
               = Some (Some (if annualize then sqrtQ v * sqrtQ 252 else sqrtQ v)%Q)
            /\ Spec.stdev sqrtQ (Spec.excess rf ws) = Some sd
            /\ (is_zero sd = false ->
                nth_error (Spec.rollingSharpe sqrtQ xs w rf) i
                = Some (Some (Spec.mean (Spec.excess rf ws) / sd * sqrtQ 252)%Q))).
Proof.
  intros sqrtQ xs w annualize rf.
  split; [apply rolling_length |]. split; [apply rolling_length |].
  split.
  { intros i Hi Hw. split;
      [now apply rollingVolatility_null | now apply rollingSharpe_null]. }
  intros i Hi Hw H2.
  destruct (window_full xs w i Hi Hw) as (ws & W & L & N).
  destruct (variance_defined ws) as (v & V); [lia |].
  destruct (variance_defined (Spec.excess rf ws)) as (ve & Ve);
    [rewrite excess_length; lia |].
  exists ws, v, (sqrtQ ve).
  split; [exact W |]. split; [exact L |]. split; [exact N |]. split; [exact V |].
  split.
  { unfold Spec.rollingVolatility. rewrite rolling_nth by exact Hi.
    rewrite W. unfold Spec.stdev. rewrite V. reflexivity. }
  split.
  { unfold Spec.stdev. rewrite Ve. reflexivity. }
  intros NZ. unfold Spec.rollingSharpe. rewrite rolling_nth by exact Hi.
  rewrite W. unfold Spec.sharpe_of, Spec.stdev. rewrite Ve. simpl.
  rewrite NZ. reflexivity.
Qed.

(** Four returns with a window of two: index 0 is null, index 1 has
    its window [0.01, 0.03] and a volatility. *)
Lemma C7_witness :
  nth_error (Spec.rollingVolatility Reference.sqrt6
               [1 # 100; 3 # 100; - (2 # 100); 1 # 100]%Q 2 true) 0 = Some None
  /\ exists ws v sd,
       Spec.window [1 # 100; 3 # 100; - (2 # 100); 1 # 100]%Q 2 1 = Some ws
       /\ List.length ws = 2
       /\ Spec.variance ws = Some v
       /\ Spec.stdev Reference.sqrt6 (Spec.excess 0 ws) = Some sd.
Proof.
  destruct (C7_rolling_null_below_the_window_and_defined_from_it Reference.sqrt6
              [1 # 100; 3 # 100; - (2 # 100); 1 # 100]%Q 2 true 0%Q)
    as (_ & _ & Null & Full).
  split.
  - apply (Null 0); simpl; lia.
  - destruct (Full 1) as (ws & v & sd & W & L & _ & V & _ & S & _);
      [simpl; lia | lia | lia |].
    exists ws, v, sd. auto.
Defined.

(** ** The theorems at the sample stores *)

(** The store fails at the fourth round trip of a pass over the
    recorded history: the first day is already updated in the session,
    and the records stay as they were. *)
Lemma C4_witness :
  fst (RecomputeFrom Float64 Reference.analytics (Some 3) 1 Sample.recorded)
  = inl OperationalError
  /\ analytics_daily
       (snd (RecomputeFrom Float64 Reference.analytics (Some 3) 1 Sample.recorded))
     = analytics_daily Sample.recorded.
Proof.
  assert (F : fst (RecomputeFrom Float64 Reference.analytics (Some 3) 1 Sample.recorded)
              = inl OperationalError) by (vm_compute; reflexivity).
  split; [exact F |].
  destruct (C4_pass_commits_every_day_or_none Float64 Reference.analytics (Some 3) 1
              Sample.recorded) as (K & _).
  exact (K OperationalError F).
Defined.

(** With the store down at the first round trip of the first execution
    and at the third of the second, the third execution goes through;
    over the history without records all four executions fail. *)
Lemma C8_witness :
  deliver (S (S max_retries))
          (event_body Float64 Reference.analytics "equity" None 86400) two_faults 0
          Sample.recorded
  = Some ({| attempts := 3; countdowns := [1; 2]; final := Returned |},
          state_after (event_body Float64 Reference.analytics "equity" None 86400)
                      two_faults 3 Sample.recorded)
  /\ exists e,
       deliver (S (S max_retries))
               (event_body Float64 Reference.analytics "equity" None 0) (fun _ => None) 0
               Sample.unrecorded
       = Some ({| attempts := 4; countdowns := [1; 2; 4]; final := Raised e |},
               state_after (event_body Float64 Reference.analytics "equity" None 0)
                           (fun _ => None) 4 Sample.unrecorded).
Proof.
  split.
  - destruct (C8_event_task_retries_three_times_doubling Float64 Reference.analytics
                "equity" None 86400 two_faults Sample.recorded)
      as (_ & _ & Two & _).
    apply Two.
    + vm_compute. discriminate.
    + vm_compute. discriminate.
    + vm_compute. reflexivity.
  - destruct (C8_event_task_retries_three_times_doubling Float64 Reference.analytics
                "equity" None 0 (fun _ => None) Sample.unrecorded)
      as (_ & _ & _ & Four & _).
    destruct Four as (e & D & _).
    + intros k Hk. unfold max_retries in Hk.
      destruct k as [| [| [| [| k]]]]; try lia; vm_compute; discriminate.
    + exists e. exact D.
Defined.

(** The first day of the history without records reaches the insert
    branch and raises; the update of a record of the third day keeps
    its stale columns. *)
Lemma C9_witness :
  (exists x s',
      store_day Float64 0 [] [] [] [] [] None 100 (0, (0%Z, 100%Q))
                (SessionLocal None Sample.unrecorded) = (inl x, s')
      /\ session s' = session (SessionLocal None Sample.unrecorded)
      /\ analytics_daily s' = analytics_daily (SessionLocal None Sample.unrecorded))
  /\ kept (AnalyticsDaily.row
             (day_update Float64 [] [] [] [] [] None 110 (1, (2%Z, 121%Q))
                         (AnalyticsDaily.loaded (Sample.record 2 2 Sample.half))))
     = kept (Sample.record 2 2 Sample.half).
Proof.
  destruct C9_written_names_are_not_the_columns
    as (_ & _ & _ & _ & _ & Insert & Update).
  split.
  - apply Insert; reflexivity.
  - apply (Update Float64 [] [] [] [] [] None 110%Q (1, (2%Z, 121%Q))
                  (AnalyticsDaily.loaded (Sample.record 2 2 Sample.half))
                  (Fin (121 / 110))).
    reflexivity.
Defined.

(** A full recomputation over the history without records fails at the
    insert branch, a benchmark update finds the service down: both
    tasks log the error and end normally. *)
Lemma C10_witness :
  fst (recompute_all_analytics Float64 Reference.analytics None Sample.unrecorded)
  = Returned
  /\ analytics_daily
       (snd (recompute_all_analytics Float64 Reference.analytics None Sample.unrecorded))
     = analytics_daily Sample.unrecorded
  /\ In (ERROR, "Error in full recomputation")
        (log (snd (recompute_all_analytics Float64 Reference.analytics None
                     Sample.unrecorded)))
  /\ In (ERROR, "Error updating benchmarks")
        (log (snd (update_benchmarks_daily Reference.fetch_down None Sample.unrecorded))).
Proof.
  destruct (C10_time_triggered_tasks_swallow_failures Float64 Reference.analytics
              Reference.fetch_down) as (All & _ & Full & Upd & _).
  split; [apply All |].
  destruct (Full None Sample.unrecorded (TypeError "total_equity")
              (snd (recompute_all_analytics_try Float64 Reference.analytics
                      (SessionLocal None Sample.unrecorded))))
    as (A & L & _); [vm_compute; reflexivity |].
  split; [exact A |]. split.
  - rewrite L. apply in_or_app. right. now left.
  - destruct (Upd None Sample.unrecorded FetchError
                (snd (update_benchmarks_daily_try Reference.fetch_down
                        (SessionLocal None Sample.unrecorded))))
      as (L' & _); [vm_compute; reflexivity |].
    rewrite L'. apply in_or_app. right. now left.
Defined.

(** * Further properties of the tasks *)

(** ** Ordering of query results *)

Lemma insert_by_In {A : Type} (key : A -> Z) (x y : A) l :
  In y (insert_by key x l) <-> y = x \/ In y l.
Proof.
  induction l as [| z rest IH]; simpl.
  - intuition.
  - destruct (key z <=? key x)%Z; simpl; rewrite ?IH; intuition.
Qed.

Lemma fold_insert_In {A : Type} (key : A -> Z) (l acc : list A) y :
  In y (fold_left (fun acc x => insert_by key x acc) l acc) <-> In y l \/ In y acc.
Proof.
  revert acc. induction l as [| x rest IH]; intros acc; simpl.
  - intuition.
  - rewrite IH, insert_by_In. intuition.
Qed.

(** [ORDER BY] returns the rows it was given. *)
Lemma order_by_In {A : Type} (key : A -> Z) (l : list A) y :
  In y (order_by key l) <-> In y l.
Proof. unfold order_by. rewrite fold_insert_In. simpl. intuition. Qed.

Lemma insert_by_sorted {A : Type} (key : A -> Z) (x : A) l :
  StronglySorted (fun u v => (key u <= key v)%Z) l ->
  StronglySorted (fun u v => (key u <= key v)%Z) (insert_by key x l).
Proof.
  induction l as [| z rest IH]; intros H; simpl.
  - repeat constructor.
  - inversion H as [| z' rest' Hs Hf]; subst.
    destruct (key z <=? key x)%Z eqn:E.
    + constructor; [now apply IH |].
      apply Forall_forall. intros y Hy. apply insert_by_In in Hy as [-> | Hy].
      * now apply Z.leb_le.
      * rewrite Forall_forall in Hf. now apply Hf.
    + apply Z.leb_gt in E. constructor; [exact H |].
      constructor; [lia |].
      rewrite Forall_forall in *. intros y Hy. specialize (Hf y Hy). lia.
Qed.

(** [ORDER BY key ASC] returns them in ascending order of the key. *)
Lemma order_by_sorted {A : Type} (key : A -> Z) (l : list A) :
  StronglySorted (fun u v => (key u <= key v)%Z) (order_by key l).
Proof.
  unfold order_by.
  assert (G : forall acc, StronglySorted (fun u v => (key u <= key v)%Z) acc ->
                          StronglySorted (fun u v => (key u <= key v)%Z)
                            (fold_left (fun acc x => insert_by key x acc) l acc)).
  { induction l as [| x rest IH]; intros acc H; simpl; [exact H |].
    apply IH. now apply insert_by_sorted. }
  apply G. constructor.
Qed.

Lemma order_by_length {A : Type} (key : A -> Z) (l : list A) :
  List.length (order_by key l) = List.length l.
Proof.
  unfold order_by.
  assert (I : forall x acc, List.length (insert_by key x acc) = S (List.length acc)).
  { intros x acc. induction acc as [| z rest IH]; simpl; [reflexivity |].
    destruct (key z <=? key x)%Z; simpl; [now rewrite IH | reflexivity]. }
  assert (G : forall acc, List.length (fold_left (fun acc x => insert_by key x acc) l acc)
                          = List.length l + List.length acc).
  { induction l as [| x rest IH]; intros acc; simpl; [reflexivity |].
    rewrite IH, I. lia. }
  rewrite G. simpl. lia.
Qed.

(** ** The daily equity series *)

Lemma date_of_midnight_le d t : (midnight d <= t)%Z -> (d <= date_of t)%Z.
Proof.
  unfold midnight, date_of. intros H. apply Z.div_le_lower_bound; lia.
Qed.

Lemma midnight_date_of_le t : (midnight (date_of t) <= t)%Z.
Proof.
  unfold midnight, date_of. rewrite Z.mul_comm. apply Z.mul_div_le. lia.
Qed.

Lemma date_of_monotone t t' : (t <= t')%Z -> (date_of t <= date_of t')%Z.
Proof. unfold date_of. intros H. apply Z.div_le_mono; lia. Qed.

Lemma dropna_In l d v : In (d, v) (dropna l) <-> In (d, Some v) l.
Proof.
  unfold dropna. rewrite in_flat_map. split.
  - intros ([d' [w |]] & Hin & Hx); simpl in Hx; [| contradiction].
    destruct Hx as [Hx | []]. now inversion Hx; subst.
  - intros H. exists (d, Some v). split; [exact H | now left].
Qed.

(** The rows a pass loads are the snapshots at or after midnight of its
    start date. *)
Lemma equity_data_of_In start_date s e :
  In e (equity_data_of start_date s)
  <-> In e (equity_curve s) /\ (midnight start_date <= EquityCurve.time e)%Z.
Proof.
  unfold equity_data_of. rewrite order_by_In, filter_In, Z.leb_le. reflexivity.
Qed.

Lemma resample_dates_from l t0 v0 rest d c :
  l = (t0, v0) :: rest -> In (d, c) (resample_D_last l) -> (date_of t0 <= d)%Z.
Proof.
  intros -> H. unfold resample_D_last in H.
  apply in_map_iff in H as (k & E & _). inversion E; subst. lia.
Qed.

Lemma daily_equity_dates_from_start start_date s d v :
  In (d, v) (daily_equity_of (equity_data_of start_date s)) -> (start_date <= d)%Z.
Proof.
  unfold daily_equity_of. intros H. apply dropna_In in H.
  destruct (equity_data_of start_date s) as [| e0 rest] eqn:E; [destruct H |].
  assert (H0 : In e0 (equity_data_of start_date s)) by (rewrite E; now left).
  apply equity_data_of_In in H0 as (_ & H0).
  apply date_of_midnight_le in H0.
  simpl map in H. eapply resample_dates_from in H; [| reflexivity]. lia.
Qed.

Lemma pass_work_days lib start_date s p :
  pass_work lib start_date s = inr (Some p) ->
  p_days p
  = combine (seq 0 (List.length (daily_equity_of (equity_data_of start_date s))))
            (daily_equity_of (equity_data_of start_date s))
  /\ 2 <= List.length (daily_equity_of (equity_data_of start_date s)).
Proof.
  unfold pass_work. intros H.
  destruct (equity_data_of start_date s) as [| e0 rest]; [discriminate |].
  destruct (List.length (daily_equity_of (e0 :: rest)) <? 2) eqn:L; [discriminate |].
  apply Nat.ltb_ge in L.
  destruct (benchmark_returns_of "SPY" start_date s) as [x | spy]; [discriminate |].
  inversion H; subst. split; [reflexivity | exact L].
Qed.

(** The guard [if date_only < start_date: continue] of the loop never
    fires: the query has loaded nothing from before the start date, so
    every day of the series is written. *)
Theorem skip_guard_never_fires :
  forall (lib : core_analytics) (start_date : Z) (s : State) (p : day_plan),
    pass_work lib start_date s = inr (Some p) ->
    forall e, In e (p_days p) -> (fst (snd e) <? start_date)%Z = false.
Proof.
  intros lib start_date s p W e He.
  destruct (pass_work_days lib start_date s p W) as (D & _).
  rewrite D in He. destruct e as [idx [d v]]. apply in_combine_r in He. simpl.
  apply daily_equity_dates_from_start in He. apply Z.ltb_ge. exact He.
Qed.

Lemma skip_guard_never_fires_witness :
  exists p, pass_work Reference.analytics 1 Sample.recorded = inr (Some p)
            /\ forall e, In e (p_days p) -> (fst (snd e) <? 1)%Z = false.
Proof.
  eexists. split; [vm_compute; reflexivity |].
  apply (skip_guard_never_fires Reference.analytics 1 Sample.recorded).
  vm_compute. reflexivity.
Defined.

Lemma seq_dates_sorted d0 a n :
  StronglySorted Z.lt (map (fun k => (d0 + Z.of_nat k)%Z) (seq a n)).
Proof.
  revert a. induction n as [| m IH]; intros a; simpl; constructor; [apply IH |].
  apply Forall_forall. intros d Hd. apply in_map_iff in Hd as (k & <- & Hk).
  apply in_seq in Hk. lia.
Qed.

Lemma resample_dates_sorted l : StronglySorted Z.lt (map fst (resample_D_last l)).
Proof.
  unfold resample_D_last. destruct l as [| [t0 v0] rest]; [constructor |].
  rewrite map_map. simpl. apply seq_dates_sorted.
Qed.

Lemma dropna_dates_sorted l :
  StronglySorted Z.lt (map fst l) -> StronglySorted Z.lt (map fst (dropna l)).
Proof.
  induction l as [| [d c] rest IH]; intros H; simpl; [constructor |].
  inversion H as [| d' ds Hs Hf]; subst.
  destruct c as [v |]; simpl; [| now apply IH].
  constructor; [now apply IH |].
  apply Forall_forall. intros d1 Hd1.
  apply in_map_iff in Hd1 as ([d2 v2] & <- & Hin). apply dropna_In in Hin.
  rewrite Forall_forall in Hf. apply Hf.
  apply in_map_iff. now exists (d2, Some v2).
Qed.

Lemma last_on_app d l p :
  last_on d (l ++ [p])
  = if (date_of (fst p) =? d)%Z then Some (snd p) else last_on d l.
Proof. unfold last_on. now rewrite fold_left_app. Qed.

(** The value [last_on] gives is that of a row of the day after which
    no row of the day follows. *)
Lemma last_on_some d l v :
  last_on d l = Some v ->
  exists l1 t l2, l = l1 ++ (t, v) :: l2 /\ date_of t = d
                  /\ forall p, In p l2 -> date_of (fst p) <> d.
Proof.
  induction l as [| p rest IH] using rev_ind; intros H; [discriminate |].
  rewrite last_on_app in H.
  destruct (date_of (fst p) =? d)%Z eqn:E.
  - inversion H; subst. apply Z.eqb_eq in E. destruct p as [t w].
    exists rest, t, []. simpl in *. repeat split; auto.
  - apply Z.eqb_neq in E. destruct (IH H) as (l1 & t & l2 & -> & Dt & No).
    exists l1, t, (l2 ++ [p]). rewrite <- app_assoc. simpl. repeat split; auto.
    intros q Hq. apply in_app_iff in Hq as [Hq | [<- | []]]; auto.
Qed.

Lemma last_on_defined d l p :
  In p l -> date_of (fst p) = d -> exists v, last_on d l = Some v.
Proof.
  induction l as [| q rest IH] using rev_ind; intros Hin Hd; [destruct Hin |].
  rewrite last_on_app.
  destruct (date_of (fst q) =? d)%Z eqn:E; [eexists; reflexivity |].
  apply in_app_iff in Hin as [Hin | [<- | []]]; [now apply IH |].
  apply Z.eqb_neq in E. contradiction.
Qed.

Lemma sorted_before {A : Type} (key : A -> Z) l1 x l2 :
  StronglySorted (fun u v => (key u <= key v)%Z) (l1 ++ x :: l2) ->
  forall y, In y l1 -> (key y <= key x)%Z.
Proof.
  induction l1 as [| z rest IH]; intros H y Hy; [destruct Hy |].
  simpl in H. inversion H as [| z' r' Hs Hf]; subst.
  destruct Hy as [<- | Hy]; [| now apply IH].
  rewrite Forall_forall in Hf. apply Hf. apply in_app_iff. right. now left.
Qed.

Lemma sorted_last {A : Type} (key : A -> Z) l dflt :
  StronglySorted (fun u v => (key u <= key v)%Z) l ->
  forall y, In y l -> (key y <= key (last l dflt))%Z.
Proof.
  induction l as [| z rest IH]; intros H y Hy; [destruct Hy |].
  inversion H as [| z' r' Hs Hf]; subst.
  destruct rest as [| w rest'].
  - destruct Hy as [<- | []]. simpl. lia.
  - change (last (z :: w :: rest') dflt) with (last (w :: rest') dflt).
    destruct Hy as [<- | Hy]; [| now apply IH].
    rewrite Forall_forall in Hf.
    apply Z.le_trans with (key w); [apply Hf; now left |].
    apply IH; [exact Hs | now left].
Qed.

Lemma last_map {A B : Type} (f : A -> B) l dflt :
  last (map f l) (f dflt) = f (last l dflt).
Proof.
  induction l as [| x rest IH]; [reflexivity |].
  destruct rest as [| y rest']; [reflexivity |].
  change (last (map f (x :: y :: rest')) (f dflt))
    with (last (map f (y :: rest')) (f dflt)).
  rewrite IH. reflexivity.
Qed.

Lemma daily_equity_days :
  forall (start_date : Z) (s : State),
    StronglySorted Z.lt (map fst (daily_equity_of (equity_data_of start_date s)))
    /\ (forall d v,
           In (d, v) (daily_equity_of (equity_data_of start_date s)) ->
           exists e, In e (equity_data_of start_date s)
                     /\ date_of (EquityCurve.time e) = d
                     /\ EquityCurve.equity e = v
                     /\ forall e', In e' (equity_data_of start_date s) ->
                                   date_of (EquityCurve.time e') = d ->
                                   (EquityCurve.time e' <= EquityCurve.time e)%Z)
    /\ (forall e, In e (equity_data_of start_date s) ->
                  exists v, In (date_of (EquityCurve.time e), v)
                               (daily_equity_of (equity_data_of start_date s))).
Proof.
  intros start_date s.
  assert (Srt : StronglySorted
                  (fun u v => (EquityCurve.time u <= EquityCurve.time v)%Z)
                  (equity_data_of start_date s))
    by apply order_by_sorted.
  generalize dependent (equity_data_of start_date s). intros eq Srt.
  split; [apply dropna_dates_sorted, resample_dates_sorted |].
  split.
  - intros d v H. unfold daily_equity_of in H. apply dropna_In in H.
    assert (L : last_on d (map (fun e => (EquityCurve.time e, EquityCurve.equity e)) eq)
                = Some v).
    { unfold resample_D_last in H.
      destruct (map (fun e => (EquityCurve.time e, EquityCurve.equity e)) eq)
        as [| [t0 v0] rest]; [destruct H |].
      apply in_map_iff in H as (k & E & _). now inversion E. }
    apply last_on_some in L as (l1 & t & l2 & Sp & Dt & No).
    apply map_eq_app in Sp as (eq1 & eq2' & -> & <- & Sp).
    apply map_eq_cons in Sp as (e & eq2 & -> & Ee & <-).
    inversion Ee; subst. exists e.
    split; [apply in_app_iff; right; now left |].
    split; [reflexivity |]. split; [reflexivity |].
    intros e' He' De'. apply in_app_iff in He' as [He' | [<- | He']].
    + eapply sorted_before; eauto.
    + lia.
    + exfalso. apply (No (EquityCurve.time e', EquityCurve.equity e')); [| exact De'].
      apply in_map_iff. now exists e'.
  - intros e He. unfold daily_equity_of.
    destruct (last_on_defined (date_of (EquityCurve.time e))
                (map (fun e => (EquityCurve.time e, EquityCurve.equity e)) eq)
                (EquityCurve.time e, EquityCurve.equity e)) as (v & L).
    { apply in_map_iff. now exists e. }
    { reflexivity. }
    exists v. apply dropna_In.
    destruct eq as [| e0 rest]; [destruct He |].
    unfold resample_D_last. simpl map.
    set (l := (EquityCurve.time e0, EquityCurve.equity e0)
              :: map (fun e => (EquityCurve.time e, EquityCurve.equity e)) rest) in *.
    assert (Lo : (date_of (EquityCurve.time e0) <= date_of (EquityCurve.time e))%Z).
    { apply date_of_monotone. inversion Srt as [| z r Hs Hf]; subst.
      destruct He as [<- | He]; [lia |].
      rewrite Forall_forall in Hf. now apply Hf. }
    assert (Hi : (date_of (EquityCurve.time e)
                  <= date_of (fst (last l (EquityCurve.time e0, EquityCurve.equity e0))))%Z).
    { apply date_of_monotone. subst l.
      change ((EquityCurve.time e0, EquityCurve.equity e0)
              :: map (fun e => (EquityCurve.time e, EquityCurve.equity e)) rest)
        with (map snapshot_pair (e0 :: rest)).
      change (EquityCurve.time e0, EquityCurve.equity e0) with (snapshot_pair e0).
      rewrite last_map.
      exact (sorted_last EquityCurve.time (e0 :: rest) e0 Srt e He). }
    apply in_map_iff.
    exists (Z.to_nat (date_of (EquityCurve.time e) - date_of (EquityCurve.time e0))).
    split.
    + rewrite Z2Nat.id by lia.
      replace (date_of (EquityCurve.time e0)
               + (date_of (EquityCurve.time e) - date_of (EquityCurve.time e0)))%Z
        with (date_of (EquityCurve.time e)) by lia.
      f_equal. exact L.
    + apply in_seq. simpl fst in *. lia.
Qed.

(** The daily series holds one value per calendar day on which the
    loaded history has a snapshot, in ascending order of the days, and
    the value of a day is that of its latest snapshot. *)
Theorem daily_equity_is_the_last_snapshot_of_each_day :
  forall (start_date : Z) (s : State),
    StronglySorted Z.lt (map fst (daily_equity_of (equity_data_of start_date s)))
    /\ (forall d v,
           In (d, v) (daily_equity_of (equity_data_of start_date s)) ->
           exists e, In e (equity_data_of start_date s)
                     /\ date_of (EquityCurve.time e) = d
                     /\ EquityCurve.equity e = v
                     /\ forall e', In e' (equity_data_of start_date s) ->
                                   date_of (EquityCurve.time e') = d ->
                                   (EquityCurve.time e' <= EquityCurve.time e)%Z)
    /\ (forall e, In e (equity_data_of start_date s) ->
                  exists v, In (date_of (EquityCurve.time e), v)
                               (daily_equity_of (equity_data_of start_date s))).
Proof. exact daily_equity_days. Qed.

(** ** Passes that have nothing to write *)

Lemma sorted_constant_short (l : list Z) d0 :
  StronglySorted Z.lt l -> (forall x, In x l -> x = d0) -> List.length l <= 1.
Proof.
  intros H C. destruct l as [| x [| y rest]]; simpl; try lia.
  exfalso. inversion H as [| x' r' _ Hf]; subst.
  rewrite Forall_forall in Hf.
  assert (x < y)%Z by (apply Hf; now left).
  rewrite (C x), (C y) in H0 by (simpl; auto). lia.
Qed.

Lemma one_day_is_insufficient start_date s d0 :
  (forall e, In e (equity_curve s) ->
             (midnight start_date <= EquityCurve.time e)%Z ->
             date_of (EquityCurve.time e) = d0) ->
  List.length (daily_equity_of (equity_data_of start_date s)) <= 1.
Proof.
  intros H.
  destruct (daily_equity_days start_date s)
    as (Srt & Last & _).
  rewrite <- (length_map fst).
  apply (sorted_constant_short _ d0 Srt).
  intros d Hd. apply in_map_iff in Hd as ([d' v] & <- & Hin). simpl.
  destruct (Last d' v Hin) as (e & He & De & _).
  apply equity_data_of_In in He as (He & Hm). rewrite <- De. now apply H.
Qed.

(** A pass over fewer than two daily values makes its one query and
    returns: nothing is selected, written or committed. *)
Lemma pass_insufficient a lib start_date s r s' :
  List.length (daily_equity_of (equity_data_of start_date s)) <= 1 ->
  _recompute_analytics_from_date a lib start_date s = (r, s') ->
  same_store s s' /\ session s' = session s /\ made [SelectEquity] s s'
  /\ (faults s = None ->
      r = inr tt
      /\ exists msg, log s' = log s ++ [(WARNING, msg)]).
Proof.
  intros Short H. unfold _recompute_analytics_from_date in H.
  unfold bind at 1 in H.
  destruct (round_trip SelectEquity s) as [[e | u] s1] eqn:R.
  { inversion H; subst.
    pose proof (round_trip_made _ _ _ _ R) as (A & B & _ & Se).
    split; [exact A |]. split; [exact Se |]. split; [exact B |].
    intros F. unfold round_trip in R. rewrite F in R. discriminate. }
  apply round_trip_made in R as (A & B & Lo & Se).
  unfold bind at 1, gets at 1 in H.
  destruct A as (T1 & T2 & T3 & T4).
  rewrite (equity_data_of_tables start_date s s1 T1) in H.
  destruct (equity_data_of start_date s) as [| e0 rest] eqn:E.
  { rewrite logger_run in H. inversion H; subst. simpl.
    repeat split; auto. rewrite Lo. eexists. reflexivity. }
  destruct (List.length (daily_equity_of (e0 :: rest)) <? 2) eqn:L.
  { rewrite logger_run in H. inversion H; subst. simpl.
    repeat split; auto. rewrite Lo. eexists. reflexivity. }
  apply Nat.ltb_ge in L. lia.
Qed.

(** An event on the last day of the equity history recomputes nothing.
    The pass starts at the event's date and loads that day only, one
    daily value; with fewer than two it logs a warning and returns, so
    the task ends normally with no analytics query and no commit, and
    the records stay as they are. *)
Theorem event_on_the_last_day_writes_nothing :
  forall (a : arith) (lib : core_analytics) (k : nat) (ty : string)
         (iid : option string) (t : Z) (s : State),
    (forall e, In e (equity_curve s) ->
               (midnight (date_of t) <= EquityCurve.time e)%Z ->
               date_of (EquityCurve.time e) = date_of t) ->
    fst (recompute_from_event a lib k None ty iid t s) = Returned
    /\ analytics_daily (snd (recompute_from_event a lib k None ty iid t s))
       = analytics_daily s
    /\ trace (snd (recompute_from_event a lib k None ty iid t s))
       = trace s ++ [SelectEquity]
    /\ exists msg,
         log (snd (recompute_from_event a lib k None ty iid t s))
         = log s ++ [(INFO, "Processing event"); (WARNING, msg);
                     (INFO, "Successfully processed event")].
Proof.
  intros a lib k ty iid t s H.
  pose proof (one_day_is_insufficient (date_of t) s (date_of t) H) as Short.
  rewrite recompute_from_event_run.
  destruct (_recompute_analytics_from_date a lib (date_of t)
              (with_log (log s ++ [(INFO, "Processing event")]) (SessionLocal None s)))
    as [r db'] eqn:E.
  apply pass_insufficient in E as ((_ & _ & _ & A) & _ & Mk & K); [| exact Short].
  destruct (K eq_refl) as (-> & msg & Lg).
  unfold made in Mk. simpl in *.
  split; [reflexivity |]. split; [exact A |]. split; [exact Mk |].
  exists msg. rewrite Lg, <- !app_assoc. reflexivity.
Qed.

Lemma event_on_the_last_day_writes_nothing_witness :
  fst (recompute_from_event Float64 Reference.analytics 0 None "equity" None
         (2 * 86400 + 60) Sample.recorded) = Returned
  /\ analytics_daily
       (snd (recompute_from_event Float64 Reference.analytics 0 None "equity" None
               (2 * 86400 + 60) Sample.recorded))
     = analytics_daily Sample.recorded.
Proof.
  destruct (event_on_the_last_day_writes_nothing Float64 Reference.analytics 0
              "equity" None (2 * 86400 + 60)%Z Sample.recorded) as (R & A & _).
  - intros e He Hm. simpl in He.
    repeat (destruct He as [<- | He]; [vm_compute in Hm |- *; try reflexivity;
                                       exfalso; apply Hm; reflexivity |]).
    destruct He.
  - split; assumption.
Defined.

(** ** The full recomputation *)

Lemma filter_all {A : Type} (f : A -> bool) l :
  (forall x, In x l -> f x = true) -> filter f l = l.
Proof.
  induction l as [| x rest IH]; intros H; simpl; [reflexivity |].
  rewrite (H x (or_introl eq_refl)). f_equal. apply IH.
  intros y Hy. apply H. now right.
Qed.

Lemma earliest_time_least l t :
  earliest_time l = Some t ->
  (exists e, In e l /\ EquityCurve.time e = t)
  /\ forall e, In e l -> (t <= EquityCurve.time e)%Z.
Proof.
  unfold earliest_time. intros H.
  pose proof (order_by_sorted EquityCurve.time l) as Srt.
  pose proof (order_by_In EquityCurve.time l) as Mem.
  destruct (order_by EquityCurve.time l) as [| e0 rest]; [discriminate |].
  inversion H; subst. split.
  - exists e0. split; [apply Mem; now left | reflexivity].
  - intros e He. apply Mem in He as [<- | He]; [lia |].
    inversion Srt as [| z r _ Hf]; subst.
    rewrite Forall_forall in Hf. now apply Hf.
Qed.

Lemma earliest_time_none l : earliest_time l = None -> l = [].
Proof.
  unfold earliest_time. intros H.
  pose proof (order_by_length EquityCurve.time l) as L.
  destruct (order_by EquityCurve.time l); [| discriminate].
  destruct l; [reflexivity | discriminate].
Qed.

Lemma recompute_all_analytics_try_empty a lib s :
  equity_curve s = [] ->
  recompute_all_analytics_try a lib (SessionLocal None s)
  = (inr tt,
     with_log ((log s ++ [(INFO, "Starting full analytics recomputation")])
               ++ [(INFO, "No equity data found, nothing to compute")])
       (with_trace (trace s ++ [SelectEarliestEquity])
          (with_log (log s ++ [(INFO, "Starting full analytics recomputation")])
             (SessionLocal None s)))).
Proof.
  intros E. unfold recompute_all_analytics_try.
  unfold bind at 1. rewrite logger_run.
  unfold bind at 1. rewrite round_trip_ok by reflexivity.
  unfold bind at 1, gets at 1.
  change (equity_curve (with_trace _ (with_log _ (SessionLocal None s))))
    with (equity_curve s).
  rewrite E. reflexivity.
Qed.

(** The full recomputation starts at the date of the earliest snapshot,
    and from that date the pass loads every snapshot of the table, so
    that its cumulative returns are relative to the first value of the
    whole history; on an empty table the task makes its one query, logs
    that there is nothing to compute and ends. *)
Theorem recompute_all_analytics_loads_the_whole_history :
  forall (a : arith) (lib : core_analytics) (s : State),
    (forall t, earliest_time (equity_curve s) = Some t ->
               equity_data_of (date_of t) s = order_by EquityCurve.time (equity_curve s)
               /\ recompute_all_analytics_try a lib (SessionLocal None s)
                  = (_recompute_analytics_from_date a lib (date_of t) ;;;
                     logger INFO "Full analytics recomputation complete")
                      (with_trace (trace s ++ [SelectEarliestEquity])
                         (with_log (log s
                                    ++ [(INFO, "Starting full analytics recomputation")])
                                   (SessionLocal None s))))
    /\ (equity_curve s = [] ->
        fst (recompute_all_analytics a lib None s) = Returned
        /\ analytics_daily (snd (recompute_all_analytics a lib None s)) = analytics_daily s
        /\ trace (snd (recompute_all_analytics a lib None s))
           = trace s ++ [SelectEarliestEquity]
        /\ log (snd (recompute_all_analytics a lib None s))
           = log s ++ [(INFO, "Starting full analytics recomputation");
                       (INFO, "No equity data found, nothing to compute")]).
Proof.
  intros a lib s. split.
  - intros t E. split.
    + destruct (earliest_time_least _ _ E) as (_ & Least).
      unfold equity_data_of. rewrite filter_all; [reflexivity |].
      intros e He. apply Z.leb_le.
      apply Z.le_trans with t; [apply midnight_date_of_le | now apply Least].
    + unfold recompute_all_analytics_try.
      unfold bind at 1. rewrite logger_run.
      unfold bind at 1. rewrite round_trip_ok by reflexivity.
      unfold bind at 1, gets at 1.
      change (equity_curve (with_trace _ (with_log _ (SessionLocal None s))))
        with (equity_curve s).
      rewrite E. reflexivity.
  - intros E. unfold recompute_all_analytics.
    rewrite (recompute_all_analytics_try_empty a lib s E). simpl.
    rewrite <- app_assoc. repeat split.
Qed.

Lemma recompute_all_analytics_loads_the_whole_history_witness :
  equity_data_of 0 Sample.recorded
  = order_by EquityCurve.time (equity_curve Sample.recorded)
  /\ fst (recompute_all_analytics Float64 Reference.analytics None (Sample.state [] []))
     = Returned.
Proof.
  destruct (recompute_all_analytics_loads_the_whole_history Float64 Reference.analytics
              Sample.recorded) as (Full & _).
  destruct (recompute_all_analytics_loads_the_whole_history Float64 Reference.analytics
              (Sample.state [] [])) as (_ & Empty).
  split.
  - apply (Full 0%Z). reflexivity.
  - apply Empty. reflexivity.
Defined.

(** ** What no pass writes *)

Lemma pass_keeps_columns a lib d db r db' :
  session db = map AnalyticsDaily.loaded (analytics_daily db) ->
  _recompute_analytics_from_date a lib d db = (r, db') ->
  map kept (analytics_daily db') = map kept (analytics_daily db).
Proof.
  intros Fresh E.
  destruct (session_pass_effect a lib d db r db' Fresh E)
    as (_ & [-> | (p & _ & _ & ->)]); [reflexivity |].
  rewrite map_map. apply map_ext. intros r0. apply pass_row_kept.
Qed.

Lemma recompute_all_analytics_keeps_columns a lib fault s :
  map kept (analytics_daily (snd (recompute_all_analytics a lib fault s)))
  = map kept (analytics_daily s).
Proof.
  unfold recompute_all_analytics, recompute_all_analytics_try.
  unfold bind at 1. rewrite logger_run.
  unfold bind at 1.
  match goal with
  | |- context [round_trip SelectEarliestEquity ?x] =>
      destruct (round_trip SelectEarliestEquity x) as [[e | u] s1] eqn:R
  end.
  - apply round_trip_made in R as ((_ & _ & _ & A) & _). simpl in *. now rewrite A.
  - apply round_trip_made in R as ((T1 & _ & _ & A) & _ & _ & Se).
    unfold bind at 1, gets at 1.
    destruct (earliest_time (equity_curve s1)) as [t |].
    + unfold bind.
      destruct (_recompute_analytics_from_date a lib (date_of t) s1)
        as [[e | u2] s2] eqn:P;
        (apply pass_keeps_columns in P; [| simpl in *; now rewrite Se, A]);
        simpl in *; now rewrite P, A.
    + simpl in *. now rewrite A.
Qed.

(** No pass, whichever task runs it and whether it commits or fails,
    adds or removes a record or changes [id], [date], [return_pct],
    [cum_return] or [drawdown] of one: whatever these columns held
    before, they hold after. *)
Theorem no_pass_writes_returns_or_drawdown :
  forall (a : arith) (lib : core_analytics) (fault : option nat) (s : State),
    (forall d, map kept (analytics_daily (snd (RecomputeFrom a lib fault d s)))
               = map kept (analytics_daily s))
    /\ (forall k ty iid t,
           map kept (analytics_daily (snd (recompute_from_event a lib k fault ty iid t s)))
           = map kept (analytics_daily s))
    /\ map kept (analytics_daily (snd (recompute_all_analytics a lib fault s)))
       = map kept (analytics_daily s).
Proof.
  intros a lib fault s. split; [| split].
  - intros d.
    destruct (RecomputeFrom_facts a lib fault d s) as (r & db' & E & _ & A & _).
    rewrite A.
    exact (pass_keeps_columns a lib d (SessionLocal fault s) r db' eq_refl E).
  - intros k ty iid t.
    destruct (recompute_from_event_facts a lib k fault ty iid t s)
      as (r & db' & E & _ & A & _).
    rewrite A.
    apply (pass_keeps_columns a lib (date_of t) _ r db') in E; [exact E | reflexivity].
  - apply recompute_all_analytics_keeps_columns.
Qed.

(** ** Days without a record *)

Lemma matches_loaded_from d rows k :
  List.length
    (filter (on_date d)
            (combine (seq k (List.length (map AnalyticsDaily.loaded rows)))
                     (map AnalyticsDaily.loaded rows)))
  = List.length (filter (fun r => (AnalyticsDaily.date r =? d)%Z) rows).
Proof.
  revert k. induction rows as [| r rest IH]; intros k; [reflexivity |].
  simpl. unfold on_date at 1. simpl.
  destruct (AnalyticsDaily.date r =? d)%Z; simpl; now rewrite IH.
Qed.

Lemma matches_loaded d s :
  List.length (matches d (map AnalyticsDaily.loaded (analytics_daily s))) = records_on d s.
Proof. unfold matches, records_on. apply matches_loaded_from. Qed.

Lemma in_combine_seq {A : Type} (y : A) l k :
  In y l -> exists i, In (i, y) (combine (seq k (List.length l)) l).
Proof.
  revert k. induction l as [| x rest IH]; intros k H; [destruct H |].
  destruct H as [-> | H].
  - exists k. now left.
  - destruct (IH (S k) H) as (i & Hi). exists i. now right.
Qed.

Lemma pass_needs_records a lib d db db' :
  session db = map AnalyticsDaily.loaded (analytics_daily db) ->
  _recompute_analytics_from_date a lib d db = (inr tt, db') ->
  2 <= List.length (days_from d db) ->
  forall x, In x (days_from d db) -> records_on x db = 1.
Proof.
  intros Fresh E Two x Hx. unfold days_from in *. rewrite length_map in Two.
  apply pass_inr in E as [(W & _) | (p & W & Ok & _)].
  - exfalso. unfold pass_work in W.
    destruct (equity_data_of d db) as [| e0 rest]; [simpl in Two; lia |].
    destruct (List.length (daily_equity_of (e0 :: rest)) <? 2) eqn:L.
    + apply Nat.ltb_lt in L. lia.
    + destruct (benchmark_returns_of "SPY" d db); discriminate.
  - destruct (pass_work_days lib d db p W) as (D & _).
    apply in_map_iff in Hx as ([x' v] & <- & Hv).
    destruct (in_combine_seq (x', v) _ 0 Hv) as (i & Hi).
    rewrite <- D in Hi. specialize (Ok _ Hi).
    unfold day_ok in Ok. simpl in Ok.
    apply daily_equity_dates_from_start in Hv.
    apply Z.ltb_ge in Hv. rewrite Hv in Ok. simpl in Ok.
    apply andb_prop in Ok as (Ok & _). apply Nat.eqb_eq in Ok.
    rewrite Fresh, matches_loaded in Ok. exact Ok.
Qed.

Lemma days_from_tables d s s' : same_tables s s' -> days_from d s' = days_from d s.
Proof.
  intros (A & _). unfold days_from. now rewrite (equity_data_of_tables d s s' A).
Qed.

(** A pass that goes through with two or more days to compute has found
    exactly one record for each of them: the pass writes values into
    records that exist and creates none. *)
Theorem pass_goes_through_only_on_recorded_days :
  forall (a : arith) (lib : core_analytics) (fault : option nat) (d : Z) (s : State),
    fst (RecomputeFrom a lib fault d s) = inr tt ->
    2 <= List.length (days_from d s) ->
    (forall x, In x (days_from d s) -> records_on x s = 1)
    /\ List.length (analytics_daily (snd (RecomputeFrom a lib fault d s)))
       = List.length (analytics_daily s).
Proof.
  intros a lib fault d s R Two.
  destruct (RecomputeFrom_facts a lib fault d s) as (r & db' & E & Fst & A & _).
  rewrite Fst in R. subst r. split.
  - intros x Hx.
    exact (pass_needs_records a lib d (SessionLocal fault s) db' eq_refl E Two x Hx).
  - apply (pass_keeps_columns a lib d (SessionLocal fault s)) in E; [| reflexivity].
    rewrite A. rewrite <- (length_map kept), E. apply length_map.
Qed.

Lemma pass_goes_through_only_on_recorded_days_witness :
  (forall x, In x (days_from 1 Sample.recorded) -> records_on x Sample.recorded = 1)
  /\ List.length (analytics_daily
                    (snd (RecomputeFrom Float64 Reference.analytics None 1 Sample.recorded)))
     = List.length (analytics_daily Sample.recorded).
Proof.
  apply (pass_goes_through_only_on_recorded_days Float64 Reference.analytics None 1
           Sample.recorded).
  - vm_compute. reflexivity.
  - vm_compute. lia.
Defined.

Lemma event_fails_without_record a lib ty iid t k f s x :
  2 <= List.length (days_from (date_of t) s) ->
  In x (days_from (date_of t) s) -> records_on x s = 0 ->
  fst (event_body a lib ty iid t k f s) <> Returned.
Proof.
  intros Two Hx Zero R. unfold event_body in R.
  destruct (recompute_from_event_facts a lib k f ty iid t s) as (r & db' & E & Fst & _).
  rewrite Fst in R. destruct r as [e | []].
  - unfold self_retry in R. destruct (max_retries <? k + 1); discriminate.
  - apply (pass_needs_records a lib (date_of t) _ db') with (x := x) in E;
      [| reflexivity | exact Two | exact Hx].
    change (records_on x s = 1) in E. lia.
Qed.

Lemma state_after_failures a lib ty iid t plan s x n :
  2 <= List.length (days_from (date_of t) s) ->
  In x (days_from (date_of t) s) -> records_on x s = 0 ->
  same_tables s (state_after (event_body a lib ty iid t) plan n s)
  /\ analytics_daily (state_after (event_body a lib ty iid t) plan n s) = analytics_daily s.
Proof.
  intros Two Hx Zero. induction n as [| m (T & A)]; simpl.
  - repeat split.
  - set (sm := state_after (event_body a lib ty iid t) plan m s) in *.
    assert (N : fst (event_body a lib ty iid t m (plan m) sm) <> Returned).
    { apply event_fails_without_record with x.
      - now rewrite (days_from_tables _ s sm T).
      - now rewrite (days_from_tables _ s sm T).
      - unfold records_on in *. now rewrite A. }
    destruct (event_failure_logged a lib ty iid t m (plan m) sm N) as (_ & A').
    split; [| now rewrite A'].
    unfold event_body.
    destruct (recompute_from_event_facts a lib m (plan m) ty iid t sm)
      as (_ & _ & _ & _ & _ & (T1 & T2 & T3)).
    destruct T as (U1 & U2 & U3). repeat split; congruence.
Qed.

(** When the history from the day of an event has two or more days and
    one of them has no analytics record, no execution of the event task
    goes through, whatever the store does: the delivery runs the task
    four times, retried after 1, 2 and 4 seconds, ends with the
    exception raised, and the analytics records are those of before.
    The day stays without a record, so the same holds for every later
    event on or before that day. *)
Theorem a_day_without_record_exhausts_the_retries :
  forall (a : arith) (lib : core_analytics) (ty : string) (iid : option string)
         (t : Z) (plan : nat -> option nat) (s : State) (x : Z),
    2 <= List.length (days_from (date_of t) s) ->
    In x (days_from (date_of t) s) ->
    records_on x s = 0 ->
    exists e s',
      deliver (S (S max_retries)) (event_body a lib ty iid t) plan 0 s
      = Some ({| attempts := 4; countdowns := [1; 2; 4]; final := Raised e |}, s')
      /\ analytics_daily s' = analytics_daily s
      /\ same_tables s s'
      /\ records_on x s' = 0.
Proof.
  intros a lib ty iid t plan s x Two Hx Zero.
  destruct (four_failures a lib ty iid t plan s) as (e & D).
  - intros k _.
    destruct (state_after_failures a lib ty iid t plan s x k Two Hx Zero) as (T & A).
    apply event_fails_without_record with x.
    + now rewrite (days_from_tables _ s _ T).
    + now rewrite (days_from_tables _ s _ T).
    + unfold records_on in *. now rewrite A.
  - destruct (state_after_failures a lib ty iid t plan s x 4 Two Hx Zero) as (T & A).
    exists e. eexists. split; [exact D |]. split; [exact A |]. split; [exact T |].
    unfold records_on in *. now rewrite A.
Qed.

Lemma a_day_without_record_exhausts_the_retries_witness :
  exists e s',
    deliver (S (S max_retries)) (event_body Float64 Reference.analytics "trade" None 0)
            (fun _ => None) 0 Sample.unrecorded
    = Some ({| attempts := 4; countdowns := [1; 2; 4]; final := Raised e |}, s')
    /\ analytics_daily s' = analytics_daily Sample.unrecorded
    /\ same_tables Sample.unrecorded s'
    /\ records_on 0 s' = 0.
Proof.
  apply (a_day_without_record_exhausts_the_retries Float64 Reference.analytics "trade" None
           0%Z (fun _ => None) Sample.unrecorded 0%Z).
  - vm_compute. lia.
  - vm_compute. tauto.
  - reflexivity.
Defined.

(** ** The rolling columns after a pass *)

Lemma with_rolling_kept vol sharpe beta alpha r r' :
  kept r = kept r' ->
  with_rolling vol sharpe beta alpha r = with_rolling vol sharpe beta alpha r'.
Proof. unfold kept, with_rolling. intros K. inversion K. congruence. Qed.

Lemma steps_last a start_date dr rv rs be al max_dd v0 es e o :
  steps a start_date dr rv rs be al max_dd v0 (es ++ [e]) o
  = day_step a start_date dr rv rs be al max_dd v0 e
             (steps a start_date dr rv rs be al max_dd v0 es o).
Proof. unfold steps. now rewrite fold_left_app. Qed.

(** The row of a record whose day is among the days of the loop, once
    every day of the loop has gone through: the row of before with the
    four rolling columns of one of these days. *)
Lemma steps_touched a start_date dr rv rs be al max_dd v0 es o :
  AnalyticsDaily.persistent o = true ->
  (forall e, In e es -> (fst (snd e) <? start_date)%Z = false) ->
  (forall e, In e es -> fst (snd e) = AnalyticsDaily.date (AnalyticsDaily.row o) ->
             is_inr (truediv a (snd (snd e)) v0) = true) ->
  (exists e, In e es /\ fst (snd e) = AnalyticsDaily.date (AnalyticsDaily.row o)) ->
  exists e, In e es /\ fst (snd e) = AnalyticsDaily.date (AnalyticsDaily.row o)
            /\ AnalyticsDaily.row (steps a start_date dr rv rs be al max_dd v0 es o)
               = with_rolling (float_or_none (iloc_or_none rv (fst e)))
                              (float_or_none (iloc_or_none rs (fst e)))
                              (float_or_none (iloc_or_none be (fst e)))
                              (float_or_none (iloc_or_none al (fst e)))
                              (AnalyticsDaily.row o).
Proof.
  intros P. induction es as [| e es IH] using rev_ind; intros G Dv (x & Hx & Dx).
  - destruct Hx.
  - rewrite steps_last.
    set (o1 := steps a start_date dr rv rs be al max_dd v0 es o).
    destruct (steps_alike a start_date dr rv rs be al max_dd v0 es o) as (P1 & K1).
    fold o1 in P1, K1.
    assert (D1 : AnalyticsDaily.date (AnalyticsDaily.row o1)
                 = AnalyticsDaily.date (AnalyticsDaily.row o))
      by (unfold kept in K1; now inversion K1).
    unfold day_step. rewrite (G e) by (apply in_or_app; right; now left).
    unfold dated. rewrite P1, P, D1. simpl.
    destruct (AnalyticsDaily.date (AnalyticsDaily.row o) =? fst (snd e))%Z eqn:M.
    + apply Z.eqb_eq in M. exists e. split; [apply in_or_app; right; now left |].
      split; [now symmetry |].
      rewrite day_update_row.
      assert (I : is_inr (truediv a (snd (snd e)) v0) = true)
        by (apply Dv; [apply in_or_app; right; now left | now symmetry]).
      destruct (truediv a (snd (snd e)) v0); [discriminate |].
      now apply with_rolling_kept.
    + apply Z.eqb_neq in M.
      destruct IH as (y & Hy & Dy & R).
      * intros z Hz. apply G. apply in_or_app. now left.
      * intros z Hz. apply Dv. apply in_or_app. now left.
      * apply in_app_or in Hx as [Hx | [<- | []]]; [now exists x | congruence].
      * exists y. split; [apply in_or_app; now left |]. split; assumption.
Qed.

Lemma iloc_none_series s idx : float_or_none (iloc_or_none (none_series s) idx) = None.
Proof.
  unfold iloc_or_none, none_series. rewrite nth_error_map.
  destruct (nth_error s idx); reflexivity.
Qed.

Lemma aligned_frame_length p b : List.length (aligned_frame p b) <= List.length p.
Proof.
  unfold aligned_frame. rewrite order_by_length.
  induction p as [| r rest IH]; simpl; [lia |].
  rewrite length_app.
  destruct (float_or_none (snd r)), (at_index (fst r) b); simpl; lia.
Qed.

(** The benchmark columns of the plan are all null when the benchmark
    has fewer than 60 bars from the start date or the portfolio fewer
    than 60 returns. *)
Lemma plan_without_benchmark lib start_date s p :
  pass_work lib start_date s = inr (Some p) ->
  (forall spy, benchmark_returns_of "SPY" start_date s = inr (Some spy) ->
               List.length spy < 60)
  \/ List.length (compute_daily_returns lib (daily_equity_of (equity_data_of start_date s)))
     < 60 ->
  p_beta p = none_series (p_returns p) /\ p_alpha p = none_series (p_returns p).
Proof.
  unfold pass_work. intros W H.
  destruct (equity_data_of start_date s) as [| e0 rest]; [discriminate |].
  destruct (List.length (daily_equity_of (e0 :: rest)) <? 2); [discriminate |].
  destruct (benchmark_returns_of "SPY" start_date s) as [x | spy]; [discriminate |].
  inversion W; subst p. unfold plan_of. cbn [p_beta p_alpha p_returns].
  destruct spy as [spy |]; [| split; reflexivity].
  destruct (60 <=? List.length spy) eqn:L1; [| split; reflexivity].
  destruct (60 <=? List.length
                     (aligned_frame (compute_daily_returns lib (daily_equity_of (e0 :: rest)))
                                    spy)) eqn:L2; [| split; reflexivity].
  exfalso. apply Nat.leb_le in L1, L2.
  destruct H as [H | H].
  - specialize (H spy eq_refl). lia.
  - pose proof (aligned_frame_length
                  (compute_daily_returns lib (daily_equity_of (e0 :: rest))) spy). lia.
Qed.

Lemma plan_days_from_start lib start_date s p e :
  pass_work lib start_date s = inr (Some p) -> In e (p_days p) ->
  (fst (snd e) <? start_date)%Z = false.
Proof.
  intros W He. destruct (pass_work_days lib start_date s p W) as (D & _).
  rewrite D in He. destruct e as [idx [d v]]. apply in_combine_r in He. simpl.
  apply daily_equity_dates_from_start in He. now apply Z.ltb_ge.
Qed.

(** What a pass that went through has left in a record of one of its
    days. *)
Lemma pass_row_touched a lib d db db' r' :
  session db = map AnalyticsDaily.loaded (analytics_daily db) ->
  _recompute_analytics_from_date a lib d db = (inr tt, db') ->
  2 <= List.length (days_from d db) ->
  In r' (analytics_daily db') -> In (AnalyticsDaily.date r') (days_from d db) ->
  exists p r e,
    pass_work lib d db = inr (Some p) /\ In r (analytics_daily db) /\ In e (p_days p)
    /\ fst (snd e) = AnalyticsDaily.date r
    /\ r' = with_rolling (float_or_none (iloc_or_none (p_vol p) (fst e)))
                         (float_or_none (iloc_or_none (p_sharpe p) (fst e)))
                         (float_or_none (iloc_or_none (p_beta p) (fst e)))
                         (float_or_none (iloc_or_none (p_alpha p) (fst e))) r.
Proof.
  intros Fresh E Two Hr Hd. unfold days_from in *. rewrite length_map in Two.
  apply pass_inr in E as [(W & _) | (p & W & Ok & _ & Se & An)].
  - exfalso. unfold pass_work in W.
    destruct (equity_data_of d db) as [| e0 rest]; [simpl in Two; lia |].
    destruct (List.length (daily_equity_of (e0 :: rest)) <? 2) eqn:L.
    + apply Nat.ltb_lt in L. lia.
    + destruct (benchmark_returns_of "SPY" d db); discriminate.
  - rewrite An, Se, Fresh, committed_rows in Hr.
    apply in_map_iff in Hr as (r & <- & Hr).
    rewrite pass_row_date in Hd.
    apply in_map_iff in Hd as ([x v] & Dx & Hv). simpl in Dx.
    destruct (pass_work_days lib d db p W) as (D & _).
    destruct (in_combine_seq (x, v) _ 0 Hv) as (i & Hi). rewrite <- D in Hi.
    destruct (steps_touched a d (p_returns p) (p_vol p) (p_sharpe p) (p_beta p) (p_alpha p)
                (p_max_dd p) (p_v0 p) (p_days p) (AnalyticsDaily.loaded r))
      as (e & He & De & R).
    + reflexivity.
    + intros e He. now apply (plan_days_from_start lib d db p e W).
    + intros e He _. specialize (Ok e He). unfold day_ok in Ok.
      rewrite (plan_days_from_start lib d db p e W He) in Ok. simpl in Ok.
      now apply andb_prop in Ok as (_ & Ok).
    + exists (i, (x, v)). split; [exact Hi | exact Dx].
    + exists p, r, e. repeat split; assumption.
Qed.

(** After a pass that went through, no rolling column of a record of
    one of its days holds a not-a-number; and when the benchmark has
    fewer than 60 bars from the start date, or the portfolio fewer than
    60 returns, the [beta_spy_60d] and [alpha_spy_60d] of these records
    are null, whatever they held before. *)
Theorem pass_nulls_beta_and_alpha_without_sixty_days :
  forall (a : arith) (lib : core_analytics) (fault : option nat) (d : Z) (s : State)
         (r' : AnalyticsDaily.t),
    fst (RecomputeFrom a lib fault d s) = inr tt ->
    2 <= List.length (days_from d s) ->
    In r' (analytics_daily (snd (RecomputeFrom a lib fault d s))) ->
    In (AnalyticsDaily.date r') (days_from d s) ->
    (AnalyticsDaily.volatility_20d r' <> Some NaN
     /\ AnalyticsDaily.sharpe_60d r' <> Some NaN
     /\ AnalyticsDaily.beta_spy_60d r' <> Some NaN
     /\ AnalyticsDaily.alpha_spy_60d r' <> Some NaN)
    /\ ((forall spy, benchmark_returns_of "SPY" d s = inr (Some spy) ->
                     List.length spy < 60)
        \/ List.length (compute_daily_returns lib (daily_equity_of (equity_data_of d s)))
           < 60 ->
        AnalyticsDaily.beta_spy_60d r' = None /\ AnalyticsDaily.alpha_spy_60d r' = None).
Proof.
  intros a lib fault d s r' R Two Hr Hd.
  destruct (RecomputeFrom_facts a lib fault d s) as (r & db' & E & Fst & A & _).
  rewrite Fst in R. subst r. rewrite A in Hr.
  destruct (pass_row_touched a lib d (SessionLocal fault s) db' r' eq_refl E Two Hr Hd)
    as (p & r & e & W & _ & _ & _ & ->).
  split.
  - unfold with_rolling. simpl. repeat split; apply float_or_none_not_nan.
  - intros H.
    destruct (plan_without_benchmark lib d (SessionLocal fault s) p W H) as (B & Al).
    unfold with_rolling. simpl. rewrite B, Al. split; apply iloc_none_series.
Qed.

Lemma pass_nulls_beta_and_alpha_without_sixty_days_witness :
  In (with_rolling None None None None (Sample.record 1 1 Sample.half))
     (analytics_daily
        (snd (RecomputeFrom Float64 Reference.analytics None 1 Sample.recorded)))
  /\ AnalyticsDaily.beta_spy_60d (Sample.record 1 1 Sample.half) = Sample.half
  /\ AnalyticsDaily.beta_spy_60d
       (with_rolling None None None None (Sample.record 1 1 Sample.half)) = None
  /\ AnalyticsDaily.alpha_spy_60d
       (with_rolling None None None None (Sample.record 1 1 Sample.half)) = None.
Proof.
  split; [vm_compute; tauto |]. split; [reflexivity |].
  apply (pass_nulls_beta_and_alpha_without_sixty_days Float64 Reference.analytics None 1
           Sample.recorded (with_rolling None None None None (Sample.record 1 1 Sample.half))).
  - vm_compute. reflexivity.
  - vm_compute. lia.
  - vm_compute. tauto.
  - vm_compute. tauto.
  - left. intros spy H. vm_compute in H. discriminate.
Defined.

(** * Properties of the market-data fetcher *)

Section FetcherFacts.

Import Fetcher.
Local Open Scope fetcher_scope.

Variable history : string -> Z -> Z -> error + list frame_row.
Variable numeric_12_4 : num -> bool.
Variable today : Z.

Lemma fetcher_bind_inv_inr {A B : Type} (m : F A) (k : A -> F B) s b s' :
  (x <- m ;; k x) s = (inr b, s') ->
  exists a s1, m s = (inr a, s1) /\ k a s1 = (inr b, s').
Proof.
  unfold bind. destruct (m s) as [[e | a] s1]; intros H; [discriminate |].
  now exists a, s1.
Qed.

Lemma fetcher_bind_inv_inl {A B : Type} (m : F A) (k : A -> F B) s e s' :
  (x <- m ;; k x) s = (inl e, s') ->
  m s = (inl e, s') \/ exists a s1, m s = (inr a, s1) /\ k a s1 = (inl e, s').
Proof.
  unfold bind. destruct (m s) as [[e0 | a] s1]; intros H.
  - left. inversion H; subst. reflexivity.
  - right. now exists a, s1.
Qed.

(** A round trip changes trace and fault plan only. *)
Lemma fetcher_round_trip o s r s' :
  round_trip o s = (r, s') ->
  instruments s' = instruments s /\ ohlc_daily s' = ohlc_daily s
  /\ tx_instruments s' = tx_instruments s /\ session s' = session s
  /\ log s' = log s /\ trace s' = trace s ++ [o]
  /\ (faults s = None -> r = inr tt /\ faults s' = None)
  /\ (forall e, r = inl e -> e = OperationalError).
Proof.
  unfold round_trip. intros H.
  destruct (faults s) as [[| n] |] eqn:Fs; inversion H; subst; simpl;
    (do 6 (split; [reflexivity |])); split; intros; try discriminate;
    try congruence; split; congruence.
Qed.

Lemma select_instrument_run symbol s r s' :
  select_instrument symbol s = (r, s') ->
  instruments s' = instruments s /\ ohlc_daily s' = ohlc_daily s
  /\ tx_instruments s' = tx_instruments s /\ session s' = session s
  /\ log s' = log s /\ trace s' = trace s ++ [SelectInstrument symbol]
  /\ (faults s = None -> faults s' = None)
  /\ (forall found, r = inr found ->
        scalar_one_or_none
          (filter (fun i => String.eqb (Instrument.symbol i) symbol) (tx_instruments s))
        = inr found)
  /\ (faults s = None ->
      r = scalar_one_or_none
            (filter (fun i => String.eqb (Instrument.symbol i) symbol) (tx_instruments s))).
Proof.
  unfold select_instrument, bind. intros H.
  destruct (round_trip (SelectInstrument symbol) s) as [[e | []] s1] eqn:R;
    apply fetcher_round_trip in R as (A & B & C & D & E & T & Fa & _).
  - inversion H; subst. repeat split; try assumption.
    + intros Fn. now apply Fa.
    + discriminate.
    + intros Fn. destruct (Fa Fn). discriminate.
  - unfold gets, lift in H. rewrite C in H.
    destruct (scalar_one_or_none
                (filter (fun i => String.eqb (Instrument.symbol i) symbol)
                        (tx_instruments s))) as [e | found];
      inversion H; subst; repeat split; try assumption;
      try (intros Fn; now apply Fa); try discriminate; try reflexivity.
    intros found' Hf. now inversion Hf.
Qed.

(** How the [try] block ends for a symbol that has no instrument. *)
Lemma fetch_try_without_instrument symbol start_date end_date days_back s :
  filter (fun i => String.eqb (Instrument.symbol i) symbol) (tx_instruments s) = [] ->
  exists e s',
    fetch_and_store_ohlc_try history numeric_12_4 today symbol start_date end_date
                             days_back s = (inl e, s')
    /\ instruments s' = instruments s /\ ohlc_daily s' = ohlc_daily s
    /\ log s' = log s /\ trace s' = trace s ++ [SelectInstrument symbol]
    /\ (faults s = None -> e = TypeError "asset_type").
Proof.
  intros Nil. unfold fetch_and_store_ohlc_try. unfold bind at 1.
  destruct (select_instrument symbol s) as [[e | found] s1] eqn:Sel;
    apply select_instrument_run in Sel as (A & B & C & D & E & T & Fa & Found & Ok).
  - exists e, s1. repeat split; try assumption.
    intros Fn. specialize (Ok Fn). rewrite Nil in Ok. discriminate.
  - specialize (Found found eq_refl). rewrite Nil in Found. inversion Found; subst.
    exists (TypeError "asset_type"), s1. repeat split; assumption.
Qed.

End FetcherFacts.

(** A symbol that has no instrument cannot be fetched: the constructor
    call of the fetcher names [asset_type], which is no attribute of
    [Instrument], so whatever the store and the service do the call
    returns 0 after one query and a rollback, with the error logged,
    the service not called and both tables as they were. *)
Theorem fetcher_cannot_create_an_instrument :
  forall (history : string -> Z -> Z -> Fetcher.error + list Fetcher.frame_row)
         (numeric_12_4 : num -> bool) (today : Z) (symbol : string)
         (start_date end_date : option Z) (days_back : Z) (s : Fetcher.Store),
    filter (fun i => String.eqb (Instrument.symbol i) symbol) (Fetcher.tx_instruments s)
    = [] ->
    Fetcher.init_instrument [("symbol", symbol); ("name", symbol);
                             ("asset_type", "stock"); ("exchange", "US")] []
    = inl (Fetcher.TypeError "asset_type")
    /\ exists s',
         Fetcher.fetch_and_store_ohlc history numeric_12_4 today symbol start_date end_date
                                      days_back s = (inr 0, s')
         /\ Fetcher.instruments s' = Fetcher.instruments s
         /\ Fetcher.ohlc_daily s' = Fetcher.ohlc_daily s
         /\ Fetcher.trace s'
            = Fetcher.trace s ++ [Fetcher.SelectInstrument symbol; Fetcher.Rollback]
         /\ Fetcher.log s' = Fetcher.log s ++ [(ERROR, "Error fetching data")].
Proof.
  intros history numeric_12_4 today symbol start_date end_date days_back s Nil.
  split; [reflexivity |].
  destruct (fetch_try_without_instrument history numeric_12_4 today symbol start_date
              end_date days_back s Nil) as (e & s1 & Try & A & B & L & T & _).
  unfold Fetcher.fetch_and_store_ohlc, Fetcher.try_except. rewrite Try.
  eexists. split; [reflexivity |]. simpl.
  rewrite A, B, L, T, <- app_assoc. repeat split.
Qed.

Lemma fetcher_cannot_create_an_instrument_witness :
  exists s',
    Fetcher.fetch_and_store_ohlc Fetcher.Sample.history Fetcher.Sample.finite 20 "QQQ"
                                 None None 5 Fetcher.Sample.store = (inr 0, s')
    /\ Fetcher.instruments s' = Fetcher.instruments Fetcher.Sample.store
    /\ Fetcher.ohlc_daily s' = Fetcher.ohlc_daily Fetcher.Sample.store
    /\ Fetcher.trace s' = [Fetcher.SelectInstrument "QQQ"; Fetcher.Rollback]
    /\ Fetcher.log s' = [(ERROR, "Error fetching data")].
Proof.
  apply (fetcher_cannot_create_an_instrument Fetcher.Sample.history Fetcher.Sample.finite
           20%Z "QQQ" None None 5%Z Fetcher.Sample.store).
  reflexivity.
Defined.

(** ** The runs of the fetcher *)

Section FetcherRuns.

Import Fetcher.
Local Open Scope fetcher_scope.

Variable history : string -> Z -> Z -> error + list frame_row.
Variable numeric_12_4 : num -> bool.
Variable today : Z.

Lemma reads_only_refl s : reads_only s s.
Proof. repeat split; auto. Qed.

Lemma reads_only_trans s1 s2 s3 : reads_only s1 s2 -> reads_only s2 s3 -> reads_only s1 s3.
Proof.
  intros (A & B & C & D & E) (A' & B' & C' & D' & E').
  repeat split; try congruence. auto.
Qed.

Lemma round_trip_reads_only o s r s' :
  round_trip o s = (r, s') -> reads_only s s' /\ session s' = session s.
Proof.
  intros H. apply fetcher_round_trip in H as (A & B & C & D & E & _ & Fa & _).
  repeat split; try assumption. intros Fn. now apply Fa.
Qed.

Lemma round_trip_goes o s :
  faults s = None -> round_trip o s = (inr tt, with_trace (trace s ++ [o]) s).
Proof. intros Fn. unfold round_trip. now rewrite Fn. Qed.

Lemma select_bar_run iid d s r s' :
  select_bar iid d s = (r, s') ->
  reads_only s s' /\ session s' = session s
  /\ (forall found, r = inr found ->
        scalar_one_or_none (matches iid d (session s)) = inr found).
Proof.
  unfold select_bar, bind. intros H.
  destruct (round_trip (SelectBar iid d) s) as [[e | []] s1] eqn:R;
    apply round_trip_reads_only in R as (RO & Se).
  - inversion H; subst. repeat split; try apply RO; try assumption. discriminate.
  - unfold gets, lift in H. rewrite Se in H.
    destruct (scalar_one_or_none (matches iid d (session s))) as [e | found];
      inversion H; subst; repeat split; try apply RO; try assumption; try discriminate.
    intros found' Hf. now inversion Hf.
Qed.

Lemma select_bar_goes iid d s :
  faults s = None ->
  select_bar iid d s
  = (match scalar_one_or_none (matches iid d (session s)) with
     | inl e => inl e
     | inr found => inr found
     end, with_trace (trace s ++ [SelectBar iid d]) s).
Proof.
  intros Fn. unfold select_bar, bind. rewrite (round_trip_goes _ _ Fn).
  unfold gets, lift. simpl.
  destruct (scalar_one_or_none (matches iid d (session s))); reflexivity.
Qed.

Lemma int_truncated r v : int (Volume r) = inr v -> v = truncated r.
Proof. unfold truncated. now intros ->. Qed.

Lemma store_row_run i r s res s' :
  store_row i r s = (res, s') ->
  reads_only s s'
  /\ (res = inr tt ->
      session s' = step (Instrument.id i) r (session s)
      /\ int (Volume r) = inr (truncated r)).
Proof.
  unfold store_row. unfold bind at 1. intros H.
  destruct (select_bar (Instrument.id i) (trade_date r) s) as [[e | found] s1] eqn:Sel;
    apply select_bar_run in Sel as (RO & Se & Found).
  - inversion H; subst. split; [exact RO | discriminate].
  - specialize (Found found eq_refl). unfold step.
    destruct (matches (Instrument.id i) (trade_date r) (session s))
      as [| [k o] [| m rest]]; simpl in Found; inversion Found; subst.
    + unfold bind, lift in H.
      destruct (int (Volume r)) as [e | v] eqn:I; simpl in H; inversion H; subst.
      * split; [exact RO | discriminate].
      * split; [destruct RO as (A & B & C & D & E); repeat split; assumption |].
        intros _. simpl. rewrite Se, (int_truncated r v I). split; reflexivity.
    + unfold bind, lift, put_instance, modify in H.
      destruct (int (Volume r)) as [e | v] eqn:I; simpl in H; inversion H; subst.
      * split; [destruct RO as (A & B & C & D & E); repeat split; assumption |].
        discriminate.
      * split; [destruct RO as (A & B & C & D & E); repeat split; assumption |].
        intros _. simpl. rewrite Se, (int_truncated r v I). split; [| reflexivity].
        apply replace_nth_twice.
Qed.

Lemma store_rows_run i df k s res s' :
  store_rows i df k s = (res, s') ->
  reads_only s s'
  /\ (forall n, res = inr n ->
        n = k + List.length df
        /\ session s' = fold_left (fun os r => step (Instrument.id i) r os) df (session s)
        /\ forall r, In r df -> int (Volume r) = inr (truncated r)).
Proof.
  revert k s. induction df as [| r rest IH]; intros k s H; simpl in H.
  - inversion H; subst. split; [apply reads_only_refl |].
    intros n Hn. inversion Hn; subst. simpl. repeat split; [lia | intros r []].
  - unfold bind in H.
    destruct (store_row i r s) as [[e | []] s1] eqn:R;
      apply store_row_run in R as (RO & Ok).
    + inversion H; subst. split; [exact RO | discriminate].
    + apply IH in H as (RO2 & Ok2).
      split; [eapply reads_only_trans; eassumption |].
      intros n Hn. destruct (Ok eq_refl) as (Se & I).
      destruct (Ok2 n Hn) as (N & Se2 & I2).
      simpl. rewrite <- Se. repeat split; [lia | exact Se2 |].
      intros r' [<- | Hr]; [exact I | now apply I2].
Qed.

Lemma db_commit_run s res s' :
  db_commit numeric_12_4 s = (res, s') ->
  log s' = log s /\ (faults s = None -> faults s' = None)
  /\ (forall e, res = inl e ->
        instruments s' = instruments s /\ ohlc_daily s' = ohlc_daily s
        /\ tx_instruments s' = tx_instruments s)
  /\ (res = inr tt ->
        instruments s' = tx_instruments s /\ tx_instruments s' = tx_instruments s
        /\ session s' = assign_ids (next_id (ohlc_daily s)) (session s)
        /\ ohlc_daily s' = map row (session s')
        /\ distinct_keys (map row (session s)) = true
        /\ forallb (storable numeric_12_4) (map row (session s)) = true).
Proof.
  unfold db_commit, bind. intros H.
  destruct (round_trip Commit s) as [[e | []] s1] eqn:R;
    apply round_trip_reads_only in R as ((A & B & C & D & E) & Se).
  - inversion H; subst. repeat split; try assumption; discriminate.
  - unfold gets in H. rewrite Se in H.
    destruct (forallb (storable numeric_12_4) (map row (session s))) eqn:St; simpl in H.
    + destruct (distinct_keys (map row (session s))) eqn:Di; simpl in H.
      * unfold modify in H. inversion H; subst. simpl.
        rewrite B, C. repeat split; try assumption; discriminate.
      * inversion H; subst. repeat split; try assumption; discriminate.
    + inversion H; subst. repeat split; try assumption; discriminate.
Qed.

Lemma scalar_one_some {A : Type} (l : list A) (x : A) :
  scalar_one_or_none l = inr (Some x) -> l = [x].
Proof. destruct l as [| y [| z rest]]; simpl; intros H; inversion H; reflexivity. Qed.

(** How the [try] block of a fetch in a clean session ends. *)
Lemma fetch_try_run symbol start_date end_date days_back s res s' :
  clean s ->
  fetch_and_store_ohlc_try history numeric_12_4 today symbol start_date end_date
                           days_back s = (res, s') ->
  (forall e, res = inl e ->
     instruments s' = instruments s /\ ohlc_daily s' = ohlc_daily s)
  /\ (forall n, res = inr n ->
        (n = 0 /\ instruments s' = instruments s /\ ohlc_daily s' = ohlc_daily s
         /\ clean s')
        \/ exists i df,
             filter (fun i => String.eqb (Instrument.symbol i) symbol) (instruments s) = [i]
             /\ history symbol
                        match start_date with Some d => d | None => (today - days_back)%Z end
                        (match end_date with Some d => d | None => today end + 1)%Z
                = inr df
             /\ n = List.length df /\ n <> 0
             /\ (forall r, In r df -> int (Volume r) = inr (truncated r))
             /\ distinct_keys
                  (map row (fold_left (fun os r => step (Instrument.id i) r os) df
                                      (map loaded (ohlc_daily s)))) = true
             /\ instruments s' = instruments s /\ tx_instruments s' = instruments s
             /\ session s'
                = assign_ids (next_id (ohlc_daily s))
                    (fold_left (fun os r => step (Instrument.id i) r os) df
                               (map loaded (ohlc_daily s)))
             /\ ohlc_daily s' = map row (session s')).
Proof.
  intros (Tx & Fresh) H. unfold fetch_and_store_ohlc_try in H.
  unfold bind at 1 in H.
  destruct (select_instrument symbol s) as [[e | found] s1] eqn:Sel;
    apply select_instrument_run in Sel as (A1 & B1 & C1 & D1 & E1 & _ & Fa1 & Found & _).
  { inversion H; subst. split; [intros e' _; now split | discriminate]. }
  specialize (Found found eq_refl).
  destruct found as [i |].
  2:{ unfold bind at 1 in H. simpl in H. inversion H; subst.
      split; [intros e' _; now split | discriminate]. }
  apply scalar_one_some in Found. rewrite Tx in Found.
  unfold bind at 1 in H. unfold ret at 1 in H.
  unfold bind at 1 in H. unfold logger at 1, modify at 1 in H.
  unfold bind at 1 in H. unfold record at 1, modify at 1 in H.
  unfold bind at 1 in H. unfold lift at 1 in H.
  set (sd := match start_date with Some d => d | None => (today - days_back)%Z end) in *.
  set (ed := match end_date with Some d => d | None => today end) in *.
  destruct (history symbol sd (ed + 1)%Z) as [e | df] eqn:Hist.
  { simpl in H. inversion H; subst. simpl.
    split; [intros e' _; now split | discriminate]. }
  unfold ret at 1 in H.
  destruct df as [| r0 rest].
  { simpl in H. inversion H; subst. simpl.
    split; [discriminate |]. intros n Hn. inversion Hn; subst. left.
    repeat split; try assumption; simpl; congruence. }
  set (df := r0 :: rest) in *.
  unfold bind at 1 in H.
  match type of H with
  | context [store_rows i df 0 ?x] =>
      destruct (store_rows i df 0 x) as [[e | n] s2] eqn:Rows;
        apply store_rows_run in Rows as ((A2 & B2 & C2 & D2 & E2) & Ok2)
  end; simpl in A2, B2, C2, D2.
  { inversion H; subst. split; [intros e' _; split; congruence | discriminate]. }
  destruct (Ok2 n eq_refl) as (N & Se2 & Vol). simpl in N, Se2.
  rewrite D1, Fresh in Se2.
  unfold bind at 1 in H.
  destruct (db_commit numeric_12_4 s2) as [[e | []] s3] eqn:Com;
    apply db_commit_run in Com as (L3 & _ & Fail3 & Ok3).
  { inversion H; subst. destruct (Fail3 e eq_refl) as (A3 & B3 & _).
    split; [intros e' _; split; congruence | discriminate]. }
  destruct (Ok3 eq_refl) as (A3 & T3 & Se3 & B3 & Di & _).
  simpl in H. inversion H; subst. simpl.
  split; [discriminate |]. intros n' Hn. inversion Hn; subst n'. right.
  exists i, df. rewrite Se2 in *. rewrite B2, B1 in Se3.
  repeat split; try assumption; try congruence.
Qed.

(** *** The session after the loop *)

Lemma refreshed_key iid df b :
  instrument_id (refreshed iid df b) = instrument_id b
  /\ date (refreshed iid df b) = date b
  /\ id (refreshed iid df b) = id b
  /\ adj_close (refreshed iid df b) = adj_close b.
Proof.
  unfold refreshed. revert b. induction df as [| r rest IH]; intros b; simpl.
  - repeat split.
  - destruct (for_row iid r b).
    + destruct (IH (apply_row r b)) as (A & B & C & D). repeat split; assumption.
    + apply IH.
Qed.

Lemma refreshed_last iid df r b :
  refreshed iid (df ++ [r]) b
  = if for_row iid r b then apply_row r (refreshed iid df b) else refreshed iid df b.
Proof.
  unfold refreshed at 1. rewrite fold_left_app. simpl.
  fold (refreshed iid df b).
  unfold for_row. destruct (refreshed_key iid df b) as (A & B & _).
  now rewrite A, B.
Qed.

Lemma added_last iid df r table :
  added iid (df ++ [r]) table
  = added iid df table ++ (if existsb (for_row iid r) table then [] else [r]).
Proof.
  unfold added. rewrite filter_app. simpl.
  destruct (existsb (for_row iid r) table); reflexivity.
Qed.

Lemma matches_new iid d os ns k :
  (forall o, In o ns -> persistent o = false) ->
  filter (on_key iid d) (combine (seq k (List.length (os ++ ns))) (os ++ ns))
  = filter (on_key iid d) (combine (seq k (List.length os)) os).
Proof.
  intros New. revert k. induction os as [| o rest IH]; intros k; simpl.
  - revert k. induction ns as [| n ns' IHn]; intros k; simpl; [reflexivity |].
    unfold on_key at 1. simpl. rewrite (New n (or_introl eq_refl)). simpl.
    apply IHn. intros o Ho. apply New. now right.
  - rewrite IH. reflexivity.
Qed.

Lemma no_match iid d (f : bar -> bar) table k :
  (forall b, instrument_id (f b) = instrument_id b /\ date (f b) = date b) ->
  (forall b, In b table -> ((instrument_id b =? iid)%Z && (date b =? d)%Z) = false) ->
  filter (on_key iid d)
         (combine (seq k (List.length (map (fun b => loaded (f b)) table)))
                  (map (fun b => loaded (f b)) table)) = [].
Proof.
  intros Key. revert k. induction table as [| b rest IH]; intros k No; simpl;
    [reflexivity |].
  unfold on_key at 1. simpl. destruct (Key b) as (-> & ->).
  rewrite (No b (or_introl eq_refl)). apply IH. intros b' Hb'. apply No. now right.
Qed.

(** The query for a bar in a session that holds the bars of a table
    without duplicate keys: nothing, or the one bar of that key. *)
Lemma matches_cases iid d (f : bar -> bar) table k :
  (forall b, instrument_id (f b) = instrument_id b /\ date (f b) = date b) ->
  distinct_keys table = true ->
  (filter (on_key iid d)
          (combine (seq k (List.length (map (fun b => loaded (f b)) table)))
                   (map (fun b => loaded (f b)) table)) = []
   /\ forall b, In b table -> ((instrument_id b =? iid)%Z && (date b =? d)%Z) = false)
  \/ exists t1 b t2,
       table = t1 ++ b :: t2
       /\ ((instrument_id b =? iid)%Z && (date b =? d)%Z) = true
       /\ (forall b', In b' (t1 ++ t2) ->
             ((instrument_id b' =? iid)%Z && (date b' =? d)%Z) = false)
       /\ filter (on_key iid d)
                 (combine (seq k (List.length (map (fun b => loaded (f b)) table)))
                          (map (fun b => loaded (f b)) table))
          = [(k + List.length t1, loaded (f b))].
Proof.
  intros Key. revert k. induction table as [| b rest IH]; intros k Di.
  - left. split; [reflexivity | intros b []].
  - simpl in Di. apply andb_prop in Di as (Fresh & Di).
    apply negb_true_iff in Fresh.
    assert (Others : forall b', In b' rest -> key_eqb b b' = false).
    { intros b' Hb'. destruct (key_eqb b b') eqn:K; [| reflexivity].
      rewrite <- Fresh. symmetry. apply existsb_exists. now exists b'. }
    destruct ((instrument_id b =? iid)%Z && (date b =? d)%Z) eqn:Hit.
    + right. exists [], b, rest. split; [reflexivity |]. split; [exact Hit |].
      apply andb_prop in Hit as (I & D). apply Z.eqb_eq in I, D.
      assert (No : forall b', In b' rest ->
                     ((instrument_id b' =? iid)%Z && (date b' =? d)%Z) = false).
      { intros b' Hb'. specialize (Others b' Hb'). unfold key_eqb in Others.
        rewrite I, D in Others. rewrite (Z.eqb_sym (instrument_id b')),
          (Z.eqb_sym (date b')). exact Others. }
      split; [exact No |].
      simpl. unfold on_key at 1. simpl. destruct (Key b) as (-> & ->).
      rewrite I, D, !Z.eqb_refl. simpl. rewrite Nat.add_0_r. f_equal.
      now apply no_match.
    + destruct (IH (S k) Di) as [(Nil & No) | (t1 & b0 & t2 & -> & Hit0 & No & One)].
      * left. split.
        -- simpl. unfold on_key at 1. simpl. destruct (Key b) as (-> & ->).
           rewrite Hit. exact Nil.
        -- intros b' [<- | Hb']; [exact Hit | now apply No].
      * right. exists (b :: t1), b0, t2. split; [reflexivity |]. split; [exact Hit0 |].
        split.
        -- intros b' [<- | Hb']; [exact Hit | now apply No].
        -- simpl. unfold on_key at 1. simpl. destruct (Key b) as (-> & ->).
           rewrite Hit. simpl in One. rewrite One. f_equal. f_equal. lia.
Qed.

Lemma replace_nth_middle {A : Type} (l1 : list A) x y l2 :
  replace_nth (List.length l1) y (l1 ++ x :: l2) = l1 ++ y :: l2.
Proof. induction l1 as [| z rest IH]; simpl; [reflexivity | now rewrite IH]. Qed.

(** The session after the loop has gone through the frame. *)
Lemma loop_session iid df table :
  distinct_keys table = true ->
  fold_left (fun os r => step iid r os) df (map loaded table)
  = map (fun b => loaded (refreshed iid df b)) table
    ++ map (fun r => new_bar iid r (truncated r)) (added iid df table).
Proof.
  intros Di. induction df as [| r df IH] using rev_ind.
  - simpl. unfold added. simpl. rewrite app_nil_r. reflexivity.
  - rewrite fold_left_app. simpl. rewrite IH. clear IH.
    unfold step, matches. rewrite matches_new.
    2:{ intros o Ho. apply in_map_iff in Ho as (r' & <- & _). reflexivity. }
    rewrite added_last.
    destruct (matches_cases iid (trade_date r) (refreshed iid df) table 0)
      as [(Nil & No) | (t1 & b & t2 & -> & Hit & No & One)].
    + intros b. destruct (refreshed_key iid df b) as (A & B & _). now split.
    + exact Di.
    + rewrite Nil.
      assert (E : existsb (for_row iid r) table = false).
      { destruct (existsb (for_row iid r) table) eqn:X; [| reflexivity].
        apply existsb_exists in X as (b & Hb & X). unfold for_row in X.
        now rewrite (No b Hb) in X. }
      rewrite E, map_app, app_assoc. simpl. f_equal. f_equal.
      apply map_ext_in. intros b Hb. rewrite refreshed_last.
      unfold for_row. now rewrite (No b Hb).
    + rewrite One. simpl.
      assert (E : existsb (for_row iid r) (t1 ++ b :: t2) = true).
      { apply existsb_exists. exists b. split; [apply in_elt | exact Hit]. }
      rewrite E, app_nil_r.
      rewrite !map_app. simpl. rewrite <- app_assoc. simpl.
      rewrite <- (length_map (fun b0 => loaded (refreshed iid df b0)) t1).
      rewrite replace_nth_middle.
      rewrite (refreshed_last iid df r b).
      assert (Hit' : for_row iid r b = true) by exact Hit. rewrite Hit'.
      assert (Same : forall l, (forall b', In b' l ->
                       ((instrument_id b' =? iid)%Z && (date b' =? trade_date r)%Z) = false) ->
                     map (fun b0 => loaded (refreshed iid df b0)) l
                     = map (fun b0 => loaded (refreshed iid (df ++ [r]) b0)) l).
      { intros l Hl. apply map_ext_in. intros b' Hb'. rewrite refreshed_last.
        unfold for_row. now rewrite (Hl b' Hb'). }
      rewrite (Same t1), (Same t2).
      * rewrite <- app_assoc. reflexivity.
      * intros b' Hb'. apply No. apply in_or_app. now right.
      * intros b' Hb'. apply No. apply in_or_app. now left.
Qed.

(** *** Keys *)

Lemma key_eqb_key_of b b' c c' :
  key_of b = key_of c -> key_of b' = key_of c' -> key_eqb b b' = key_eqb c c'.
Proof. unfold key_of, key_eqb. intros H H'. inversion H. inversion H'. congruence. Qed.

Lemma distinct_keys_key_of l l' :
  map key_of l = map key_of l' -> distinct_keys l = distinct_keys l'.
Proof.
  revert l'. induction l as [| b rest IH]; intros [| c rest'] H; simpl in H;
    try discriminate; [reflexivity |].
  assert (K : key_of b = key_of c) by congruence.
  assert (H' : map key_of rest = map key_of rest') by congruence.
  simpl. rewrite (IH rest' H'). f_equal. f_equal.
  clear IH H. revert rest' H'. induction rest as [| b' r IHr]; intros [| c' r'] H';
    simpl in H'; try discriminate; [reflexivity |].
  assert (K' : key_of b' = key_of c') by congruence.
  assert (H'' : map key_of r = map key_of r') by congruence.
  simpl. rewrite (key_eqb_key_of b b' c c' K K'), (IHr r' H''). reflexivity.
Qed.

Lemma distinct_keys_prefix l l' :
  distinct_keys (l ++ l') = true -> distinct_keys l = true.
Proof.
  induction l as [| b rest IH]; simpl; [reflexivity |].
  intros H. apply andb_prop in H as (N & D). rewrite (IH D), andb_true_r.
  apply negb_true_iff in N. apply negb_true_iff.
  destruct (existsb (key_eqb b) rest) eqn:X; [| reflexivity].
  rewrite <- N. symmetry. rewrite existsb_app, X. reflexivity.
Qed.

Lemma in_combine_seq_nth {A : Type} (l : list A) k i x :
  In (i, x) (combine (seq k (List.length l)) l) -> exists j, i = k + j /\ nth_error l j = Some x.
Proof.
  revert k. induction l as [| y rest IH]; intros k H; [destruct H |].
  simpl in H. destruct H as [H | H].
  - inversion H; subst. exists 0. split; [lia | reflexivity].
  - destruct (IH (S k) H) as (j & -> & N). exists (S j). split; [lia | exact N].
Qed.

Lemma replace_nth_map_same {A B : Type} (f : A -> B) l i x y :
  nth_error l i = Some x -> f y = f x -> map f (replace_nth i y l) = map f l.
Proof.
  revert i. induction l as [| z rest IH]; intros [| j] N E; simpl in *;
    try discriminate.
  - inversion N; subst. now rewrite E.
  - now rewrite (IH j N E).
Qed.

Lemma step_keys iid r os :
  exists extra,
    map (fun o => key_of (row o)) (step iid r os)
    = map (fun o => key_of (row o)) os ++ extra.
Proof.
  unfold step.
  destruct (matches iid (trade_date r) os) as [| [i o] [| m rest]] eqn:M.
  - eexists. rewrite map_app. reflexivity.
  - exists []. rewrite app_nil_r.
    assert (Hin : In (i, o) (matches iid (trade_date r) os)) by (rewrite M; now left).
    unfold matches in Hin. apply filter_In in Hin as (Hin & _).
    apply in_combine_seq_nth in Hin as (j & -> & N). simpl.
    now apply replace_nth_map_same with o.
  - exists []. now rewrite app_nil_r.
Qed.

Lemma loop_keys iid df os :
  exists extra,
    map (fun o => key_of (row o)) (fold_left (fun acc r => step iid r acc) df os)
    = map (fun o => key_of (row o)) os ++ extra.
Proof.
  revert os. induction df as [| r rest IH]; intros os; simpl.
  - exists []. now rewrite app_nil_r.
  - destruct (IH (step iid r os)) as (e1 & E1).
    destruct (step_keys iid r os) as (e2 & E2).
    exists (e2 ++ e1). now rewrite E1, E2, app_assoc.
Qed.

Lemma loop_keeps_duplicates iid df table :
  distinct_keys (map row (fold_left (fun os r => step iid r os) df (map loaded table)))
  = true ->
  distinct_keys table = true.
Proof.
  intros H. destruct (loop_keys iid df (map loaded table)) as (extra & E).
  rewrite map_map in E. simpl in E.
  set (final := map row (fold_left (fun os r => step iid r os) df (map loaded table))) in *.
  assert (K : map key_of final = map key_of (table ++ map (fun k => {|
                 id := None; instrument_id := fst k; date := snd k;
                 open := NaN; high := NaN; low := NaN; close := NaN;
                 adj_close := None; volume := None |}) extra)).
  { unfold final. rewrite map_map, E, map_app, map_map. f_equal.
    clear. induction extra as [| [a b] rest IH]; simpl; [reflexivity | now rewrite <- IH]. }
  rewrite (distinct_keys_key_of _ _ K) in H.
  now apply distinct_keys_prefix in H.
Qed.

Lemma assign_ids_loaded next (f : bar -> bar) table ns :
  assign_ids next (map (fun b => loaded (f b)) table ++ ns)
  = map (fun b => loaded (f b)) table ++ assign_ids next ns.
Proof. induction table as [| b rest IH]; simpl; [reflexivity | now rewrite IH]. Qed.

Lemma assign_ids_new next iid rs :
  assign_ids next (map (fun r => new_bar iid r (truncated r)) rs)
  = map loaded (numbered next (map (fun r => row (new_bar iid r (truncated r))) rs)).
Proof.
  revert next. induction rs as [| r rest IH]; intros next; simpl; [reflexivity |].
  now rewrite IH.
Qed.

(** The table a commit after the loop writes. *)
Lemma committed_table iid df table :
  distinct_keys table = true ->
  assign_ids (next_id table)
    (fold_left (fun os r => step iid r os) df (map loaded table))
  = map loaded (stored iid df table).
Proof.
  intros Di. rewrite (loop_session iid df table Di), assign_ids_loaded, assign_ids_new.
  unfold stored. rewrite map_app, map_map. reflexivity.
Qed.

Lemma row_loaded l : map row (map loaded l) = l.
Proof. rewrite map_map. apply map_id. Qed.

Lemma assign_ids_keys next os :
  map key_of (map row (assign_ids next os)) = map key_of (map row os).
Proof.
  revert next. induction os as [| o rest IH]; intros next; simpl; [reflexivity |].
  destruct (persistent o); simpl; now rewrite IH.
Qed.

(** Every fetch in a clean session returns a count and leaves a clean
    session: nothing stored and the count 0, or the frame stored and
    the count its length. *)
Lemma fetch_run symbol start_date end_date days_back s :
  clean s ->
  exists n s',
    fetch_and_store_ohlc history numeric_12_4 today symbol start_date end_date days_back s
    = (inr n, s')
    /\ instruments s' = instruments s /\ clean s'
    /\ ((n = 0 /\ ohlc_daily s' = ohlc_daily s)
        \/ exists i df,
             filter (fun i => String.eqb (Instrument.symbol i) symbol) (instruments s) = [i]
             /\ history symbol
                        match start_date with Some d => d | None => (today - days_back)%Z end
                        (match end_date with Some d => d | None => today end + 1)%Z
                = inr df
             /\ n = List.length df /\ n <> 0
             /\ (forall r, In r df -> int (Volume r) = inr (truncated r))
             /\ ohlc_daily s' = stored (Instrument.id i) df (ohlc_daily s)
             /\ distinct_keys (ohlc_daily s') = true).
Proof.
  intros Cl. unfold fetch_and_store_ohlc, try_except.
  destruct (fetch_and_store_ohlc_try history numeric_12_4 today symbol start_date end_date
              days_back s) as [[e | n] s1] eqn:Try;
    apply (fetch_try_run _ _ _ _ _ _ _ Cl) in Try as (Fail & Ok).
  - destruct (Fail e eq_refl) as (A & B).
    eexists. eexists. split; [reflexivity |]. simpl.
    split; [exact A |]. split; [split; reflexivity |]. left. split; [reflexivity | exact B].
  - exists n, s1. split; [reflexivity |].
    destruct (Ok n eq_refl)
      as [(N & A & B & Cl1) | (i & df & Fi & Hi & N & N0 & Vol & Di & A & Tx & Se & B)].
    + split; [exact A |]. split; [exact Cl1 |]. left. now split.
    + pose proof (loop_keeps_duplicates _ _ _ Di) as DiT.
      rewrite (committed_table _ _ _ DiT) in Se.
      rewrite Se, row_loaded in B.
      split; [exact A |]. split; [split; congruence |]. right.
      exists i, df. repeat split; try assumption.
      rewrite B. rewrite <- (row_loaded (stored (Instrument.id i) df (ohlc_daily s))).
      rewrite <- (committed_table _ _ _ DiT).
      rewrite (distinct_keys_key_of _ _ (assign_ids_keys _ _)). exact Di.
Qed.

End FetcherRuns.

(** A fetch never raises and never changes the instruments.  Either it
    stores nothing and returns 0, or the symbol has its one instrument,
    the service has returned a frame with at least one row and volumes
    that are numbers, and the fetch returns the number of rows of the
    frame with the table holding its former bars, those of the frame's
    days with the values of the frame, followed by a new bar for every
    other row of the frame, no two bars sharing instrument and day. *)
Theorem fetch_and_store_ohlc_stores_the_frame_or_nothing :
  forall (history : string -> Z -> Z -> Fetcher.error + list Fetcher.frame_row)
         (numeric_12_4 : num -> bool) (today : Z) (symbol : string)
         (start_date end_date : option Z) (days_back : Z) (s : Fetcher.Store),
    Fetcher.clean s ->
    exists n s',
      Fetcher.fetch_and_store_ohlc history numeric_12_4 today symbol start_date end_date
                                   days_back s = (inr n, s')
      /\ Fetcher.instruments s' = Fetcher.instruments s /\ Fetcher.clean s'
      /\ ((n = 0 /\ Fetcher.ohlc_daily s' = Fetcher.ohlc_daily s)
          \/ exists i df,
               filter (fun i => String.eqb (Instrument.symbol i) symbol)
                      (Fetcher.instruments s) = [i]
               /\ history symbol
                    match start_date with Some d => d | None => (today - days_back)%Z end
                    (match end_date with Some d => d | None => today end + 1)%Z
                  = inr df
               /\ n = List.length df /\ n <> 0
               /\ (forall r, In r df ->
                     Fetcher.int (Fetcher.Volume r) = inr (Fetcher.truncated r))
               /\ Fetcher.ohlc_daily s'
                  = Fetcher.stored (Instrument.id i) df (Fetcher.ohlc_daily s)
               /\ Fetcher.distinct_keys (Fetcher.ohlc_daily s') = true).
Proof. exact fetch_run. Qed.

Lemma fetch_and_store_ohlc_stores_the_frame_or_nothing_witness :
  exists n s',
    Fetcher.fetch_and_store_ohlc Fetcher.Sample.history Fetcher.Sample.finite 20 "SPY"
                                 None None 5 Fetcher.Sample.store = (inr n, s')
    /\ n = 2
    /\ map (fun b => (Fetcher.id b, Fetcher.date b, Fetcher.close b, Fetcher.adj_close b))
           (Fetcher.ohlc_daily s')
       = [(Some 1%Z, 10%Z, Fin 400, Some (Fin 399)); (Some 2%Z, 11%Z, Fin 402, None);
          (Some 3%Z, 12%Z, Fin 403, None)].
Proof.
  destruct (fetch_and_store_ohlc_stores_the_frame_or_nothing Fetcher.Sample.history
              Fetcher.Sample.finite 20%Z "SPY" None None 5%Z Fetcher.Sample.store)
    as (n & s' & Run & _).
  - split; reflexivity.
  - exists n, s'. split; [exact Run |].
    vm_compute in Run. inversion Run; subst. split; reflexivity.
Defined.

(** ** Fetching a frame again *)

Section FetcherAgain.

Import Fetcher.
Local Open Scope fetcher_scope.

Lemma apply_row_frame r b c :
  id b = id c -> instrument_id b = instrument_id c -> date b = date c ->
  adj_close b = adj_close c ->
  apply_row r b = apply_row r c.
Proof. unfold apply_row. simpl. congruence. Qed.

Lemma apply_row_twice r b : apply_row r (apply_row r b) = apply_row r b.
Proof. reflexivity. Qed.

Lemma for_row_key iid r b c :
  instrument_id b = instrument_id c -> date b = date c -> for_row iid r b = for_row iid r c.
Proof. unfold for_row. congruence. Qed.

(** A refreshed bar has the values of the last row of the frame that is
    for it. *)
Lemma refreshed_shape iid df b :
  refreshed iid df b
  = match find (fun r => for_row iid r b) (rev df) with
    | Some r => apply_row r b
    | None => b
    end.
Proof.
  induction df as [| r df IH] using rev_ind; [reflexivity |].
  rewrite refreshed_last, rev_app_distr. simpl.
  destruct (for_row iid r b); [| exact IH].
  destruct (refreshed_key iid df b) as (A & B & C & D).
  now apply apply_row_frame.
Qed.

Lemma find_pointwise {A : Type} (f g : A -> bool) l :
  (forall x, f x = g x) -> find f l = find g l.
Proof.
  intros E. induction l as [| x rest IH]; simpl; [reflexivity |].
  now rewrite E, IH.
Qed.

Lemma refreshed_twice iid df b :
  refreshed iid df (refreshed iid df b) = refreshed iid df b.
Proof.
  rewrite (refreshed_shape iid df (refreshed iid df b)).
  destruct (refreshed_key iid df b) as (A & B & C & D).
  rewrite (find_pointwise _ (fun r => for_row iid r b)).
  2:{ intros r. now apply for_row_key. }
  pose proof (refreshed_shape iid df b) as Sh.
  destruct (find (fun r => for_row iid r b) (rev df)) as [r |]; [| reflexivity].
  rewrite Sh. apply apply_row_twice.
Qed.

Lemma filter_none {A : Type} (f : A -> bool) l :
  (forall x, In x l -> f x = false) -> filter f l = [].
Proof.
  induction l as [| x rest IH]; intros H; simpl; [reflexivity |].
  rewrite (H x (or_introl eq_refl)). apply IH. intros y Hy. apply H. now right.
Qed.

Lemma numbered_In next l b' :
  In b' (numbered next l) ->
  exists b m, In b l
    /\ b' = {| id := Some m; instrument_id := instrument_id b; date := date b;
               open := open b; high := high b; low := low b; close := close b;
               adj_close := adj_close b; volume := volume b |}.
Proof.
  revert next. induction l as [| b rest IH]; intros next H; [destruct H |].
  destruct H as [<- | H].
  - exists b, next. split; [now left | reflexivity].
  - destruct (IH _ H) as (c & m & Hc & E). exists c, m. split; [now right | exact E].
Qed.

Lemma In_numbered next l b :
  In b l ->
  exists m, In {| id := Some m; instrument_id := instrument_id b; date := date b;
                  open := open b; high := high b; low := low b; close := close b;
                  adj_close := adj_close b; volume := volume b |} (numbered next l).
Proof.
  revert next. induction l as [| c rest IH]; intros next H; [destruct H |].
  destruct H as [-> | H].
  - exists next. now left.
  - destruct (IH (next + 1)%Z H) as (m & Hm). exists m. now right.
Qed.

Lemma distinct_keys_suffix l l' :
  distinct_keys (l ++ l') = true -> distinct_keys l' = true.
Proof.
  induction l as [| b rest IH]; simpl; [trivial |].
  intros H. apply andb_prop in H as (_ & D). now apply IH.
Qed.

(** New bars with distinct keys come from rows of distinct days. *)
Lemma new_rows_distinct iid next rs :
  distinct_keys (numbered next (map (fun r => row (new_bar iid r (truncated r))) rs)) = true ->
  forall r r', In r rs -> In r' rs -> trade_date r = trade_date r' -> r = r'.
Proof.
  revert next. induction rs as [| x rest IH]; intros next Di r r' Hr Hr' E;
    [destruct Hr |].
  simpl in Di. apply andb_prop in Di as (Fresh & Di).
  apply negb_true_iff in Fresh.
  assert (Other : forall y, In y rest -> trade_date y <> trade_date x).
  { intros y Hy Ey.
    destruct (In_numbered (next + 1)%Z
                (map (fun r => row (new_bar iid r (truncated r))) rest)
                (row (new_bar iid y (truncated y)))) as (m & Hm).
    { apply in_map_iff. now exists y. }
    enough (true = false) by discriminate.
    rewrite <- Fresh. symmetry. apply existsb_exists. eexists. split; [exact Hm |].
    unfold key_eqb. simpl. rewrite Ey, !Z.eqb_refl. reflexivity. }
  destruct Hr as [<- | Hr], Hr' as [<- | Hr'].
  - reflexivity.
  - exfalso. now apply (Other r' Hr').
  - exfalso. now apply (Other r Hr).
  - now apply (IH (next + 1)%Z Di).
Qed.

(** Storing a frame over the table that storing it has left changes
    nothing. *)
Lemma stored_twice iid df table :
  distinct_keys (stored iid df table) = true ->
  stored iid df (stored iid df table) = stored iid df table.
Proof.
  intros Di.
  assert (Nothing : added iid df (stored iid df table) = []).
  { unfold added at 1. apply filter_none. intros r Hr. apply negb_false_iff.
    destruct (existsb (for_row iid r) table) eqn:X.
    - apply existsb_exists in X as (b & Hb & X). apply existsb_exists.
      exists (refreshed iid df b). split.
      + unfold stored. apply in_or_app. left. now apply in_map.
      + destruct (refreshed_key iid df b) as (A & B & _).
        now rewrite (for_row_key iid r _ b A B).
    - assert (Hr' : In r (added iid df table)).
      { unfold added. apply filter_In. now rewrite X. }
      destruct (In_numbered (next_id table)
                  (map (fun r => row (new_bar iid r (truncated r))) (added iid df table))
                  (row (new_bar iid r (truncated r)))) as (m & Hm).
      { apply in_map_iff. now exists r. }
      apply existsb_exists. eexists. split.
      + unfold stored. apply in_or_app. right. exact Hm.
      + unfold for_row. simpl. now rewrite !Z.eqb_refl. }
  unfold stored at 1. rewrite Nothing. simpl. rewrite app_nil_r.
  rewrite <- (map_id (stored iid df table)) at 2.
  apply map_ext_in. intros b' Hb'. unfold stored in Hb'.
  apply in_app_or in Hb' as [Hb' | Hb'].
  - apply in_map_iff in Hb' as (b & <- & _). apply refreshed_twice.
  - pose proof (distinct_keys_suffix _ _ Di) as DiNew.
    apply numbered_In in Hb' as (b & m & Hb & ->).
    apply in_map_iff in Hb as (r & <- & Hr). simpl.
    rewrite refreshed_shape.
    match goal with
    | |- context [find ?f (rev df)] => destruct (find f (rev df)) as [r' |] eqn:F
    end; [| reflexivity].
    apply find_some in F as (Hr' & Hit). apply in_rev in Hr'.
    unfold for_row in Hit. simpl in Hit.
    apply andb_prop in Hit as (_ & Hit). apply Z.eqb_eq in Hit.
    assert (Hadd : In r' (added iid df table)).
    { unfold added in *. apply filter_In in Hr as (_ & Hr). apply filter_In.
      split; [exact Hr' |]. rewrite <- Hr. f_equal.
      clear - Hit. induction table as [| b rest IH]; simpl; [reflexivity |].
      unfold for_row at 1 3. now rewrite Hit, IH. }
    rewrite (new_rows_distinct iid _ _ DiNew r' r Hadd Hr (eq_sym Hit)).
    reflexivity.
Qed.

End FetcherAgain.

(** Once a fetch has stored a frame, fetching the same frame again,
    whatever the store does this time, leaves the table of bars and the
    instruments as they are and returns the same count, or 0 when the
    second fetch fails. *)
Theorem refetching_the_same_frame_changes_nothing :
  forall (history : string -> Z -> Z -> Fetcher.error + list Fetcher.frame_row)
         (numeric_12_4 : num -> bool) (today : Z) (symbol : string)
         (start_date end_date : option Z) (days_back : Z) (s s1 : Fetcher.Store)
         (n : nat) (fault : option nat),
    Fetcher.clean s ->
    Fetcher.fetch_and_store_ohlc history numeric_12_4 today symbol start_date end_date
                                 days_back s = (inr n, s1) ->
    n <> 0 ->
    exists m s2,
      Fetcher.fetch_and_store_ohlc history numeric_12_4 today symbol start_date end_date
                                   days_back (Fetcher.with_faults fault s1) = (inr m, s2)
      /\ (m = 0 \/ m = n)
      /\ Fetcher.ohlc_daily s2 = Fetcher.ohlc_daily s1
      /\ Fetcher.instruments s2 = Fetcher.instruments s1.
Proof.
  intros history numeric_12_4 today symbol start_date end_date days_back s s1 n fault
         Cl Run N.
  destruct (fetch_run history numeric_12_4 today symbol start_date end_date days_back s Cl)
    as (n' & s1' & Run' & A & (Tx1 & Se1) & Cases).
  rewrite Run in Run'. inversion Run'; subst n' s1'. clear Run'.
  destruct Cases as [(N0 & _) | (i & df & Fi & Hi & Len & _ & _ & B & Di)]; [contradiction |].
  destruct (fetch_run history numeric_12_4 today symbol start_date end_date days_back
              (Fetcher.with_faults fault s1)) as (m & s2 & Run2 & A2 & _ & Cases2).
  { split; [exact Tx1 | exact Se1]. }
  exists m, s2. split; [exact Run2 |]. simpl in A2, Cases2.
  destruct Cases2 as [(M0 & B2) | (i2 & df2 & Fi2 & Hi2 & Len2 & _ & _ & B2 & _)].
  - repeat split; [now left | exact B2 | exact A2].
  - rewrite A, Fi in Fi2. inversion Fi2; subst i2.
    rewrite Hi in Hi2. inversion Hi2; subst df2.
    repeat split; [right; congruence | | exact A2].
    rewrite B2, B. apply stored_twice. now rewrite <- B.
Qed.

Lemma refetching_the_same_frame_changes_nothing_witness :
  exists m s2,
    Fetcher.fetch_and_store_ohlc Fetcher.Sample.history Fetcher.Sample.finite 20 "SPY"
      None None 5
      (Fetcher.with_faults None
         (snd (Fetcher.fetch_and_store_ohlc Fetcher.Sample.history Fetcher.Sample.finite 20
                 "SPY" None None 5 Fetcher.Sample.store))) = (inr m, s2)
    /\ (m = 0 \/ m = 2)
    /\ Fetcher.ohlc_daily s2
       = Fetcher.ohlc_daily
           (snd (Fetcher.fetch_and_store_ohlc Fetcher.Sample.history Fetcher.Sample.finite 20
                   "SPY" None None 5 Fetcher.Sample.store))
    /\ Fetcher.instruments s2
       = Fetcher.instruments
           (snd (Fetcher.fetch_and_store_ohlc Fetcher.Sample.history Fetcher.Sample.finite 20
                   "SPY" None None 5 Fetcher.Sample.store)).
Proof.
  apply (refetching_the_same_frame_changes_nothing Fetcher.Sample.history
           Fetcher.Sample.finite 20%Z "SPY" None None 5%Z Fetcher.Sample.store).
  - split; reflexivity.
  - vm_compute. reflexivity.
  - discriminate.
Defined.

(** ** Backfilling and the scheduled update *)

Section FetcherTasks.

Import Fetcher.
Local Open Scope fetcher_scope.

Variable history : string -> Z -> Z -> error + list frame_row.
Variable numeric_12_4 : num -> bool.
Variable today : Z.

Lemma fold_max_le l d : (d <= fold_left Z.max l d)%Z.
Proof.
  revert d. induction l as [| x rest IH]; intros d; simpl; [lia |].
  specialize (IH (Z.max d x)). lia.
Qed.

Lemma fold_max_ge l d x : In x l -> (x <= fold_left Z.max l d)%Z.
Proof.
  revert d. induction l as [| y rest IH]; intros d H; [destruct H |].
  simpl. destruct H as [-> | H].
  - pose proof (fold_max_le rest (Z.max d x)). lia.
  - now apply IH.
Qed.

Lemma latest_is_greatest l x :
  In x l -> exists m, latest l = Some m /\ (x <= m)%Z.
Proof.
  destruct l as [| d rest]; intros H; [destruct H |].
  exists (fold_left Z.max rest d). split; [reflexivity |].
  destruct H as [-> | H]; [apply fold_max_le | now apply fold_max_ge].
Qed.

Lemma get_latest_ohlc_date_goes symbol i s :
  faults s = None ->
  filter (fun i => String.eqb (Instrument.symbol i) symbol) (tx_instruments s) = [i] ->
  get_latest_ohlc_date symbol s
  = (inr (latest (map (fun o => date (row o))
                      (filter (fun o => persistent o
                                        && (instrument_id (row o) =? Instrument.id i)%Z)
                              (session s)))),
     with_trace (trace s ++ [SelectInstrument symbol; SelectLatest (Instrument.id i)]) s).
Proof.
  intros Fn Fi. unfold get_latest_ohlc_date, select_instrument, bind.
  rewrite (round_trip_goes _ _ Fn). unfold gets, lift. simpl. rewrite Fi. simpl.
  rewrite round_trip_goes by exact Fn. simpl. rewrite <- app_assoc. reflexivity.
Qed.

End FetcherTasks.

(** [backfill_missing_data] looks at the latest bar only: when the
    symbol has a bar on or after the target start date, it reports the
    data as up to date and returns 0 without calling the service,
    however many days between the target start date and that bar are
    missing. *)
Theorem backfill_skips_when_the_latest_bar_reaches_the_target :
  forall (history : string -> Z -> Z -> Fetcher.error + list Fetcher.frame_row)
         (numeric_12_4 : num -> bool) (today : Z) (symbol : string)
         (target_start_date max_days_per_request : Z) (s : Fetcher.Store)
         (i : Instrument.t) (o : Fetcher.instance),
    Fetcher.faults s = None ->
    filter (fun i => String.eqb (Instrument.symbol i) symbol) (Fetcher.tx_instruments s)
    = [i] ->
    In o (Fetcher.session s) ->
    Fetcher.persistent o = true ->
    Fetcher.instrument_id (Fetcher.row o) = Instrument.id i ->
    (target_start_date <= Fetcher.date (Fetcher.row o))%Z ->
    Fetcher.backfill_missing_data history numeric_12_4 today symbol target_start_date
                                  max_days_per_request s
    = (inr 0,
       Fetcher.with_log (Fetcher.log s ++ [(INFO, "data is up to date")])
         (Fetcher.with_trace
            (Fetcher.trace s ++ [Fetcher.SelectInstrument symbol;
                                 Fetcher.SelectLatest (Instrument.id i)]) s)).
Proof.
  intros history numeric_12_4 today symbol target max_days s i o Fn Fi Ho P I D.
  unfold Fetcher.backfill_missing_data. unfold Fetcher.bind at 1.
  rewrite (get_latest_ohlc_date_goes symbol i s Fn Fi).
  destruct (latest_is_greatest
              (map (fun o => Fetcher.date (Fetcher.row o))
                   (filter (fun o => Fetcher.persistent o
                                     && (Fetcher.instrument_id (Fetcher.row o)
                                         =? Instrument.id i)%Z)
                           (Fetcher.session s)))
              (Fetcher.date (Fetcher.row o))) as (m & L & Le).
  { apply in_map_iff. exists o. split; [reflexivity |]. apply filter_In.
    split; [exact Ho |]. rewrite P, I, Z.eqb_refl. reflexivity. }
  rewrite L.
  assert (T : (target <=? m)%Z = true) by (apply Z.leb_le; lia).
  rewrite T. reflexivity.
Qed.

Lemma backfill_skips_when_the_latest_bar_reaches_the_target_witness :
  Fetcher.backfill_missing_data Fetcher.Sample.history Fetcher.Sample.finite 20 "SPY" 0 30
                                Fetcher.Sample.store
  = (inr 0,
     Fetcher.with_log [(INFO, "data is up to date")]
       (Fetcher.with_trace [Fetcher.SelectInstrument "SPY"; Fetcher.SelectLatest 1]
                           Fetcher.Sample.store)).
Proof.
  apply (backfill_skips_when_the_latest_bar_reaches_the_target Fetcher.Sample.history
           Fetcher.Sample.finite 20%Z "SPY" 0%Z 30%Z Fetcher.Sample.store
           Fetcher.Sample.spy
           (Fetcher.loaded (Fetcher.Sample.bar_of 2 11 401 None))).
  - reflexivity.
  - reflexivity.
  - simpl. tauto.
  - reflexivity.
  - reflexivity.
  - simpl. lia.
Defined.

Section FetcherSchedule.

Import Fetcher.
Local Open Scope fetcher_scope.

Variable history : string -> Z -> Z -> error + list frame_row.
Variable numeric_12_4 : num -> bool.
Variable today : Z.

Lemma fetch_unknown symbol start_date end_date days_back s :
  clean s ->
  filter (fun i => String.eqb (Instrument.symbol i) symbol) (instruments s) = [] ->
  fetch_and_store_ohlc history numeric_12_4 today symbol start_date end_date days_back s
  = (inr 0,
     with_trace (trace s ++ [SelectInstrument symbol; Rollback])
       (with_log (log s ++ [(ERROR, "Error fetching data")])
          (with_faults (faults (snd (round_trip (SelectInstrument symbol) s))) s))).
Proof.
  intros (Tx & Se) Nil. rewrite <- Tx in Nil.
  unfold fetch_and_store_ohlc, try_except, fetch_and_store_ohlc_try.
  unfold bind at 1. unfold select_instrument, bind at 1.
  destruct s as [ins bars tx ses lg tr fa]. simpl in *. subst tx ses.
  unfold round_trip. simpl.
  destruct fa as [[| k] |]; simpl; unfold gets, lift, bind; simpl;
    try rewrite Nil; simpl; rewrite <- app_assoc; reflexivity.
Qed.

Lemma dict_set_In k v d : In (k, v) (dict_set k v d).
Proof.
  unfold dict_set. destruct (existsb (fun kv => String.eqb (fst kv) k) d) eqn:X.
  - apply existsb_exists in X as (kv & Hkv & E). apply in_map_iff.
    exists kv. split; [now rewrite E | exact Hkv].
  - apply in_or_app. right. now left.
Qed.

Lemma dict_set_inv k v d kv : In kv (dict_set k v d) -> kv = (k, v) \/ In kv d.
Proof.
  unfold dict_set. destruct (existsb (fun kv => String.eqb (fst kv) k) d).
  - intros H. apply in_map_iff in H as (kv' & E & H).
    destruct (String.eqb (fst kv') k); [left; now symmetry | right; now subst].
  - intros H. apply in_app_or in H as [H | [H | []]]; [now right | left; now symmetry].
Qed.

Lemma dict_set_keeps k v d k' :
  In k' (map fst d) -> In k' (map fst (dict_set k v d)).
Proof.
  unfold dict_set. intros H.
  destruct (existsb (fun kv => String.eqb (fst kv) k) d).
  - rewrite map_map. apply in_map_iff in H as (kv & <- & H).
    apply in_map_iff. exists kv. split; [| exact H].
    destruct (String.eqb (fst kv) k) eqn:E; [| reflexivity].
    apply String.eqb_eq in E. now rewrite E.
  - rewrite map_app. apply in_or_app. now left.
Qed.

(** What the loop of [fetch_multiple_symbols] does with symbols that
    have no instrument. *)
Lemma fetch_each_unknown start_date end_date delay_seconds last_symbol symbols results s :
  clean s ->
  (forall symbol, In symbol symbols ->
     filter (fun i => String.eqb (Instrument.symbol i) symbol) (instruments s) = []) ->
  (forall kv, In kv results -> snd kv = 0) ->
  exists results' s',
    fetch_each history numeric_12_4 today start_date end_date delay_seconds last_symbol
               symbols results s = (inr results', s')
    /\ instruments s' = instruments s /\ ohlc_daily s' = ohlc_daily s /\ clean s'
    /\ (forall kv, In kv results' -> snd kv = 0)
    /\ (forall symbol, In symbol symbols -> In (symbol, 0) results')
    /\ (forall k, In k (map fst results) -> In k (map fst results'))
    /\ exists ops, trace s' = trace s ++ ops
                   /\ (forall o, In o ops ->
                         o = Rollback \/ o = Sleep \/ exists symbol, o = SelectInstrument symbol)
    /\ exists errors, log s' = log s ++ errors
                      /\ errors = map (fun _ => (ERROR, "Error fetching data")) symbols.
Proof.
  revert results s. induction symbols as [| symbol rest IH]; intros results s Cl No Zero.
  - exists results, s. simpl. split; [reflexivity |].
    repeat split; try apply Cl; try assumption; try (intros ? []).
    + auto.
    + exists []. split; [now rewrite app_nil_r |]. split; [intros o [] |].
      exists []. now rewrite app_nil_r.
  - simpl. unfold bind at 1. unfold try_except at 1. unfold bind at 1.
    rewrite (fetch_unknown symbol start_date end_date 5 s Cl (No symbol (or_introl eq_refl))).
    set (s1 := with_trace (trace s ++ [SelectInstrument symbol; Rollback])
                 (with_log (log s ++ [(ERROR, "Error fetching data")])
                    (with_faults (faults (snd (round_trip (SelectInstrument symbol) s))) s))).
    unfold bind at 1.
    set (pause := if negb (Qle_bool delay_seconds 0) && negb (String.eqb symbol last_symbol)
                  then record Sleep else ret tt).
    assert (P : exists s2, pause s1 = (inr tt, s2)
                  /\ instruments s2 = instruments s /\ ohlc_daily s2 = ohlc_daily s
                  /\ clean s2 /\ log s2 = log s1
                  /\ (trace s2 = trace s1 \/ trace s2 = trace s1 ++ [Sleep])).
    { unfold pause.
      destruct (negb (Qle_bool delay_seconds 0) && negb (String.eqb symbol last_symbol)).
      - eexists. split; [reflexivity |]. simpl. destruct Cl as (Tx & Se).
        repeat split; try assumption; auto.
      - eexists. split; [reflexivity |]. simpl. destruct Cl as (Tx & Se).
        repeat split; try assumption; auto. }
    destruct P as (s2 & -> & A2 & B2 & Cl2 & L2 & T2). unfold ret at 1.
    destruct (IH (dict_set symbol 0 results) s2 Cl2) as
      (results' & s' & Run & A & B & Cl' & Z' & All & Keep & ops & T & Ops & errors & L & E).
    { intros sy Hsy. rewrite A2. apply No. now right. }
    { intros kv Hkv. apply dict_set_inv in Hkv as [-> | Hkv]; [reflexivity | now apply Zero]. }
    exists results', s'. split; [exact Run |].
    split; [congruence |]. split; [congruence |]. split; [exact Cl' |].
    split; [exact Z' |]. split.
    { intros sy [E0 | Hsy]; [subst sy | now apply All].
      assert (K : In symbol (map fst results')).
      { apply Keep. apply in_map_iff. exists (symbol, 0).
        split; [reflexivity | apply dict_set_In]. }
      apply in_map_iff in K as ([k v] & E0 & K). simpl in E0. subst k.
      pose proof (Z' _ K) as V. simpl in V. now subst v. }
    split.
    { intros k Hk. apply Keep. now apply dict_set_keeps. }
    assert (T1 : trace s1 = trace s ++ [SelectInstrument symbol; Rollback]) by reflexivity.
    assert (L1 : log s1 = log s ++ [(ERROR, "Error fetching data")]) by reflexivity.
    destruct T2 as [T2 | T2].
    + exists ([SelectInstrument symbol; Rollback] ++ ops).
      split; [rewrite T, T2, T1, <- app_assoc; reflexivity |]. split.
      * intros o Ho. apply in_app_or in Ho as [[<- | [<- | []]] | Ho];
          [right; right; now exists symbol | now left | now apply Ops].
      * exists ((ERROR, "Error fetching data") :: errors).
        split; [rewrite L, L2, L1, <- app_assoc; reflexivity | simpl; now rewrite E].
    + exists ([SelectInstrument symbol; Rollback; Sleep] ++ ops).
      split; [rewrite T, T2, T1, <- !app_assoc; reflexivity |]. split.
      * intros o Ho. apply in_app_or in Ho as [[<- | [<- | [<- | []]]] | Ho];
          [right; right; now exists symbol | now left | right; now left | now apply Ops].
      * exists ((ERROR, "Error fetching data") :: errors).
        split; [rewrite L, L2, L1, <- app_assoc; reflexivity | simpl; now rewrite E].
Qed.

End FetcherSchedule.

Lemma update_without_instruments
    (history : string -> Z -> Z -> Fetcher.error + list Fetcher.frame_row)
    (numeric_12_4 : num -> bool) (today : Z) (fault : option nat)
    (benchmarks : list string) (s : Fetcher.Store) :
  (forall symbol, In symbol benchmarks ->
     filter (fun i => String.eqb (Instrument.symbol i) symbol) (Fetcher.instruments s)
     = []) ->
  exists db',
    Fetcher.update_benchmarks_daily history numeric_12_4 today fault benchmarks s
    = Fetcher.db_close
        (Fetcher.with_log (Fetcher.log db' ++ [(INFO, "Benchmark update results")]) db')
    /\ Fetcher.instruments db' = Fetcher.instruments s
    /\ Fetcher.ohlc_daily db' = Fetcher.ohlc_daily s
    /\ (exists ops, Fetcher.trace db' = Fetcher.trace s ++ ops
                    /\ forall symbol start stop,
                         ~ In (Fetcher.History symbol start stop) ops)
    /\ Fetcher.log db'
       = Fetcher.log s ++ [(INFO, "Updating benchmarks")]
         ++ map (fun _ => (ERROR, "Error fetching data")) benchmarks.
Proof.
  intros No.
  unfold Fetcher.update_benchmarks_daily, Fetcher.try_except,
    Fetcher.update_benchmarks_daily_try, Fetcher.fetch_multiple_symbols.
  unfold Fetcher.bind, Fetcher.logger, Fetcher.modify.
  match goal with
  | |- context [Fetcher.fetch_each ?h ?n ?t ?a ?b ?c ?d ?e ?f ?st] =>
      destruct (fetch_each_unknown h n t a b c d e f st)
        as (results & db' & Run & A & B & _ & _ & _ & _ & ops & T & Ops & errors & L & E)
  end.
  - split; reflexivity.
  - exact No.
  - intros kv [].
  - rewrite Run. exists db'. split; [reflexivity |].
    simpl in A, B, T, L. repeat split; try assumption.
    + exists ops. split; [exact T |]. intros symbol start stop H.
      destruct (Ops _ H) as [X | [X | (sy & X)]]; discriminate.
    + rewrite L, E, <- app_assoc. reflexivity.
Qed.

(** While none of the benchmark symbols has an instrument, the
    scheduled benchmark update stores nothing, whatever the store does:
    [fetch_multiple_symbols] reports 0 for every symbol, the task logs
    one error per symbol between its two info records, the service is
    never called and both tables are as before, so that the next run
    finds the same. *)
Theorem benchmark_update_stores_nothing_without_instruments :
  forall (history : string -> Z -> Z -> Fetcher.error + list Fetcher.frame_row)
         (numeric_12_4 : num -> bool) (today : Z) (fault : option nat)
         (benchmarks : list string) (s : Fetcher.Store),
    (forall symbol, In symbol benchmarks ->
       filter (fun i => String.eqb (Instrument.symbol i) symbol) (Fetcher.instruments s)
       = []) ->
    (exists results db',
       Fetcher.fetch_multiple_symbols history numeric_12_4 today benchmarks
         (Some (today - 1)%Z) (Some (today - 1)%Z) (1 # 2) (Fetcher.SessionLocal fault s)
       = (inr results, db')
       /\ (forall symbol, In symbol benchmarks -> In (symbol, 0) results)
       /\ (forall kv, In kv results -> snd kv = 0))
    /\ Fetcher.instruments
         (Fetcher.update_benchmarks_daily history numeric_12_4 today fault benchmarks s)
       = Fetcher.instruments s
    /\ Fetcher.ohlc_daily
         (Fetcher.update_benchmarks_daily history numeric_12_4 today fault benchmarks s)
       = Fetcher.ohlc_daily s
    /\ (exists ops,
          Fetcher.trace
            (Fetcher.update_benchmarks_daily history numeric_12_4 today fault benchmarks s)
          = Fetcher.trace s ++ ops
          /\ forall symbol start stop, ~ In (Fetcher.History symbol start stop) ops)
    /\ Fetcher.log
         (Fetcher.update_benchmarks_daily history numeric_12_4 today fault benchmarks s)
       = Fetcher.log s ++ [(INFO, "Updating benchmarks")]
         ++ map (fun _ => (ERROR, "Error fetching data")) benchmarks
         ++ [(INFO, "Benchmark update results")].
Proof.
  intros history numeric_12_4 today fault benchmarks s No. split.
  - destruct (fetch_each_unknown history numeric_12_4 today (Some (today - 1)%Z)
                (Some (today - 1)%Z) (1 # 2) (last benchmarks "") benchmarks []
                (Fetcher.SessionLocal fault s))
      as (results & db' & Run & _ & _ & _ & Z' & All & _).
    + split; reflexivity.
    + exact No.
    + intros kv [].
    + exists results, db'. split; [exact Run |]. split; assumption.
  - destruct (update_without_instruments history numeric_12_4 today fault benchmarks s No)
      as (db' & -> & A & B & (ops & T & Ops) & L).
    simpl. rewrite A, B, T, L.
    split; [reflexivity |]. split; [reflexivity |]. split.
    + exists ops. split; [reflexivity | exact Ops].
    + rewrite <- !app_assoc. reflexivity.
Qed.

Lemma benchmark_update_stores_nothing_without_instruments_witness :
  Fetcher.ohlc_daily
    (Fetcher.update_benchmarks_daily Fetcher.Sample.history Fetcher.Sample.finite 20 None
       ["QQQ"; "DIA"; "TLT"] Fetcher.Sample.store)
  = Fetcher.ohlc_daily Fetcher.Sample.store
  /\ Fetcher.log
       (Fetcher.update_benchmarks_daily Fetcher.Sample.history Fetcher.Sample.finite 20 None
          ["QQQ"; "DIA"; "TLT"] Fetcher.Sample.store)
     = [(INFO, "Updating benchmarks"); (ERROR, "Error fetching data");
        (ERROR, "Error fetching data"); (ERROR, "Error fetching data");
        (INFO, "Benchmark update results")].
Proof.
  destruct (benchmark_update_stores_nothing_without_instruments Fetcher.Sample.history
              Fetcher.Sample.finite 20%Z None ["QQQ"; "DIA"; "TLT"] Fetcher.Sample.store)
    as (_ & _ & B & _ & L).
  - intros symbol [<- | [<- | [<- | []]]]; reflexivity.
  - split; [exact B | exact L].
Defined.

(** ** When a fetch stores its frame *)

Section FetcherSuccess.

Import Fetcher.
Local Open Scope fetcher_scope.

Variable history : string -> Z -> Z -> error + list frame_row.
Variable numeric_12_4 : num -> bool.
Variable today : Z.

Lemma store_row_succeeds i r s :
  faults s = None ->
  (exists v, int (Volume r) = inr v) ->
  (matches (Instrument.id i) (trade_date r) (session s) = []
   \/ exists k o, matches (Instrument.id i) (trade_date r) (session s) = [(k, o)]) ->
  exists s', store_row i r s = (inr tt, s').
Proof.
  intros Fn (v & I) M. unfold store_row. unfold bind at 1.
  rewrite (select_bar_goes _ _ _ Fn).
  destruct M as [-> | (k & o & ->)]; simpl; unfold bind, lift; rewrite I; simpl;
    eexists; reflexivity.
Qed.

(** In the session the loop has reached, the query for a bar finds at
    most one. *)
Lemma loop_matches iid d done table :
  distinct_keys table = true ->
  matches iid d (fold_left (fun os r => step iid r os) done (map loaded table)) = []
  \/ exists k o,
       matches iid d (fold_left (fun os r => step iid r os) done (map loaded table))
       = [(k, o)].
Proof.
  intros Di. rewrite (loop_session iid done table Di). unfold matches.
  rewrite matches_new.
  2:{ intros o Ho. apply in_map_iff in Ho as (r' & <- & _). reflexivity. }
  destruct (matches_cases iid d (refreshed iid done) table 0)
    as [(Nil & _) | (t1 & b & t2 & _ & _ & _ & One)].
  - intros b. destruct (refreshed_key iid done b) as (A & B & _). now split.
  - exact Di.
  - now left.
  - right. eexists. eexists. exact One.
Qed.

Lemma store_rows_succeeds i table done rest k s :
  distinct_keys table = true ->
  faults s = None ->
  session s = fold_left (fun os r => step (Instrument.id i) r os) done (map loaded table) ->
  (forall r, In r rest -> exists v, int (Volume r) = inr v) ->
  exists s', store_rows i rest k s = (inr (k + List.length rest), s').
Proof.
  intros Di. revert done k s.
  induction rest as [| r rest IH]; intros done k s Fn Se Vol; simpl.
  - exists s. now rewrite Nat.add_0_r.
  - destruct (store_row_succeeds i r s Fn (Vol r (or_introl eq_refl))) as (s1 & R).
    { rewrite Se. now apply loop_matches. }
    unfold bind. rewrite R.
    apply store_row_run in R as ((_ & _ & _ & _ & Fa) & Ok).
    destruct (Ok eq_refl) as (Se1 & _).
    destruct (IH (done ++ [r]) (k + 1) s1 (Fa Fn)) as (s' & Rows).
    + rewrite fold_left_app. simpl. now rewrite Se1, Se.
    + intros r' Hr'. apply Vol. now right.
    + exists s'. rewrite Rows. f_equal. f_equal. lia.
Qed.

Lemma db_commit_succeeds s :
  faults s = None ->
  forallb (storable numeric_12_4) (map row (session s)) = true ->
  distinct_keys (map row (session s)) = true ->
  exists s', db_commit numeric_12_4 s = (inr tt, s').
Proof.
  intros Fn St Di. unfold db_commit, bind. rewrite (round_trip_goes _ _ Fn).
  unfold gets. simpl. rewrite St, Di. simpl. eexists. reflexivity.
Qed.

Lemma distinct_keys_app l l' :
  distinct_keys l = true -> distinct_keys l' = true ->
  (forall b b', In b l -> In b' l' -> key_eqb b b' = false) ->
  distinct_keys (l ++ l') = true.
Proof.
  induction l as [| b rest IH]; intros D D' X; simpl; [exact D' |].
  simpl in D. apply andb_prop in D as (N & D). apply negb_true_iff in N.
  rewrite existsb_app, N. simpl.
  rewrite IH; try assumption.
  - rewrite andb_true_r. apply negb_true_iff.
    destruct (existsb (key_eqb b) l') eqn:E; [| reflexivity].
    apply existsb_exists in E as (b' & Hb' & E).
    rewrite (X b b' (or_introl eq_refl) Hb') in E. discriminate.
  - intros c c' Hc Hc'. apply X; [now right | exact Hc'].
Qed.

Lemma numbered_keys next l : map key_of (numbered next l) = map key_of l.
Proof.
  revert next. induction l as [| b rest IH]; intros next; simpl; [reflexivity |].
  now rewrite IH.
Qed.

Lemma new_rows_keys_distinct iid rs :
  NoDup (map trade_date rs) ->
  distinct_keys (map (fun r => row (new_bar iid r (truncated r))) rs) = true.
Proof.
  induction rs as [| r rest IH]; intros N; [reflexivity |].
  simpl in N. inversion N as [| d l Nin N']; subst.
  rewrite map_cons.
  change (negb (existsb (key_eqb (row (new_bar iid r (truncated r))))
                        (map (fun r => row (new_bar iid r (truncated r))) rest))
          && distinct_keys (map (fun r => row (new_bar iid r (truncated r))) rest) = true).
  rewrite (IH N'), andb_true_r. apply negb_true_iff.
  destruct (existsb _ _) eqn:E; [| reflexivity].
  apply existsb_exists in E as (b' & Hb' & E).
  apply in_map_iff in Hb' as (r' & <- & Hr').
  unfold key_eqb in E. simpl in E. apply andb_prop in E as (_ & E).
  apply Z.eqb_eq in E. exfalso. apply Nin. rewrite E. now apply in_map.
Qed.

Lemma NoDup_filter_map {A B : Type} (f : A -> B) (p : A -> bool) l :
  NoDup (map f l) -> NoDup (map f (filter p l)).
Proof.
  induction l as [| x rest IH]; intros N; simpl; [constructor |].
  inversion N as [| y l' Nin N']; subst.
  destruct (p x); simpl; [| now apply IH].
  constructor; [| now apply IH].
  intros H. apply Nin. apply in_map_iff in H as (z & E & Hz).
  apply filter_In in Hz as (Hz & _). rewrite <- E. now apply in_map.
Qed.

(** The table a fetch would store has no duplicate keys when the table
    has none and the frame has one row per day. *)
Lemma stored_keys_distinct iid df table :
  distinct_keys table = true ->
  NoDup (map trade_date df) ->
  distinct_keys (stored iid df table) = true.
Proof.
  intros Di N. unfold stored. apply distinct_keys_app.
  - rewrite (distinct_keys_key_of _ table); [exact Di |].
    rewrite map_map. apply map_ext. intros b. unfold key_of.
    destruct (refreshed_key iid df b) as (A & B & _). now rewrite A, B.
  - rewrite (distinct_keys_key_of _ _ (numbered_keys _ _)).
    apply new_rows_keys_distinct. unfold added. now apply NoDup_filter_map.
  - intros b b' Hb Hb'. apply in_map_iff in Hb as (c & <- & Hc).
    apply numbered_In in Hb' as (n & m & Hn & ->).
    apply in_map_iff in Hn as (r & <- & Hr). unfold added in Hr.
    apply filter_In in Hr as (_ & Hr). apply negb_true_iff in Hr.
    unfold key_eqb. simpl. destruct (refreshed_key iid df c) as (A & B & _).
    rewrite A, B.
    destruct ((instrument_id c =? iid)%Z && (date c =? trade_date r)%Z) eqn:E;
      [| reflexivity].
    rewrite <- Hr. symmetry. apply existsb_exists. exists c. split; [exact Hc | exact E].
Qed.

Lemma storable_assigned next os :
  forallb (storable numeric_12_4) (map row (assign_ids next os))
  = forallb (storable numeric_12_4) (map row os).
Proof.
  revert next. induction os as [| o rest IH]; intros next; simpl; [reflexivity |].
  destruct (persistent o); simpl; now rewrite IH.
Qed.

Lemma select_instrument_goes symbol s :
  faults s = None ->
  select_instrument symbol s
  = (match scalar_one_or_none
             (filter (fun i => String.eqb (Instrument.symbol i) symbol) (tx_instruments s))
     with
     | inl e => inl e
     | inr found => inr found
     end, with_trace (trace s ++ [SelectInstrument symbol]) s).
Proof.
  intros Fn. unfold select_instrument, bind. rewrite (round_trip_goes _ _ Fn).
  unfold gets, lift. simpl.
  destruct (scalar_one_or_none _); reflexivity.
Qed.

(** The [try] block goes through on a frame with one row per day whose
    values the store takes. *)
Lemma fetch_try_succeeds symbol start_date end_date days_back s i df :
  faults s = None -> clean s ->
  filter (fun i => String.eqb (Instrument.symbol i) symbol) (instruments s) = [i] ->
  history symbol
          match start_date with Some d => d | None => (today - days_back)%Z end
          (match end_date with Some d => d | None => today end + 1)%Z = inr df ->
  df <> [] ->
  (forall r, In r df -> exists v, int (Volume r) = inr v) ->
  distinct_keys (ohlc_daily s) = true ->
  NoDup (map trade_date df) ->
  forallb (storable numeric_12_4) (stored (Instrument.id i) df (ohlc_daily s)) = true ->
  exists s',
    fetch_and_store_ohlc_try history numeric_12_4 today symbol start_date end_date
                             days_back s = (inr (List.length df), s').
Proof.
  intros Fn (Tx & Se) Fi Hi Ne Vol Di N St.
  unfold fetch_and_store_ohlc_try. unfold bind at 1.
  rewrite (select_instrument_goes symbol s Fn), Tx, Fi. simpl scalar_one_or_none. cbv iota.
  unfold bind at 1. unfold ret at 1.
  unfold bind at 1. unfold logger at 1, modify at 1.
  unfold bind at 1. unfold record at 1, modify at 1.
  unfold bind at 1. rewrite Hi. unfold lift at 1, ret at 1.
  destruct df as [| r0 rest]; [contradiction |].
  set (df := r0 :: rest) in *.
  unfold bind at 1.
  match goal with
  | |- context [store_rows i df 0 ?x] => set (s3 := x)
  end.
  destruct (store_rows_succeeds i (ohlc_daily s) [] df 0 s3 Di) as (s4 & Rows).
  { exact Fn. }
  { simpl. exact Se. }
  { exact Vol. }
  rewrite Rows.
  apply store_rows_run in Rows as ((_ & _ & _ & _ & Fa) & Ok).
  destruct (Ok _ eq_refl) as (_ & Se4 & _).
  change (session s3) with (session s) in Se4. rewrite Se in Se4.
  pose proof (committed_table (Instrument.id i) df (ohlc_daily s) Di) as Ct.
  destruct (db_commit_succeeds s4 (Fa Fn)) as (s5 & Com).
  { rewrite Se4, <- (storable_assigned (next_id (ohlc_daily s))), Ct, row_loaded.
    exact St. }
  { rewrite Se4.
    rewrite <- (distinct_keys_key_of _ _ (assign_ids_keys (next_id (ohlc_daily s)) _)).
    rewrite Ct, row_loaded. now apply stored_keys_distinct. }
  unfold bind at 1. rewrite Com. simpl. eexists. reflexivity.
Qed.

End FetcherSuccess.

(** A fetch stores its frame whenever nothing stands in the way: with
    no store failure, the symbol having its one instrument, the table
    free of duplicate keys, and the service returning a non-empty frame
    with one row per day, volumes that are numbers and values that the
    columns take, the fetch returns the number of rows of the frame and
    the table is the stored frame. *)
Theorem fetch_stores_a_well_formed_frame :
  forall (history : string -> Z -> Z -> Fetcher.error + list Fetcher.frame_row)
         (numeric_12_4 : num -> bool) (today : Z) (symbol : string)
         (start_date end_date : option Z) (days_back : Z) (s : Fetcher.Store)
         (i : Instrument.t) (df : list Fetcher.frame_row),
    Fetcher.faults s = None -> Fetcher.clean s ->
    filter (fun i => String.eqb (Instrument.symbol i) symbol) (Fetcher.instruments s) = [i] ->
    history symbol
            match start_date with Some d => d | None => (today - days_back)%Z end
            (match end_date with Some d => d | None => today end + 1)%Z = inr df ->
    df <> [] ->
    (forall r, In r df -> exists v, Fetcher.int (Fetcher.Volume r) = inr v) ->
    Fetcher.distinct_keys (Fetcher.ohlc_daily s) = true ->
    NoDup (map Fetcher.trade_date df) ->
    forallb (Fetcher.storable numeric_12_4)
            (Fetcher.stored (Instrument.id i) df (Fetcher.ohlc_daily s)) = true ->
    exists s',
      Fetcher.fetch_and_store_ohlc history numeric_12_4 today symbol start_date end_date
                                   days_back s = (inr (List.length df), s')
      /\ Fetcher.ohlc_daily s' = Fetcher.stored (Instrument.id i) df (Fetcher.ohlc_daily s)
      /\ Fetcher.instruments s' = Fetcher.instruments s
      /\ Fetcher.clean s'.
Proof.
  intros history numeric_12_4 today symbol start_date end_date days_back s i df
         Fn Cl Fi Hi Ne Vol Di N St.
  destruct (fetch_try_succeeds history numeric_12_4 today symbol start_date end_date
              days_back s i df Fn Cl Fi Hi Ne Vol Di N St) as (s' & Try).
  destruct (fetch_run history numeric_12_4 today symbol start_date end_date days_back s Cl)
    as (n & s'' & Run & A & Cl' & Cases).
  unfold Fetcher.fetch_and_store_ohlc, Fetcher.try_except in *. rewrite Try in *.
  inversion Run; subst n s''. exists s'. split; [reflexivity |].
  destruct Cases as [(N0 & _) | (i' & df' & Fi' & Hi' & _ & _ & _ & B & _)].
  - destruct df; [contradiction | discriminate].
  - rewrite Fi in Fi'. inversion Fi'; subst i'.
    rewrite Hi in Hi'. inversion Hi'; subst df'.
    repeat split; try assumption; apply Cl'.
Qed.

Lemma fetch_stores_a_well_formed_frame_witness :
  exists s',
    Fetcher.fetch_and_store_ohlc Fetcher.Sample.history Fetcher.Sample.finite 20 "SPY"
                                 None None 5 Fetcher.Sample.store = (inr 2, s')
    /\ Fetcher.ohlc_daily s'
       = Fetcher.stored 1 [Fetcher.Sample.quote 11 402; Fetcher.Sample.quote 12 403]
                        (Fetcher.ohlc_daily Fetcher.Sample.store)
    /\ Fetcher.instruments s' = Fetcher.instruments Fetcher.Sample.store
    /\ Fetcher.clean s'.
Proof.
  apply (fetch_stores_a_well_formed_frame Fetcher.Sample.history Fetcher.Sample.finite 20%Z
           "SPY" None None 5%Z Fetcher.Sample.store Fetcher.Sample.spy
           [Fetcher.Sample.quote 11 402; Fetcher.Sample.quote 12 403]).
  - reflexivity.
  - split; reflexivity.
  - reflexivity.
  - reflexivity.
  - discriminate.
  - intros r [<- | [<- | []]]; eexists; reflexivity.
  - reflexivity.
  - repeat constructor; simpl; intuition discriminate.
  - vm_compute. reflexivity.
Defined.

(** ** The tasks built on the fetcher *)

Section FetcherCompletion.

Import Fetcher.
Local Open Scope fetcher_scope.

Variable history : string -> Z -> Z -> error + list frame_row.
Variable numeric_12_4 : num -> bool.
Variable today : Z.

Lemma dict_set_keys k v d k' :
  In k' (map fst (dict_set k v d)) <-> k' = k \/ In k' (map fst d).
Proof.
  split.
  - intros H. apply in_map_iff in H as (kv & <- & H).
    apply dict_set_inv in H as [-> | H]; [now left | right; now apply in_map].
  - intros [-> | H]; [| now apply dict_set_keeps].
    apply in_map_iff. exists (k, v). split; [reflexivity | apply dict_set_In].
Qed.

(** The loop of [fetch_multiple_symbols] never raises, and its dict has
    an entry for every symbol it was given. *)
Lemma fetch_each_run start_date end_date delay_seconds last_symbol symbols results s :
  clean s ->
  exists results' s',
    fetch_each history numeric_12_4 today start_date end_date delay_seconds last_symbol
               symbols results s = (inr results', s')
    /\ instruments s' = instruments s /\ clean s'
    /\ (forall k, In k (map fst results') <-> In k (map fst results) \/ In k symbols).
Proof.
  revert results s. induction symbols as [| symbol rest IH]; intros results s Cl.
  - exists results, s. split; [reflexivity |]. split; [reflexivity |].
    split; [exact Cl |]. intros k. simpl. tauto.
  - simpl. unfold bind at 1. unfold try_except at 1. unfold bind at 1.
    destruct (fetch_run history numeric_12_4 today symbol start_date end_date 5 s Cl)
      as (n & s1 & Run & A1 & Cl1 & _).
    rewrite Run. unfold bind at 1.
    set (pause := if negb (Qle_bool delay_seconds 0) && negb (String.eqb symbol last_symbol)
                  then record Sleep else ret tt).
    assert (P : exists s2, pause s1 = (inr tt, s2)
                  /\ instruments s2 = instruments s1 /\ clean s2).
    { unfold pause.
      destruct (negb (Qle_bool delay_seconds 0) && negb (String.eqb symbol last_symbol));
        eexists; (split; [reflexivity |]); split; try reflexivity; exact Cl1. }
    destruct P as (s2 & -> & A2 & Cl2). unfold ret at 1.
    destruct (IH (dict_set symbol n results) s2 Cl2) as (results' & s' & Run' & A & Cl' & K).
    exists results', s'. split; [exact Run' |]. split; [congruence |]. split; [exact Cl' |].
    intros k. rewrite K, dict_set_keys. simpl. intuition congruence.
Qed.

End FetcherCompletion.

(** The tasks built on the fetcher always run to their last log record:
    since [fetch_and_store_ohlc] catches every exception itself, the
    [try] blocks of [backfill_benchmark_data] and
    [update_benchmarks_daily] and that of the loop of
    [fetch_multiple_symbols] never fail, whatever the store and the
    service do; the dict of [fetch_multiple_symbols] has an entry for
    each of its symbols and no other, and neither task changes the
    instruments. *)
Theorem fetcher_tasks_always_report_completion :
  forall (history : string -> Z -> Z -> Fetcher.error + list Fetcher.frame_row)
         (numeric_12_4 : num -> bool) (today : Z) (fault : option nat) (s : Fetcher.Store),
    (forall symbol days_back,
        exists n db',
          Fetcher.fetch_and_store_ohlc history numeric_12_4 today symbol
            (Some (today - days_back)%Z) (Some today) 5
            (Fetcher.with_log (Fetcher.log s ++ [(INFO, "Backfilling")])
                              (Fetcher.SessionLocal fault s)) = (inr n, db')
          /\ Fetcher.backfill_benchmark_data history numeric_12_4 today fault symbol
               days_back s
             = Fetcher.db_close
                 (Fetcher.with_log (Fetcher.log db' ++ [(INFO, "Backfilled records")]) db')
          /\ Fetcher.instruments db' = Fetcher.instruments s)
    /\ (forall benchmarks,
          exists results db',
            Fetcher.fetch_multiple_symbols history numeric_12_4 today benchmarks
              (Some (today - 1)%Z) (Some (today - 1)%Z) (1 # 2)
              (Fetcher.with_log (Fetcher.log s ++ [(INFO, "Updating benchmarks")])
                                (Fetcher.SessionLocal fault s)) = (inr results, db')
            /\ Fetcher.update_benchmarks_daily history numeric_12_4 today fault benchmarks s
               = Fetcher.db_close
                   (Fetcher.with_log
                      (Fetcher.log db' ++ [(INFO, "Benchmark update results")]) db')
            /\ (forall symbol, In symbol (map fst results) <-> In symbol benchmarks)
            /\ Fetcher.instruments db' = Fetcher.instruments s).
Proof.
  intros history numeric_12_4 today fault s. split.
  - intros symbol days_back.
    destruct (fetch_run history numeric_12_4 today symbol (Some (today - days_back)%Z)
                (Some today) 5
                (Fetcher.with_log (Fetcher.log s ++ [(INFO, "Backfilling")])
                                  (Fetcher.SessionLocal fault s)))
      as (n & db' & Run & A & _).
    { split; reflexivity. }
    exists n, db'. split; [exact Run |]. split; [| exact A].
    unfold Fetcher.backfill_benchmark_data, Fetcher.try_except,
      Fetcher.backfill_benchmark_data_try.
    unfold Fetcher.bind at 1. unfold Fetcher.logger at 1, Fetcher.modify at 1.
    unfold Fetcher.bind at 1.
    change (Fetcher.log (Fetcher.SessionLocal fault s)) with (Fetcher.log s).
    rewrite Run. reflexivity.
  - intros benchmarks.
    destruct (fetch_each_run history numeric_12_4 today (Some (today - 1)%Z)
                (Some (today - 1)%Z) (1 # 2) (last benchmarks "") benchmarks []
                (Fetcher.with_log (Fetcher.log s ++ [(INFO, "Updating benchmarks")])
                                  (Fetcher.SessionLocal fault s)))
      as (results & db' & Run & A & _ & K).
    { split; reflexivity. }
    exists results, db'. split; [exact Run |]. split; [| split; [| exact A]].
    + unfold Fetcher.update_benchmarks_daily, Fetcher.try_except,
        Fetcher.update_benchmarks_daily_try.
      unfold Fetcher.bind at 1. unfold Fetcher.logger at 1, Fetcher.modify at 1.
      unfold Fetcher.bind at 1.
      change (Fetcher.log (Fetcher.SessionLocal fault s)) with (Fetcher.log s).
      unfold Fetcher.fetch_multiple_symbols in *. rewrite Run. reflexivity.
    + intros symbol. rewrite K. simpl. tauto.
Qed.

(** * The system as a whole *)

Lemma event_keeps_columns a lib k fault ty iid t s :
  map kept (analytics_daily (snd (recompute_from_event a lib k fault ty iid t s)))
  = map kept (analytics_daily s).
Proof.
  destruct (recompute_from_event_facts a lib k fault ty iid t s)
    as (r & db' & E & _ & A & _).
  rewrite A.
  apply (pass_keeps_columns a lib (date_of t) _ r db') in E; [exact E | reflexivity].
Qed.

Lemma deliver_keeps_columns fuel (body : task_body) plan k s d s' :
  (forall k f s0, map kept (analytics_daily (snd (body k f s0)))
                  = map kept (analytics_daily s0)) ->
  deliver fuel body plan k s = Some (d, s') ->
  map kept (analytics_daily s') = map kept (analytics_daily s).
Proof.
  intros Keeps. revert k s d s'.
  induction fuel as [| fuel IH]; intros k s d s' H; simpl in H; [discriminate |].
  pose proof (Keeps k (plan k) s) as K.
  destruct (body k (plan k) s) as [[| c | e] s1]; simpl in K.
  - inversion H; subst. exact K.
  - destruct (deliver fuel body plan (S k) s1) as [[d1 s2] |] eqn:D; [| discriminate].
    inversion H; subst. rewrite (IH _ _ _ _ D). exact K.
  - inversion H; subst. exact K.
Qed.

Lemma move_keeps_columns a lib sys sys' :
  move a lib sys sys' ->
  map kept (analytics_daily (store sys')) = map kept (analytics_daily (store sys)).
Proof.
  intros M. destruct M as [ev sys | plan sys d sys' W | fault sys].
  - unfold ingest_webhook. simpl.
    destruct ev as [sym t | sym t | t v]; simpl; try reflexivity;
      unfold upsert_instrument;
      destruct (existsb (fun i => String.eqb (Instrument.symbol i) sym)
                        (instruments (store sys))); reflexivity.
  - unfold work in W. destruct (queue sys) as [| [ty t] rest]; [discriminate |].
    destruct (deliver (S (S max_retries))
                (fun retries fault => recompute_from_event a lib retries fault ty None t)
                plan 0 (store sys)) as [[d1 s1] |] eqn:D; [| discriminate].
    inversion W; subst. simpl.
    apply (deliver_keeps_columns _ _ _ _ _ _ _ (fun k f s0 =>
             event_keeps_columns a lib k f ty None t s0) D).
  - simpl. apply recompute_all_analytics_keeps_columns.
Qed.

(** Whatever webhooks arrive, whatever messages the worker delivers
    and however often the full recomputation runs, with or without
    store failures, the analytics table keeps its records and their
    [id], [date], [return_pct], [cum_return] and [drawdown]: the system
    never adds an analytics record and never writes a return or a
    drawdown. *)
Theorem system_never_adds_a_record_nor_writes_a_return :
  forall (a : arith) (lib : core_analytics) (sys sys' : System),
    moves a lib sys sys' ->
    map kept (analytics_daily (store sys')) = map kept (analytics_daily (store sys))
    /\ List.length (analytics_daily (store sys')) = List.length (analytics_daily (store sys)).
Proof.
  intros a lib sys sys' Ms.
  assert (K : map kept (analytics_daily (store sys'))
              = map kept (analytics_daily (store sys))).
  { induction Ms as [sys | sys1 sys2 sys3 _ IH M]; [reflexivity |].
    rewrite (move_keeps_columns a lib sys2 sys3 M). exact IH. }
  split; [exact K |].
  rewrite <- (length_map kept), K. apply length_map.
Qed.

Lemma system_never_adds_a_record_nor_writes_a_return_witness :
  exists sys',
    moves Float64 Reference.analytics
          {| store := Sample.recorded; queue := [] |} sys'
    /\ queue sys' = []
    /\ equity_curve (store sys') = Sample.three_days ++ [Sample.snapshot (3 * 86400) 130]
    /\ map kept (analytics_daily (store sys'))
       = map kept (analytics_daily Sample.recorded).
Proof.
  set (sys0 := {| store := Sample.recorded; queue := [] |}).
  set (sys1 := snd (ingest_webhook (EquityEvent (3 * 86400) 130) sys0)).
  destruct (work Float64 Reference.analytics (fun _ => None) sys1) as [[d sys2] |] eqn:W.
  - exists sys2.
    assert (Ms : moves Float64 Reference.analytics sys0 sys2).
    { apply moves_more with sys1.
      - apply moves_more with sys0; [apply moves_none | apply Ingested].
      - apply (Worked Float64 Reference.analytics (fun _ => None) sys1 d sys2 W). }
    split; [exact Ms |].
    destruct (system_never_adds_a_record_nor_writes_a_return Float64 Reference.analytics
                sys0 sys2 Ms) as (K & _).
    split; [| split; [| exact K]]; vm_compute in W; inversion W; reflexivity.
  - vm_compute in W. discriminate.
Defined.
